(** * Genesis bootstrap of the integration test network

    A shallow embedding of

      - [x/vm/types/denom.go]                       (module [evmtypes]),
      - [testutil/integration/os/network/setup.go]  (module [network]),

    together with the small part of the Cosmos SDK these files lean on
    (coins, fixed-point decimals, bech32 addresses), gathered in the
    modules [bech32] and [sdk].

    Conventions.  Go strings are byte strings ([string]); a Go [map] with
    string keys is a [gmap string _], and a variable of map type is a
    reference into a heap of such maps; [sdkmath.Int] is [Z], and the
    addition of the library panics past its 256-bit ceiling; a Go value
    of type [error] is an [option string] carrying the message, [None]
    being [nil]; a function that may panic returns in [outcome]; a
    function of Go type [(T, error)] returns a pair; a pointer to a
    consensus validator is an [option], [None] being [nil].

    What belongs to the SDK and to the application (key conversions, JSON
    codec, address prefixes, denom pattern) enters through the classes
    [sdk.Config], [KeyCodec] and [AppCodec]; the statements hold for all
    their instances, and module [example] provides one of each to run
    the definitions on. *)

From Stdlib Require Import ZArith List Ascii String.
From stdpp Require Import base option list sorting strings pretty gmap fin_maps.

Local Open Scope Z_scope.

(** ** Go-level plumbing *)

(** A Go [error]: [None] is [nil], [Some msg] an error whose text is [msg]. *)
Abbreviation error := (option string).

(** What a call may do apart from returning: panic with a message. *)
Inductive outcome (A : Type) : Type :=
| Returns (a : A)
| Panics (msg : string).
Arguments Returns {A} a.
Arguments Panics {A} msg.

Global Instance outcome_bind : MBind outcome := fun A B k m =>
  match m with
  | Returns a => k a
  | Panics msg => Panics msg
  end.

(** What the Go runtime panics with when a nil pointer is dereferenced. *)
Definition nilDereference : string :=
  "runtime error: invalid memory address or nil pointer dereference".

(** [fmt]'s [%d] verb on an integer. *)
Definition fmt_d (z : Z) : string := pretty z.

(* ===================================================================== *)
(** ** x/vm/types/denom.go *)
(* ===================================================================== *)

Module evmtypes.

(** [type Decimals uint8]: a [Z] kept within [0, 256). *)
Abbreviation Decimals := Z.

Definition is_uint8 (d : Decimals) : Prop := 0 <= d < 256.

Definition SixDecimals : Decimals := 6.
Definition EighteenDecimals : Decimals := 18.

(** [func (d Decimals) Validate() error] *)
Definition Validate (d : Decimals) : error :=
  if decide (d = SixDecimals) then None
  else if decide (d = EighteenDecimals) then None
  else Some ("received unsupported decimals: " +:+ fmt_d d).

(** [func (d Decimals) ConversionFactor() math.Int] *)
Definition ConversionFactor (d : Decimals) : Z :=
  if decide (d = SixDecimals) then 1000000000000 (* math.NewInt(1e12) *)
  else 1.

End evmtypes.

(* ===================================================================== *)
(** ** bech32 (BIP-173), as used by the SDK's address [String()] methods *)
(* ===================================================================== *)

Module bech32.

Definition charset : list ascii :=
  list_ascii_of_string "qpzry9x8gf2tvdw0s3jn54khce6mua7l".

Definition gen : list Z :=
  [0x3b6a57b2; 0x26508e6d; 0x1ea119fa; 0x3d4233dd; 0x2a1462b3].

Definition polymod_step (chk v : Z) : Z :=
  let b := Z.shiftr chk 25 in
  let chk' := Z.lxor (Z.shiftl (Z.land chk 0x1ffffff) 5) v in
  fold_left
    (fun c '(i, g) => if Z.testbit b (Z.of_nat i) then Z.lxor c g else c)
    (combine (seq 0 5) gen) chk'.

Definition polymod (values : list Z) : Z := fold_left polymod_step values 1.

Definition hrp_expand (hrp : string) : list Z :=
  let cs := map (fun c => Z.of_N (N_of_ascii c)) (list_ascii_of_string hrp) in
  map (fun c => Z.shiftr c 5) cs ++ [0] ++ map (fun c => Z.land c 31) cs.

Definition create_checksum (hrp : string) (data : list Z) : list Z :=
  let pm := Z.lxor (polymod (hrp_expand hrp ++ data ++ [0; 0; 0; 0; 0; 0])) 1 in
  map (fun i => Z.land (Z.shiftr pm (5 * (5 - Z.of_nat i))) 31) (seq 0 6).

(** The inner loop of [ConvertBits]: while [bits >= 5], emit a group. *)
Fixpoint drain (fuel : nat) (acc : Z) (bits : nat) (out : list Z)
  : nat * list Z :=
  match fuel with
  | O => (bits, out)
  | S fuel' =>
      if decide (5 <= bits)%nat
      then let bits' := (bits - 5)%nat in
           drain fuel' acc bits'
             (out ++ [Z.land (Z.shiftr acc (Z.of_nat bits')) 31])
      else (bits, out)
  end.

(** [ConvertBits(data, 8, 5, true)]: regroup bytes into 5-bit values,
    most significant bit first, the last group padded with zeros. *)
Fixpoint convert_loop (data : list Byte.byte) (acc : Z) (bits : nat)
    (out : list Z) : Z * nat * list Z :=
  match data with
  | [] => (acc, bits, out)
  | v :: data' =>
      let acc' := Z.land (Z.lor (Z.shiftl acc 8) (Z.of_N (Byte.to_N v))) 0xfff in
      let '(bits', out') := drain (bits + 8) acc' (bits + 8) out in
      convert_loop data' acc' bits' out'
  end.

Definition ConvertBits (data : list Byte.byte) : list Z :=
  let '(acc, bits, out) := convert_loop data 0 0%nat [] in
  if decide (0 < bits)%nat
  then out ++ [Z.land (Z.shiftl acc (Z.of_nat (5 - bits))) 31]
  else out.

Definition to_char (v : Z) : ascii := nth (Z.to_nat v) charset "q"%char.

(** [Encode(hrp, data)]: prefix, separator ["1"], data and checksum. *)
Definition Encode (hrp : string) (data : list Z) : string :=
  hrp +:+ "1" +:+
  string_of_list_ascii (map to_char (data ++ create_checksum hrp data)).

(** [ConvertAndEncode(hrp, data)] *)
Definition ConvertAndEncode (hrp : string) (data : list Byte.byte) : string :=
  Encode hrp (ConvertBits data).

End bech32.

(* ===================================================================== *)
(** ** The Cosmos SDK types the harness builds on *)
(* ===================================================================== *)

Module sdk.

(** Process-wide SDK settings read by the code below: the bech32
    prefixes of [sdk.GetConfig()], the coin denom pattern checked by
    [ValidateDenom], and [crypto.AddressHash]. *)
Class Config : Type := {
  Bech32AccountAddrPrefix : string;
  Bech32ValidatorAddrPrefix : string;
  validDenom : string -> bool;
  AddressHash : list Byte.byte -> list Byte.byte;
}.

(** *** Addresses *)

(** [type AccAddress []byte], [type ValAddress []byte] *)
Abbreviation AccAddress := (list Byte.byte).
Abbreviation ValAddress := (list Byte.byte).

(** [func (aa AccAddress) String() string]: the empty address prints as
    the empty string, any other as bech32 under the account prefix. *)
Definition AccAddress_String `{Config} (aa : AccAddress) : string :=
  match aa with
  | [] => ""
  | _ => bech32.ConvertAndEncode Bech32AccountAddrPrefix aa
  end.

(** [func (va ValAddress) String() string] *)
Definition ValAddress_String `{Config} (va : ValAddress) : string :=
  match va with
  | [] => ""
  | _ => bech32.ConvertAndEncode Bech32ValidatorAddrPrefix va
  end.

(** The Go conversion [AccAddress(s)] of a string: its bytes. *)
Definition AccAddress_of_string (s : string) : AccAddress :=
  list_byte_of_string s.

(** [authtypes.NewModuleAddress(name)] *)
Definition NewModuleAddress `{Config} (name : string) : AccAddress :=
  AddressHash (list_byte_of_string name).

(** *** Coins *)

Record Coin : Type := mkCoin { Denom : string; Amount : Z }.

Global Instance Coin_eq_dec : EqDecision Coin.
Proof. solve_decision. Defined.

(** [type Coins []Coin] *)
Abbreviation Coins := (list Coin).

(** [func NewCoin(denom string, amount math.Int) Coin] panics when
    [Validate] rejects the coin: bad denom or negative amount. *)
Definition NewCoin `{Config} (denom : string) (amount : Z) : outcome Coin :=
  if negb (validDenom denom) then Panics ("invalid denom: " +:+ denom)
  else if decide (amount < 0)
       then Panics ("negative coin amount: " +:+ fmt_d amount)
       else Returns (mkCoin denom amount).

(** [NewCoins()] without arguments. *)
Definition NewCoins : Coins := [].

(** [func (coins Coins) isSorted() bool]: no coin's denom is greater than
    its successor's. *)
Fixpoint isSorted (coins : Coins) : bool :=
  match coins with
  | [] => true
  | c :: rest =>
      match rest with
      | [] => true
      | c' :: _ => negb (String.ltb (Denom c') (Denom c)) && isSorted rest
      end
  end.

(** [math.MaxBitLen] *)
Definition MaxBitLen : Z := 256.

(** The integers an [sdkmath.Int] holds: those whose magnitude takes at
    most [MaxBitLen] bits. *)
Definition fitsInt (z : Z) : Prop := Z.abs z < 2 ^ MaxBitLen.

Global Instance fitsInt_dec z : Decision (fitsInt z).
Proof. unfold fitsInt. apply _. Defined.

(** What [Int.Add] panics with on overflow.  The text has changed
    between versions of the library; no statement below depends on it. *)
Definition ErrIntOverflow : string := "integer overflow".

(** [func (i Int) Add(i2 Int) Int]: panics when the sum takes more than
    [MaxBitLen] bits. *)
Definition Int_Add (i i2 : Z) : outcome Z :=
  if decide (fitsInt (i + i2)) then Returns (i + i2)
  else Panics ErrIntOverflow.

(** [func (coin Coin) Add(coinB Coin) Coin], on coins of one denom. *)
Definition Coin_Add (coin coinB : Coin) : outcome Coin :=
  amount ← Int_Add (Amount coin) (Amount coinB);
  Returns (mkCoin (Denom coin) amount).

Definition Coin_IsZero (coin : Coin) : bool := Amount coin =? 0.

Definition Coin_le (c1 c2 : Coin) : Prop := String.le (Denom c1) (Denom c2).

Global Instance Coin_le_dec : RelDecision Coin_le.
Proof. intros c1 c2. unfold Coin_le. apply _. Defined.

(** [func (coins Coins) Sort() Coins]: by denom. *)
Definition Sort (coins : Coins) : Coins := merge_sort Coin_le coins.

(** The [uniqCoins] table of [safeAdd]: the coins seen, per denom.
    [uniqStep] is [uniqCoins[c.Denom] = append(uniqCoins[c.Denom], c)]. *)
Definition uniqStep (m : gmap string Coins) (c : Coin) : gmap string Coins :=
  <[Denom c := default [] (m !! Denom c) ++ [c]]> m.

Definition uniqCoins (coins : Coins) : gmap string Coins :=
  fold_left uniqStep coins ∅.

(** The inner loop of [safeAdd]: [comboCoin = comboCoin.Add(c)] for the
    coins of one denom, in the order they were seen. *)
Fixpoint sumCoins (cL : Coins) (comboCoin : Coin) : outcome Coin :=
  match cL with
  | [] => Returns comboCoin
  | c :: rest =>
      comboCoin' ← Coin_Add comboCoin c;
      sumCoins rest comboCoin'
  end.

(** One round of [safeAdd]'s second loop: the coins of [denom] summed
    up, from a zero coin on, and dropped when the sum is zero. *)
Definition comboCoin (entry : string * Coins) : outcome (option Coin) :=
  combo ← sumCoins entry.2 (mkCoin entry.1 0);
  Returns (if Coin_IsZero combo then None else Some combo).

(** [safeAdd]'s second loop, over the entries of the table in the order
    [entries]. *)
Fixpoint coalesce (entries : list (string * Coins)) : outcome Coins :=
  match entries with
  | [] => Returns []
  | entry :: rest =>
      combo ← comboCoin entry;
      coalesced ← coalesce rest;
      Returns (match combo with
               | Some c => c :: coalesced
               | None => coalesced
               end)
  end.

(** [func (coins Coins) Add(coinsB ...Coin) Coins], that is [safeAdd]:
    panics unless both operands are sorted; otherwise sums the coins
    denom by denom, which panics when a sum overflows, drops zero sums
    and sorts the result.  The table is walked in no particular order;
    the outcome is the same for all of them: an overflow is the same
    panic whichever denom it is met at, and the sorted result does not
    depend on the order (lemmas [coalesce_any_order], [Sort_any_order]). *)
Definition Add (coins coinsB : Coins) : outcome Coins :=
  if negb (isSorted coins) then Panics "Coins (self) must be sorted"
  else if negb (isSorted coinsB)
       then Panics "Wrong argument: coins must be sorted"
       else coalesced ← coalesce (map_to_list (uniqCoins (coins ++ coinsB)));
            Returns (Sort coalesced).

(** The amount of [denom] held in a coin list, counting every coin of
    that denom. *)
Definition amountOf (denom : string) (coins : Coins) : Z :=
  foldr (fun c acc => if decide (Denom c = denom) then Amount c + acc else acc)
    0 coins.

(** *** Fixed-point decimals: [sdkmath.LegacyDec], 18 fractional digits *)

Definition LegacyDec : Type := Z.
Definition LegacyPrecision : Z := 18.

(** [LegacyNewDecWithPrec(i, prec)] is [i / 10^prec]; it panics when
    [prec] exceeds the precision. *)
Definition LegacyNewDecWithPrec (i prec : Z) : outcome LegacyDec :=
  if decide (LegacyPrecision < prec)
  then Panics ("too much precision, maximum 18, provided " +:+ fmt_d prec)
  else Returns (i * 10 ^ (LegacyPrecision - prec)).

Definition LegacyOneDec : LegacyDec := 10 ^ LegacyPrecision.

(** [d] is the fraction [num/den]. *)
Definition Dec_is (d : LegacyDec) (num den : Z) : Prop :=
  d * den = num * 10 ^ LegacyPrecision.

(** [func (d LegacyDec) LTE(d2 LegacyDec) bool] *)
Definition Dec_LTE (d d2 : LegacyDec) : Prop := d <= d2.

(** *** Time: seconds and nanoseconds since the Unix epoch, in UTC *)

Record Time : Type := mkTime { sec : Z; nsec : Z }.
Definition time_Unix (s ns : Z) : Time := mkTime s ns.

(** *** More on integers and coins *)

(** [func (i Int) Quo(i2 Int) Int]: division truncated toward zero; it
    panics on a zero divisor. *)
Definition Int_Quo (i i2 : Z) : outcome Z :=
  if decide (i2 = 0) then Panics "division by zero"
  else Returns (Z.quot i i2).

(** [func (coin Coin) String() string] *)
Definition Coin_String (coin : Coin) : string :=
  fmt_d (Amount coin) +:+ Denom coin.

(** [NewCoins(coin)] on one coin: a zero coin is dropped; any other is
    validated, and a coin set that does not validate is a panic. *)
Definition NewCoins1 `{Config} (coin : Coin) : outcome Coins :=
  if Coin_IsZero coin then Returns []
  else if negb (validDenom (Denom coin))
       then Panics ("invalid coin set " +:+ Coin_String coin +:+
                    ": invalid denom: " +:+ Denom coin)
       else if decide (Amount coin <= 0)
            then Panics ("invalid coin set " +:+ Coin_String coin +:+
                         ": coin " +:+ Coin_String coin +:+
                         " amount is not positive")
            else Returns [coin].

End sdk.

(* ===================================================================== *)
(** ** Consensus and staking records *)
(* ===================================================================== *)

(** A library call of Go type [(T, error)]. *)
Inductive result (A : Type) : Type :=
| Ok (a : A)
| Error (msg : string).
Arguments Ok {A} a.
Arguments Error {A} msg.

Module cmttypes.

(** A CometBFT [crypto.PubKey]: its key type and raw bytes. *)
Record PubKey : Type := mkPubKey { KeyType : string; KeyBytes : list Byte.byte }.

(** [cmttypes.Validator] *)
Record Validator : Type := mkValidator {
  Address : list Byte.byte;
  PubKey_ : PubKey;
  VotingPower : Z;
}.

End cmttypes.

Module stakingtypes.
Import sdk.

(** [*codectypes.Any] *)
Record Any : Type := mkAny { TypeUrl : string; Value : list Byte.byte }.

Inductive BondStatus : Type := Unspecified | Unbonded | Unbonding | Bonded.

Record Description : Type := mkDescription {
  Moniker : string; Identity : string; Website : string;
  SecurityContact : string; Details : string;
}.

Record CommissionRates : Type := mkCommissionRates {
  Rate : LegacyDec; MaxRate : LegacyDec; MaxChangeRate : LegacyDec;
}.

Record Commission : Type := mkCommission {
  Rates : CommissionRates;
  UpdateTime : Time;
}.

(** [func NewCommission(rate, maxRate, maxChangeRate) Commission] *)
Definition NewCommission (rate maxRate maxChangeRate : LegacyDec) : Commission :=
  mkCommission (mkCommissionRates rate maxRate maxChangeRate)
               (time_Unix 0 0).

(** [stakingtypes.Validator], with the fields the harness sets. *)
Record Validator : Type := mkValidator {
  OperatorAddress : string;
  ConsensusPubkey : option Any;
  Jailed : bool;
  Status : BondStatus;
  Tokens : Z;
  DelegatorShares : LegacyDec;
  Description_ : Description;
  UnbondingHeight : Z;
  UnbondingTime : Time;
  Commission_ : Commission;
  MinSelfDelegation : Z;
}.

(** The Go zero value [stakingtypes.Validator{}].  The zero [time.Time]
    is January 1 of year 1, not the Unix epoch. *)
Definition zeroTime : Time := mkTime (-62135596800) 0.

Definition zeroValidator : Validator :=
  mkValidator "" None false Unspecified 0 0 (mkDescription "" "" "" "" "")
    0 zeroTime (mkCommission (mkCommissionRates 0 0 0) zeroTime) 0.

Definition BondedPoolName : string := "bonded_tokens_pool".

(** [stakingtypes.Delegation] *)
Record Delegation : Type := mkDelegation {
  DelegatorAddress : string;
  ValidatorAddress : string;
  Shares : LegacyDec;
}.

(** [func NewDelegation(delegatorAddr, validatorAddr string,
      shares math.LegacyDec) Delegation] *)
Definition NewDelegation (delegatorAddr validatorAddr : string)
    (shares : LegacyDec) : Delegation :=
  mkDelegation delegatorAddr validatorAddr shares.

(** [stakingtypes.Params] *)
Record Params : Type := mkParams {
  UnbondingTimeNs : Z;
  MaxValidators : Z;
  MaxEntries : Z;
  HistoricalEntries : Z;
  BondDenom : string;
  MinCommissionRate : LegacyDec;
}.

(** [stakingtypes.GenesisState], with the fields [NewGenesisState] sets;
    the others stay at their zero values. *)
Record GenesisState : Type := mkGenesisState {
  GenesisParams : Params;
  Validators : list Validator;
  Delegations : list Delegation;
}.

(** [func NewGenesisState(params Params, validators []Validator,
      delegations []Delegation) *GenesisState] *)
Definition NewGenesisState (params : Params) (validators : list Validator)
    (delegations : list Delegation) : GenesisState :=
  mkGenesisState params validators delegations.

End stakingtypes.

(** The codecs of the application the harness runs against: the key
    conversions of [cryptocodec] and [codectypes].  They belong to the
    SDK; the harness only reacts to their success or failure. *)
Class KeyCodec : Type := {
  SdkPubKey : Type;
  FromTmPubKeyInterface : cmttypes.PubKey -> result SdkPubKey;
  NewAnyWithValue : SdkPubKey -> result stakingtypes.Any;
}.

(* ===================================================================== *)
(** ** Genesis values *)
(* ===================================================================== *)

(** [json.RawMessage]: the serialized state of one module. *)
Definition RawMessage : Type := string.

(** The values of type [map[string]json.RawMessage] alive in the program.
    A Go map variable is a reference: [None] is the nil map, [Some l] the
    map stored at [l]. *)
Abbreviation Heap := (gmap nat (gmap string RawMessage)).

(** [evmostypes.GenesisState] *)
Definition GenesisState : Type := option nat.

(** [m[k]]: the zero value when the key is absent or the map nil. *)
Definition mapIndex (h : Heap) (m : GenesisState) (k : string) : RawMessage :=
  match m with
  | None => ""
  | Some l => default "" (default ∅ (h !! l) !! k)
  end.

(** The two-valued [v, ok := m[k]]. *)
Definition mapLookup (h : Heap) (m : GenesisState) (k : string)
  : option RawMessage :=
  match m with
  | None => None
  | Some l => default ∅ (h !! l) !! k
  end.

(** [m[k] = v]: panics on the nil map, updates the map in place otherwise. *)
Definition mapAssign (h : Heap) (m : GenesisState) (k : string) (v : RawMessage)
  : outcome Heap :=
  match m with
  | None => Panics "assignment to entry in nil map"
  | Some l => Returns (<[l := <[k := v]> (default ∅ (h !! l))]> h)
  end.

Module ModuleName.
Definition evm : string := "evm".
Definition erc20 : string := "erc20".
Definition gov : string := "gov".
Definition feemarket : string := "feemarket".
Definition distribution : string := "distribution".
Definition mint : string := "mint".
Definition bank : string := "bank".
Definition auth : string := "auth".
Definition consensus : string := "consensus".
Definition capability : string := "capability".
Definition staking : string := "staking".
Definition slashing : string := "slashing".

End ModuleName.

Module banktypes.
(** [banktypes.Balance] *)
Record Balance : Type := mkBalance { Address : string; Coins : sdk.Coins }.

(** [banktypes.GenesisState] *)
Record GenesisState : Type := mkGenesisState {
  Params : string;
  Balances : list Balance;
  Supply : sdk.Coins;
  DenomMetadata : list string;
  SendEnabled : list (string * bool);
}.
End banktypes.

Module authtypes.
(** [authtypes.GenesisState] *)
Record GenesisState : Type := mkGenesisState {
  Params : string;
  Accounts : list stakingtypes.Any;
}.
(** [authtypes.BaseAccount], the one kind of genesis account the harness
    makes. *)
Record BaseAccount : Type := mkBaseAccount {
  Address : string;
  PubKey : option stakingtypes.Any;
  AccountNumber : Z;
  Sequence : Z;
}.

End authtypes.

Module slashingtypes.

(** [slashingtypes.ValidatorSigningInfo] *)
Record ValidatorSigningInfo : Type := mkValidatorSigningInfo {
  Address : string;
  StartHeight : Z;
  IndexOffset : Z;
  JailedUntil : sdk.Time;
  Tombstoned : bool;
  MissedBlocksCounter : Z;
}.

(** [slashingtypes.SigningInfo] *)
Record SigningInfo : Type := mkSigningInfo {
  SigningInfo_Address : string;
  ValidatorSigningInfo_ : ValidatorSigningInfo;
}.

(** [slashingtypes.ValidatorMissedBlocks]; a missed block is an index and
    a flag. *)
Record ValidatorMissedBlocks : Type := mkValidatorMissedBlocks {
  MissedBlocks_Address : string;
  MissedBlocks : list (Z * bool);
}.

(** The Go zero values. *)
Definition zeroSigningInfo : SigningInfo :=
  mkSigningInfo ""
    (mkValidatorSigningInfo "" 0 0 stakingtypes.zeroTime false 0).

Definition zeroValidatorMissedBlocks : ValidatorMissedBlocks :=
  mkValidatorMissedBlocks "" [].

(** [slashingtypes.GenesisState]; the params are not looked into. *)
Record GenesisState : Type := mkGenesisState {
  Params : string;
  SigningInfos : list SigningInfo;
  GenesisMissedBlocks : list ValidatorMissedBlocks;
}.

End slashingtypes.

(** How the consensus address of a staking validator is obtained and
    printed: [Validator.GetConsAddr] and the [BytesToString] of the
    keeper's consensus address codec.  Either may fail. *)
Class ConsAddrCodec : Type := {
  GetConsAddr : stakingtypes.Validator -> result (list Byte.byte);
  ConsBytesToString : list Byte.byte -> result string;
}.

(** The genesis message types the generic setter is instantiated at. *)
Inductive ProtoGenesis : Type :=
| EvmGenesis | Erc20Genesis | GovV1Genesis | FeeMarketGenesis
| DistrGenesis | MintGenesis | CapabilityGenesis.

Global Instance ProtoGenesis_eq_dec : EqDecision ProtoGenesis.
Proof. solve_decision. Defined.

(** A value of type [interface{}] handed in as a custom genesis: nil, a
    pointer to one of the genesis states above, or a value of any other
    type, of which only the name matters. *)
Inductive GoValue : Type :=
| VNil
| VBankGenesis (g : banktypes.GenesisState)
| VAuthGenesis (g : authtypes.GenesisState)
| VProtoGenesis (t : ProtoGenesis) (msg : string)
| VOther (typeName : string).

(** [fmt]'s [%T] verb: the dynamic type, its package by its short name. *)
Definition fmt_T (v : GoValue) : string :=
  match v with
  | VNil => "<nil>"
  | VBankGenesis _ => "*types.GenesisState"
  | VAuthGenesis _ => "*types.GenesisState"
  | VProtoGenesis GovV1Genesis _ => "*v1.GenesisState"
  | VProtoGenesis _ _ => "*types.GenesisState"
  | VOther typeName => typeName
  end.

(** [evmosApp.AppCodec()]: JSON encoding and decoding of genesis states. *)
Class AppCodec : Type := {
  MarshalJSON_proto : ProtoGenesis -> string -> result RawMessage;
  MarshalJSON_bank : banktypes.GenesisState -> result RawMessage;
  UnmarshalJSON_bank : RawMessage -> result banktypes.GenesisState;
  MarshalJSON_auth : authtypes.GenesisState -> result RawMessage;
  UnmarshalJSON_auth : RawMessage -> result authtypes.GenesisState;
}.

(** The [Must...] variants panic where the plain ones return an error. *)
Definition Must {A} (r : result A) : outcome A :=
  match r with
  | Ok a => Returns a
  | Error msg => Panics msg
  end.

Module govtypesv1.

(** [govtypesv1.Params]: the two deposits the harness sets, and the rest
    of the params, which it does not look into. *)
Record Params : Type := mkParams {
  MinDeposit : sdk.Coins;
  ExpeditedMinDeposit : sdk.Coins;
  OtherParams : string;
}.

(** [govtypesv1.GenesisState] of a chain without proposals. *)
Record GenesisState : Type := mkGenesisState {
  StartingProposalId : Z;
  GenesisParams : Params;
}.

End govtypesv1.

Module feemarkettypes.

(** [feemarkettypes.Params]: the base fee, and the rest. *)
Record Params : Type := mkParams {
  BaseFee : sdk.LegacyDec;
  OtherParams : string;
}.

(** [feemarkettypes.GenesisState] *)
Record GenesisState : Type := mkGenesisState {
  GenesisParams : Params;
  BlockGas : Z;
}.

End feemarkettypes.

Module minttypes.

(** [minttypes.Params] *)
Record Params : Type := mkParams {
  MintDenom : string;
  InflationRateChange : sdk.LegacyDec;
  InflationMax : sdk.LegacyDec;
  InflationMin : sdk.LegacyDec;
  GoalBonded : sdk.LegacyDec;
  BlocksPerYear : Z;
}.

(** [minttypes.GenesisState]; the minter is not looked into. *)
Record GenesisState : Type := mkGenesisState {
  Minter : string;
  GenesisParams : Params;
}.

End minttypes.

(** What the application and the SDK supply to the default genesis: the
    default genesis of the application, the default params and genesis
    states of the modules, the packing of accounts, the JSON encoding of
    each genesis state, the configured decimals of the EVM coin, and the
    functions of this repository that adjust the bank and erc20 genesis
    to the chain, which are not among the sources at hand. *)
Class GenesisDefaults : Type := {
  DefaultGenesis : gmap string RawMessage;
  ChainID : string;
  GetEVMCoinDecimals : evmtypes.Decimals;
  auth_DefaultParams : string;
  PackAccounts : list authtypes.BaseAccount -> result (list stakingtypes.Any);
  staking_DefaultParams : stakingtypes.Params;
  bank_DefaultParams : string;
  updateBankGenesisStateForChainID :
    banktypes.GenesisState -> banktypes.GenesisState;
  gov_DefaultGenesisState : govtypesv1.GenesisState;
  feemarket_DefaultGenesisState : feemarkettypes.GenesisState;
  slashing_DefaultGenesisState : slashingtypes.GenesisState;
  mint_DefaultGenesisState : minttypes.GenesisState;
  Erc20GenesisState : Type;
  NewErc20GenesisState : Erc20GenesisState;
  updateErc20GenesisStateForChainID :
    string -> Erc20GenesisState -> Erc20GenesisState;
  MarshalJSON_staking : stakingtypes.GenesisState -> result RawMessage;
  MarshalJSON_gov : govtypesv1.GenesisState -> result RawMessage;
  MarshalJSON_feemarket : feemarkettypes.GenesisState -> result RawMessage;
  MarshalJSON_slashing : slashingtypes.GenesisState -> result RawMessage;
  MarshalJSON_mint : minttypes.GenesisState -> result RawMessage;
  MarshalJSON_erc20 : Erc20GenesisState -> result RawMessage;
}.

(* ===================================================================== *)
(** ** testutil/integration/os/network/setup.go: validators and balances *)
(* ===================================================================== *)

(** The nominal number of tokens every prefunded account receives of
    every denom; see [network.GetInitialAmount]. *)
Class Prefunding : Type := { InitialUnits : Z }.

Module network.
Import sdk.
Abbreviation Balance := banktypes.Balance.

(** Modelled from the spec: [GetInitialAmount], which [createBalances]
    calls, is defined in a file of this package that is not among the
    sources at hand.  The spec says that every denom receives the same
    numeric token count, each denom's amount being scaled by its own
    conversion factor (one unit is 10^12 actual units of a 6-decimal denom
    and 1 actual unit of an 18-decimal denom).  [InitialUnits] is that
    token count. *)
Definition GetInitialAmount `{Prefunding} (decimals : evmtypes.Decimals) : Z :=
  InitialUnits * evmtypes.ConversionFactor decimals.

(** [func getAccAddrsFromBalances(balances []banktypes.Balance) []sdktypes.AccAddress] *)
Definition getAccAddrsFromBalances (balances : list Balance) : list AccAddress :=
  fold_left
    (fun genAccounts balance =>
       genAccounts ++ [AccAddress_of_string (banktypes.Address balance)])
    balances [].

(** The first loop of [createBalances]: [coins[i] = NewCoin(denom, amount)]
    for the [i]-th denom. *)
Fixpoint fillCoins `{Config} `{Prefunding}
    (denomDecimals : gmap string evmtypes.Decimals)
    (i : nat) (denoms : list string) (coins : Coins) : outcome Coins :=
  match denoms with
  | [] => Returns coins
  | denom :: rest =>
      let amount := GetInitialAmount (default 0 (denomDecimals !! denom)) in
      coin ← NewCoin denom amount;
      fillCoins denomDecimals (S i) rest (<[i := coin]> coins)
  end.

(** [maps.Keys] followed by [slices.Sort].  [maps.Keys] lists the keys in
    no particular order; sorting makes the outcome independent of it
    (lemma [sortedKeys_any_order]). *)
Definition sortedKeys {V} (m : gmap string V) : list string :=
  merge_sort String.le (map fst (map_to_list m)).

(** [func createBalances(accounts []sdktypes.AccAddress,
      denomDecimals map[string]evmtypes.Decimals) []banktypes.Balance] *)
Definition createBalances `{Config} `{Prefunding}
    (accounts : list AccAddress)
    (denomDecimals : gmap string evmtypes.Decimals) : outcome (list Balance) :=
  let denoms := sortedKeys denomDecimals in
  coins ← fillCoins denomDecimals 0 denoms
              (replicate (length denoms) (mkCoin "" 0));
  Returns
    (fold_left
       (fun fundedAccountBalances acc =>
          fundedAccountBalances ++ [banktypes.mkBalance (AccAddress_String acc) coins])
       accounts []).

(** [func calculateTotalSupply(fundedAccountsBalances []banktypes.Balance) sdktypes.Coins] *)
Fixpoint sumBalances (balances : list Balance) (totalSupply : Coins)
  : outcome Coins :=
  match balances with
  | [] => Returns totalSupply
  | balance :: rest =>
      totalSupply' ← Add totalSupply (banktypes.Coins balance);
      sumBalances rest totalSupply'
  end.

Definition calculateTotalSupply (fundedAccountsBalances : list Balance)
  : outcome Coins :=
  sumBalances fundedAccountsBalances NewCoins.

(** [func addBondedModuleAccountToFundedBalances(
      fundedAccountsBalances []banktypes.Balance,
      totalBonded sdktypes.Coin) []banktypes.Balance] *)
Definition addBondedModuleAccountToFundedBalances `{Config}
    (fundedAccountsBalances : list Balance) (totalBonded : Coin)
  : list Balance :=
  fundedAccountsBalances ++
    [banktypes.mkBalance
       (AccAddress_String (NewModuleAddress stakingtypes.BondedPoolName))
       [totalBonded]].

(** [func createStakingValidator(val *cmttypes.Validator,
      bondedAmt sdkmath.Int, operatorAddr *sdktypes.AccAddress)
      (stakingtypes.Validator, error)] *)
Definition createStakingValidator `{Config} `{KeyCodec}
    (val : option cmttypes.Validator) (bondedAmt : Z)
    (operatorAddr : option AccAddress)
  : outcome (stakingtypes.Validator * error) :=
  match val with
  | None => Panics nilDereference (* val.PubKey *)
  | Some val =>
      match FromTmPubKeyInterface (cmttypes.PubKey_ val) with
      | Error err => Returns (stakingtypes.zeroValidator, Some err)
      | Ok pk =>
          match NewAnyWithValue pk with
          | Error err => Returns (stakingtypes.zeroValidator, Some err)
          | Ok pkAny =>
              let opAddr := ValAddress_String (cmttypes.Address val) in
              let opAddr :=
                match operatorAddr with
                | Some addr => ValAddress_String addr
                | None => opAddr
                end in
              (* Default to 5% commission *)
              rate ← LegacyNewDecWithPrec 5 2;
              maxRate ← LegacyNewDecWithPrec 2 1;
              maxChangeRate ← LegacyNewDecWithPrec 5 2;
              let commission :=
                stakingtypes.NewCommission rate maxRate maxChangeRate in
              Returns
                ({| stakingtypes.OperatorAddress := opAddr;
                    stakingtypes.ConsensusPubkey := Some pkAny;
                    stakingtypes.Jailed := false;
                    stakingtypes.Status := stakingtypes.Bonded;
                    stakingtypes.Tokens := bondedAmt;
                    stakingtypes.DelegatorShares := LegacyOneDec;
                    stakingtypes.Description_ :=
                      stakingtypes.mkDescription "" "" "" "" "";
                    stakingtypes.UnbondingHeight := 0;
                    stakingtypes.UnbondingTime := time_Unix 0 0;
                    stakingtypes.Commission_ := commission;
                    stakingtypes.MinSelfDelegation := 0 |}, None)
          end
      end
  end.

(** The loop of [createStakingValidatorsWithRandomOperator]. *)
Fixpoint randomOperatorLoop `{Config} `{KeyCodec}
    (tmValidators : list (option cmttypes.Validator)) (bondedAmt : Z)
    (stakingValidators : list stakingtypes.Validator)
  : outcome (list stakingtypes.Validator * error) :=
  match tmValidators with
  | [] => Returns (stakingValidators, None)
  | val :: rest =>
      '(validator, err) ← createStakingValidator val bondedAmt None;
      match err with
      | Some _ => Returns ([], err)
      | None => randomOperatorLoop rest bondedAmt
                  (stakingValidators ++ [validator])
      end
  end.

(** [func createStakingValidatorsWithRandomOperator(
      tmValidators []*cmttypes.Validator, bondedAmt sdkmath.Int)
      ([]stakingtypes.Validator, error)] *)
Definition createStakingValidatorsWithRandomOperator `{Config} `{KeyCodec}
    (tmValidators : list (option cmttypes.Validator)) (bondedAmt : Z)
  : outcome (list stakingtypes.Validator * error) :=
  randomOperatorLoop tmValidators bondedAmt [].

(** The loop of [createStakingValidatorsWithSpecificOperator]; [i] is the
    index of the head of [tmValidators]. *)
Fixpoint specificOperatorLoop `{Config} `{KeyCodec}
    (i : nat) (tmValidators : list (option cmttypes.Validator)) (bondedAmt : Z)
    (operatorsAddresses : list AccAddress)
    (stakingValidators : list stakingtypes.Validator)
  : outcome (list stakingtypes.Validator * error) :=
  match tmValidators with
  | [] => Returns (stakingValidators, None)
  | val :: rest =>
      match operatorsAddresses !! i with
      | None => Panics "runtime error: index out of range"
      | Some addr =>
          '(validator, err) ←
             createStakingValidator val bondedAmt (Some addr);
          match err with
          | Some _ => Returns ([], err)
          | None => specificOperatorLoop (S i) rest bondedAmt
                      operatorsAddresses (stakingValidators ++ [validator])
          end
      end
  end.

(** [func createStakingValidatorsWithSpecificOperator(
      tmValidators []*cmttypes.Validator, bondedAmt sdkmath.Int,
      operatorsAddresses []sdktypes.AccAddress)
      ([]stakingtypes.Validator, error)] *)
Definition createStakingValidatorsWithSpecificOperator `{Config} `{KeyCodec}
    (tmValidators : list (option cmttypes.Validator)) (bondedAmt : Z)
    (operatorsAddresses : list AccAddress)
  : outcome (list stakingtypes.Validator * error) :=
  let amountOfValidators := length tmValidators in
  let operatorsCount := length operatorsAddresses in
  if decide (operatorsCount ≠ amountOfValidators)
  then Panics ("provided " +:+ fmt_d (Z.of_nat operatorsCount) +:+
               " validator operator keys but need " +:+
               fmt_d (Z.of_nat amountOfValidators) +:+ "!")
  else specificOperatorLoop 0 tmValidators bondedAmt operatorsAddresses [].

(** [func createStakingValidators(tmValidators []*cmttypes.Validator,
      bondedAmt sdkmath.Int, operatorsAddresses []sdktypes.AccAddress)
      ([]stakingtypes.Validator, error)] *)
Definition createStakingValidators `{Config} `{KeyCodec}
    (tmValidators : list (option cmttypes.Validator)) (bondedAmt : Z)
    (operatorsAddresses : list AccAddress)
  : outcome (list stakingtypes.Validator * error) :=
  if decide (length operatorsAddresses = 0%nat)
  then createStakingValidatorsWithRandomOperator tmValidators bondedAmt
  else createStakingValidatorsWithSpecificOperator tmValidators bondedAmt
         operatorsAddresses.

(** *** Genesis setters *)

(** [type genSetupFn func(evmosApp, genesisState, customGenesis)
      (evmostypes.GenesisState, error)], run against the heap. *)
Abbreviation genSetupFn :=
  (GenesisState -> GoValue -> Heap -> outcome (GenesisState * error * Heap)).

(** [func genStateSetter[T proto.Message](moduleName string) genSetupFn] *)
Definition genStateSetter `{AppCodec} (T : ProtoGenesis) (moduleName : string)
  : genSetupFn :=
  fun genesisState customGenesis h =>
    match customGenesis with
    | VProtoGenesis t moduleGenesis =>
        if decide (t = T)
        then bz ← Must (MarshalJSON_proto T moduleGenesis);
             h' ← mapAssign h genesisState moduleName bz;
             Returns (genesisState, None, h')
        else Returns (None,
                      Some ("invalid type " +:+ fmt_T customGenesis +:+
                            " for " +:+ moduleName +:+
                            " module genesis state"), h)
    | _ => Returns (None,
                    Some ("invalid type " +:+ fmt_T customGenesis +:+
                          " for " +:+ moduleName +:+
                          " module genesis state"), h)
    end.

(** [func setBankGenesisState(evmosApp, genesisState, customGenesis)] *)
Definition setBankGenesisState `{AppCodec} : genSetupFn :=
  fun genesisState customGenesis h =>
    match customGenesis with
    | VBankGenesis customGen =>
        bankGen ← Must (UnmarshalJSON_bank
                          (mapIndex h genesisState ModuleName.bank));
        '(balances, supply) ←
           (if decide (0 < length (banktypes.Balances customGen))%nat
            then
              let coins :=
                fold_left (fun coins b => coins ++ banktypes.Coins b)
                  (banktypes.Balances customGen) NewCoins in
              supply ← Add (banktypes.Supply bankGen) coins;
              Returns (banktypes.Balances bankGen ++
                         banktypes.Balances customGen, supply)
            else Returns (banktypes.Balances bankGen,
                          banktypes.Supply bankGen));
        let denomMetadata :=
          if decide (0 < length (banktypes.DenomMetadata customGen))%nat
          then banktypes.DenomMetadata bankGen ++
                 banktypes.DenomMetadata customGen
          else banktypes.DenomMetadata bankGen in
        let sendEnabled :=
          if decide (0 < length (banktypes.SendEnabled customGen))%nat
          then banktypes.SendEnabled bankGen ++
                 banktypes.SendEnabled customGen
          else banktypes.SendEnabled bankGen in
        let bankGen' :=
          banktypes.mkGenesisState (banktypes.Params customGen) balances supply
            denomMetadata sendEnabled in
        bz ← Must (MarshalJSON_bank bankGen');
        h' ← mapAssign h genesisState ModuleName.bank bz;
        Returns (genesisState, None, h')
    | _ => Returns (None,
                    Some ("invalid type " +:+ fmt_T customGenesis +:+
                          " for bank module genesis state"), h)
    end.

(** [func setAuthGenesisState(evmosApp, genesisState, customGenesis)] *)
Definition setAuthGenesisState `{AppCodec} : genSetupFn :=
  fun genesisState customGenesis h =>
    match customGenesis with
    | VAuthGenesis customGen =>
        authGen ← Must (UnmarshalJSON_auth
                          (mapIndex h genesisState ModuleName.auth));
        let accounts :=
          if decide (0 < length (authtypes.Accounts customGen))%nat
          then authtypes.Accounts authGen ++ authtypes.Accounts customGen
          else authtypes.Accounts authGen in
        let authGen' :=
          authtypes.mkGenesisState (authtypes.Params customGen) accounts in
        bz ← Must (MarshalJSON_auth authGen');
        h' ← mapAssign h genesisState ModuleName.auth bz;
        Returns (genesisState, None, h')
    | _ => Returns (None,
                    Some ("invalid type " +:+ fmt_T customGenesis +:+
                          " for auth module genesis state"), h)
    end.

(** [var genesisSetupFunctions = map[string]genSetupFn{...}] *)
Definition genesisSetupFunctions `{AppCodec} : gmap string genSetupFn :=
  list_to_map
    [ (ModuleName.evm, genStateSetter EvmGenesis ModuleName.evm);
      (ModuleName.erc20, genStateSetter Erc20Genesis ModuleName.erc20);
      (ModuleName.gov, genStateSetter GovV1Genesis ModuleName.gov);
      (ModuleName.feemarket,
         genStateSetter FeeMarketGenesis ModuleName.feemarket);
      (ModuleName.distribution,
         genStateSetter DistrGenesis ModuleName.distribution);
      (ModuleName.mint, genStateSetter MintGenesis ModuleName.mint);
      (ModuleName.bank, setBankGenesisState);
      (ModuleName.auth, setAuthGenesisState);
      (ModuleName.consensus,
         (* no-op. Consensus does not have a genesis state on the
            application *)
         fun genesisState _ h => Returns (genesisState, None, h));
      (ModuleName.capability,
         genStateSetter CapabilityGenesis ModuleName.capability) ].

(** [network.CustomGenesisState], a [map[string]interface{}]. *)
Abbreviation CustomGenesisState := (gmap string GoValue).

(** [range] over a Go map visits the entries in an order of its own
    choosing: any arrangement of the entries may come up. *)
Definition rangeOrder (customGen : CustomGenesisState)
    (entries : list (string * GoValue)) : Prop :=
  entries ≡ₚ map_to_list customGen.

(** The loop of [customizeGenesis] over the entries as [range] yields
    them. *)
Fixpoint customizeLoop `{AppCodec} (entries : list (string * GoValue))
    (genesisState : GenesisState) (err : error) (h : Heap)
  : outcome (GenesisState * error * Heap) :=
  match entries with
  | [] => Returns (genesisState, err, h)
  | (mod_, modGenState) :: rest =>
      match genesisSetupFunctions !! mod_ with
      | Some fn =>
          '(genesisState', err', h') ← fn genesisState modGenState h;
          match err' with
          | Some _ => Returns (genesisState', err', h')
          | None => customizeLoop rest genesisState' err' h'
          end
      | None =>
          Panics ("module " +:+ mod_ +:+
                  " not found in genesis setup functions")
      end
  end.

(** [func customizeGenesis(evmosApp, customGen CustomGenesisState,
      genesisState evmostypes.GenesisState)
      (evmostypes.GenesisState, error)], for the order in which [range]
    yields the entries of [customGen]. *)
Definition customizeGenesis `{AppCodec} (entries : list (string * GoValue))
    (genesisState : GenesisState) (h : Heap)
  : outcome (GenesisState * error * Heap) :=
  customizeLoop entries genesisState None h.

(** *** Accounts, delegations and slashing records *)

(** [authtypes.NewBaseAccount(address, pubKey, accountNumber, sequence)]
    with a nil public key. *)
Definition NewBaseAccount `{Config} (address : AccAddress)
    (accountNumber sequence : Z) : authtypes.BaseAccount :=
  authtypes.mkBaseAccount (AccAddress_String address) None
    accountNumber sequence.

(** [func createGenesisAccounts(accounts []sdktypes.AccAddress)
      []authtypes.GenesisAccount] *)
Definition createGenesisAccounts `{Config} (accounts : list AccAddress)
  : list authtypes.BaseAccount :=
  fold_left
    (fun genAccounts acc => genAccounts ++ [NewBaseAccount acc 0 0])
    accounts [].

(** [func createDelegations(validators []stakingtypes.Validator,
      fromAccount sdktypes.AccAddress) []stakingtypes.Delegation] *)
Definition createDelegations `{Config}
    (validators : list stakingtypes.Validator) (fromAccount : AccAddress)
  : list stakingtypes.Delegation :=
  fold_left
    (fun delegations val =>
       delegations ++
         [stakingtypes.NewDelegation (AccAddress_String fromAccount)
            (stakingtypes.OperatorAddress val) LegacyOneDec])
    validators [].

(** [network.SlashingCustomGenesisState] *)
Record SlashingCustomGenesisState : Type := mkSlashingCustomGenesisState {
  signingInfo : list slashingtypes.SigningInfo;
  missedBlocks : list slashingtypes.ValidatorMissedBlocks;
}.

(** The loop of [getValidatorsSlashingGen]; [i] is the index of the head
    of [validators]. *)
Fixpoint slashingLoop `{ConsAddrCodec} (i : nat)
    (validators : list stakingtypes.Validator)
    (signInfo : list slashingtypes.SigningInfo)
    (missed : list slashingtypes.ValidatorMissedBlocks)
  : SlashingCustomGenesisState * error :=
  match validators with
  | [] => (mkSlashingCustomGenesisState signInfo missed, None)
  | val :: rest =>
      match GetConsAddr val with
      | Error err => (mkSlashingCustomGenesisState [] [], Some err)
      | Ok consAddrBz =>
          match ConsBytesToString consAddrBz with
          | Error err => (mkSlashingCustomGenesisState [] [], Some err)
          | Ok consAddr =>
              slashingLoop (S i) rest
                (<[i := slashingtypes.mkSigningInfo consAddr
                          (slashingtypes.mkValidatorSigningInfo consAddr 0 0
                             stakingtypes.zeroTime false 0)]> signInfo)
                (<[i := slashingtypes.mkValidatorMissedBlocks consAddr []]>
                   missed)
          end
      end
  end.

(** [func getValidatorsSlashingGen(validators []stakingtypes.Validator,
      sk slashingtypes.StakingKeeper) (SlashingCustomGenesisState, error)] *)
Definition getValidatorsSlashingGen `{ConsAddrCodec}
    (validators : list stakingtypes.Validator)
  : SlashingCustomGenesisState * error :=
  let valCount := length validators in
  slashingLoop 0 validators
    (replicate valCount slashingtypes.zeroSigningInfo)
    (replicate valCount slashingtypes.zeroValidatorMissedBlocks).

(** *** The default genesis *)

(** [network.StakingCustomGenesisState] *)
Record StakingCustomGenesisState : Type := mkStakingCustomGenesisState {
  staking_denom : string;
  validators : list stakingtypes.Validator;
  delegations : list stakingtypes.Delegation;
}.

(** [network.BankCustomGenesisState] *)
Record BankCustomGenesisState : Type := mkBankCustomGenesisState {
  totalSupply : Coins;
  balances : list Balance;
}.

(** [network.GovCustomGenesisState] *)
Record GovCustomGenesisState : Type := mkGovCustomGenesisState {
  gov_denom : string;
}.

(** [network.FeeMarketCustomGenesisState] *)
Record FeeMarketCustomGenesisState : Type := mkFeeMarketCustomGenesisState {
  baseFee : LegacyDec;
}.

(** [network.MintCustomGenesisState] *)
Record MintCustomGenesisState : Type := mkMintCustomGenesisState {
  mint_denom : string;
  inflationMin : LegacyDec;
  inflationMax : LegacyDec;
}.

(** [network.defaultGenesisParams] *)
Record defaultGenesisParams : Type := mkDefaultGenesisParams {
  genAccounts : list authtypes.BaseAccount;
  staking : StakingCustomGenesisState;
  slashing : SlashingCustomGenesisState;
  bank : BankCustomGenesisState;
  gov : GovCustomGenesisState;
  mint : MintCustomGenesisState;
  feemarket : FeeMarketCustomGenesisState;
}.

(** [func setDefaultStakingGenesisState(evmosApp, genesisState,
      overwriteParams StakingCustomGenesisState) evmostypes.GenesisState] *)
Definition setDefaultStakingGenesisState `{GenesisDefaults}
    (genesisState : GenesisState)
    (overwriteParams : StakingCustomGenesisState) (h : Heap)
  : outcome (GenesisState * Heap) :=
  let stakingParams := staking_DefaultParams in
  let stakingParams :=
    stakingtypes.mkParams
      (stakingtypes.UnbondingTimeNs stakingParams)
      (stakingtypes.MaxValidators stakingParams)
      (stakingtypes.MaxEntries stakingParams)
      (stakingtypes.HistoricalEntries stakingParams)
      (staking_denom overwriteParams)
      (stakingtypes.MinCommissionRate stakingParams) in
  let stakingGenesis :=
    stakingtypes.NewGenesisState stakingParams
      (validators overwriteParams) (delegations overwriteParams) in
  bz ← Must (MarshalJSON_staking stakingGenesis);
  h' ← mapAssign h genesisState ModuleName.staking bz;
  Returns (genesisState, h').

(** [func setDefaultBankGenesisState(evmosApp, genesisState,
      overwriteParams BankCustomGenesisState) evmostypes.GenesisState] *)
Definition setDefaultBankGenesisState `{GenesisDefaults} `{AppCodec}
    (genesisState : GenesisState)
    (overwriteParams : BankCustomGenesisState) (h : Heap)
  : outcome (GenesisState * Heap) :=
  let bankGenesis :=
    banktypes.mkGenesisState bank_DefaultParams
      (balances overwriteParams) (totalSupply overwriteParams) [] [] in
  let updatedBankGen := updateBankGenesisStateForChainID bankGenesis in
  bz ← Must (MarshalJSON_bank updatedBankGen);
  h' ← mapAssign h genesisState ModuleName.bank bz;
  Returns (genesisState, h').

(** [func setDefaultSlashingGenesisState(evmosApp, genesisState,
      overwriteParams SlashingCustomGenesisState) evmostypes.GenesisState] *)
Definition setDefaultSlashingGenesisState `{GenesisDefaults}
    (genesisState : GenesisState)
    (overwriteParams : SlashingCustomGenesisState) (h : Heap)
  : outcome (GenesisState * Heap) :=
  let slashingGen := slashing_DefaultGenesisState in
  let slashingGen :=
    slashingtypes.mkGenesisState (slashingtypes.Params slashingGen)
      (signingInfo overwriteParams) (missedBlocks overwriteParams) in
  bz ← Must (MarshalJSON_slashing slashingGen);
  h' ← mapAssign h genesisState ModuleName.slashing bz;
  Returns (genesisState, h').

(** [func setDefaultAuthGenesisState(evmosApp, genesisState,
      genAccs []authtypes.GenesisAccount) evmostypes.GenesisState];
    [authtypes.NewGenesisState] packs the accounts and panics when that
    fails. *)
Definition setDefaultAuthGenesisState `{GenesisDefaults} `{AppCodec}
    (genesisState : GenesisState)
    (genAccs : list authtypes.BaseAccount) (h : Heap)
  : outcome (GenesisState * Heap) :=
  packed ← Must (PackAccounts genAccs);
  let defaultAuthGen := authtypes.mkGenesisState auth_DefaultParams packed in
  bz ← Must (MarshalJSON_auth defaultAuthGen);
  h' ← mapAssign h genesisState ModuleName.auth bz;
  Returns (genesisState, h').

(** [func setDefaultGovGenesisState(evmosApp, genesisState,
      overwriteParams GovCustomGenesisState) evmostypes.GenesisState] *)
Definition setDefaultGovGenesisState `{Config} `{GenesisDefaults}
    (genesisState : GenesisState)
    (overwriteParams : GovCustomGenesisState) (h : Heap)
  : outcome (GenesisState * Heap) :=
  let govGen := gov_DefaultGenesisState in
  let updatedParams := govtypesv1.GenesisParams govGen in
  minDepositAmt ←
    Int_Quo 1000000000000000000 (* sdkmath.NewInt(1e18) *)
      (evmtypes.ConversionFactor GetEVMCoinDecimals);
  coin ← NewCoin (gov_denom overwriteParams) minDepositAmt;
  minDeposit ← NewCoins1 coin;
  coin' ← NewCoin (gov_denom overwriteParams) minDepositAmt;
  expeditedMinDeposit ← NewCoins1 coin';
  let updatedParams :=
    govtypesv1.mkParams minDeposit expeditedMinDeposit
      (govtypesv1.OtherParams updatedParams) in
  let govGen :=
    govtypesv1.mkGenesisState (govtypesv1.StartingProposalId govGen)
      updatedParams in
  bz ← Must (MarshalJSON_gov govGen);
  h' ← mapAssign h genesisState ModuleName.gov bz;
  Returns (genesisState, h').

(** [func setDefaultFeeMarketGenesisState(evmosApp, genesisState,
      overwriteParams FeeMarketCustomGenesisState) evmostypes.GenesisState] *)
Definition setDefaultFeeMarketGenesisState `{GenesisDefaults}
    (genesisState : GenesisState)
    (overwriteParams : FeeMarketCustomGenesisState) (h : Heap)
  : outcome (GenesisState * Heap) :=
  let fmGen := feemarket_DefaultGenesisState in
  let fmGen :=
    feemarkettypes.mkGenesisState
      (feemarkettypes.mkParams (baseFee overwriteParams)
         (feemarkettypes.OtherParams (feemarkettypes.GenesisParams fmGen)))
      (feemarkettypes.BlockGas fmGen) in
  bz ← Must (MarshalJSON_feemarket fmGen);
  h' ← mapAssign h genesisState ModuleName.feemarket bz;
  Returns (genesisState, h').

(** [func setDefaultMintGenesisState(evmosApp, genesisState,
      overwriteParams MintCustomGenesisState) evmostypes.GenesisState] *)
Definition setDefaultMintGenesisState `{GenesisDefaults}
    (genesisState : GenesisState)
    (overwriteParams : MintCustomGenesisState) (h : Heap)
  : outcome (GenesisState * Heap) :=
  let mintGen := mint_DefaultGenesisState in
  let updatedParams := minttypes.GenesisParams mintGen in
  let updatedParams :=
    minttypes.mkParams (mint_denom overwriteParams)
      (minttypes.InflationRateChange updatedParams)
      (inflationMax overwriteParams)
      (inflationMin overwriteParams)
      (minttypes.GoalBonded updatedParams)
      (minttypes.BlocksPerYear updatedParams) in
  let mintGen :=
    minttypes.mkGenesisState (minttypes.Minter mintGen) updatedParams in
  bz ← Must (MarshalJSON_mint mintGen);
  h' ← mapAssign h genesisState ModuleName.mint bz;
  Returns (genesisState, h').

(** [func setDefaultErc20GenesisState(evmosApp, genesisState)
      evmostypes.GenesisState] *)
Definition setDefaultErc20GenesisState `{GenesisDefaults}
    (genesisState : GenesisState) (h : Heap)
  : outcome (GenesisState * Heap) :=
  let erc20Gen := NewErc20GenesisState in
  let updatedErc20Gen := updateErc20GenesisStateForChainID ChainID erc20Gen in
  bz ← Must (MarshalJSON_erc20 updatedErc20Gen);
  h' ← mapAssign h genesisState ModuleName.erc20 bz;
  Returns (genesisState, h').

(** [evmosApp.DefaultGenesis()] makes a new map, at a location not in
    use. *)
Definition newDefaultMap `{GenesisDefaults} (h : Heap) : GenesisState * Heap :=
  let l := fresh (dom h) in (Some l, <[l := DefaultGenesis]> h).

(** [func newDefaultGenesisState(evmosApp, params defaultGenesisParams)
      evmostypes.GenesisState] *)
Definition newDefaultGenesisState `{Config} `{GenesisDefaults} `{AppCodec}
    (params : defaultGenesisParams) (h : Heap)
  : outcome (GenesisState * Heap) :=
  let '(genesisState, h) := newDefaultMap h in
  '(genesisState, h) ←
     setDefaultAuthGenesisState genesisState (genAccounts params) h;
  '(genesisState, h) ←
     setDefaultStakingGenesisState genesisState (staking params) h;
  '(genesisState, h) ←
     setDefaultBankGenesisState genesisState (bank params) h;
  '(genesisState, h) ←
     setDefaultGovGenesisState genesisState (gov params) h;
  '(genesisState, h) ←
     setDefaultFeeMarketGenesisState genesisState (feemarket params) h;
  '(genesisState, h) ←
     setDefaultSlashingGenesisState genesisState (slashing params) h;
  '(genesisState, h) ←
     setDefaultMintGenesisState genesisState (mint params) h;
  setDefaultErc20GenesisState genesisState h.

End network.

(* ===================================================================== *)
(** ** testutil/integration/ibc/coordinator/utils.go *)
(* ===================================================================== *)

(** The process-wide SDK state [generateDummyChains] writes to: the
    bech32 prefixes of [sdk.GetConfig()], its seal, and the switch of the
    address cache. *)
Module sdkglobals.

Record Globals : Type := mkGlobals {
  sealed : bool;
  accountAddrPrefix : string;
  accountPubPrefix : string;
  validatorAddrPrefix : string;
  validatorPubPrefix : string;
  consensusAddrPrefix : string;
  consensusPubPrefix : string;
  addrCacheEnabled : bool;
}.

Definition Bech32PrefixAccAddr : string := "cosmos".
Definition Bech32PrefixAccPub : string := "cosmospub".
Definition Bech32PrefixValAddr : string := "cosmosvaloper".
Definition Bech32PrefixValPub : string := "cosmosvaloperpub".
Definition Bech32PrefixConsAddr : string := "cosmosvalcons".
Definition Bech32PrefixConsPub : string := "cosmosvalconspub".

(** [func (config *Config) assertNotSealed()] *)
Definition assertNotSealed (g : Globals) : outcome unit :=
  if sealed g then Panics "Config is sealed" else Returns tt.

(** [func (config *Config) SetBech32PrefixForAccount(addressPrefix,
      pubKeyPrefix string)] *)
Definition SetBech32PrefixForAccount (addressPrefix pubKeyPrefix : string)
    (g : Globals) : outcome Globals :=
  _ ← assertNotSealed g;
  Returns (mkGlobals (sealed g) addressPrefix pubKeyPrefix
             (validatorAddrPrefix g) (validatorPubPrefix g)
             (consensusAddrPrefix g) (consensusPubPrefix g)
             (addrCacheEnabled g)).

(** [func (config *Config) SetBech32PrefixForValidator(...)] *)
Definition SetBech32PrefixForValidator (addressPrefix pubKeyPrefix : string)
    (g : Globals) : outcome Globals :=
  _ ← assertNotSealed g;
  Returns (mkGlobals (sealed g) (accountAddrPrefix g) (accountPubPrefix g)
             addressPrefix pubKeyPrefix
             (consensusAddrPrefix g) (consensusPubPrefix g)
             (addrCacheEnabled g)).

(** [func (config *Config) SetBech32PrefixForConsensusNode(...)] *)
Definition SetBech32PrefixForConsensusNode (addressPrefix pubKeyPrefix : string)
    (g : Globals) : outcome Globals :=
  _ ← assertNotSealed g;
  Returns (mkGlobals (sealed g) (accountAddrPrefix g) (accountPubPrefix g)
             (validatorAddrPrefix g) (validatorPubPrefix g)
             addressPrefix pubKeyPrefix
             (addrCacheEnabled g)).

(** [func SetAddrCacheEnabled(enabled bool)] *)
Definition SetAddrCacheEnabled (enabled : bool) (g : Globals) : Globals :=
  mkGlobals (sealed g) (accountAddrPrefix g) (accountPubPrefix g)
    (validatorAddrPrefix g) (validatorPubPrefix g)
    (consensusAddrPrefix g) (consensusPubPrefix g) enabled.

End sdkglobals.

(** The testing harness of ibc-go and the networks of this repository, as
    far as [utils.go] uses them.  The coordinator is handed around by
    pointer: a call may change it, so it is threaded through; a call may
    also stop the test, which is a panic here. *)
Class IBCTesting : Type := {
  TestChain : Type;
  Coordinator : Type;
  Network : Type;
  NewTestChain : Coordinator -> string -> outcome (TestChain * Coordinator);
  GetChainID : Network -> string;
  GetIBCChain : Network -> Coordinator -> outcome (TestChain * Coordinator);
}.

Module coordinator.
Import sdkglobals.

(** The maps of type [map[string]*ibctesting.TestChain] alive in the
    program; a map variable is [None] (nil) or a location. *)
Abbreviation ChainMaps := (gmap nat (gmap string TestChain)).
Abbreviation ChainMapRef := (option nat).

(** The entries of the map behind a reference; the nil map has none. *)
Definition chainsOf `{IBCTesting} (h : ChainMaps) (m : ChainMapRef)
  : gmap string TestChain :=
  match m with
  | None => ∅
  | Some l => default ∅ (h !! l)
  end.

(** [m[k] = v] *)
Definition chainAssign `{IBCTesting} (h : ChainMaps) (m : ChainMapRef) (k : string)
    (v : TestChain) : outcome ChainMaps :=
  match m with
  | None => Panics "assignment to entry in nil map"
  | Some l => Returns (<[l := <[k := v]> (default ∅ (h !! l))]> h)
  end.

(** [range] over the map behind [m] may yield its entries in the order
    [entries]. *)
Definition rangeOfMap `{IBCTesting} (h : ChainMaps) (m : ChainMapRef)
    (entries : list (string * TestChain)) : Prop :=
  entries ≡ₚ map_to_list (chainsOf h m).

(** [func getIBCChains(t *testing.T, coord *ibctesting.Coordinator,
      chains []network.Network) map[string]*ibctesting.TestChain]; the
    map is made by the call, so its entries stand for it. *)
Fixpoint getIBCChainsLoop `{IBCTesting} (coord : Coordinator) (chains : list Network)
    (ibcChains : gmap string TestChain)
  : outcome (gmap string TestChain * Coordinator) :=
  match chains with
  | [] => Returns (ibcChains, coord)
  | chain :: rest =>
      '(ibcChain, coord') ← GetIBCChain chain coord;
      getIBCChainsLoop coord' rest (<[GetChainID chain := ibcChain]> ibcChains)
  end.

Definition getIBCChains `{IBCTesting} (coord : Coordinator) (chains : list Network)
  : outcome (gmap string TestChain * Coordinator) :=
  getIBCChainsLoop coord chains ∅.

(** The loop of [generateDummyChains], at index [i] with [fuel] rounds to
    go: it runs for [i = 1, ..., numberOfChains]. *)
Fixpoint dummyLoop `{IBCTesting} (fuel : nat) (i : Z) (coord : Coordinator)
    (ibcChains : gmap string TestChain) (ids : list string)
  : outcome (gmap string TestChain * list string * Coordinator) :=
  match fuel with
  | O => Returns (ibcChains, ids, coord)
  | S fuel' =>
      let chainID := "dummychain-" +:+ fmt_d i (* strconv.Itoa(i) *) in
      let ids' := <[Z.to_nat (i - 1) := chainID]> ids in
      '(chain, coord') ← NewTestChain coord chainID;
      dummyLoop fuel' (i + 1) coord' (<[chainID := chain]> ibcChains) ids'
  end.

(** [func generateDummyChains(t *testing.T, coord *ibctesting.Coordinator,
      numberOfChains int) (map[string]*ibctesting.TestChain, []string)] *)
Definition generateDummyChains `{IBCTesting} (coord : Coordinator) (numberOfChains : Z)
    (g : Globals)
  : outcome (gmap string TestChain * list string * Coordinator * Globals) :=
  if decide (numberOfChains < 0)
  then Panics "runtime error: makeslice: len out of range"
  else
    let ids := replicate (Z.to_nat numberOfChains) "" in
    g ← SetBech32PrefixForAccount Bech32PrefixAccAddr Bech32PrefixAccPub g;
    g ← SetBech32PrefixForValidator Bech32PrefixValAddr Bech32PrefixValPub g;
    g ← SetBech32PrefixForConsensusNode Bech32PrefixConsAddr
          Bech32PrefixConsPub g;
    let g := SetAddrCacheEnabled false g in
    '(ibcChains, ids, coord') ←
       dummyLoop (Z.to_nat numberOfChains) 1 coord ∅ ids;
    Returns (ibcChains, ids, coord', g).

(** [func mergeMaps(m1, m2 map[string]*ibctesting.TestChain)
      map[string]*ibctesting.TestChain], for the order [entries] in which
    [range] yields the entries of [m2]: each is written into [m1], and
    [m1] is returned. *)
Fixpoint mergeLoop `{IBCTesting} (m1 : ChainMapRef) (entries : list (string * TestChain))
    (h : ChainMaps) : outcome ChainMaps :=
  match entries with
  | [] => Returns h
  | (k, v) :: rest =>
      h' ← chainAssign h m1 k v;
      mergeLoop m1 rest h'
  end.

Definition mergeMaps `{IBCTesting} (m1 : ChainMapRef) (entries : list (string * TestChain))
    (h : ChainMaps) : outcome (ChainMapRef * ChainMaps) :=
  h' ← mergeLoop m1 entries h;
  Returns (m1, h').

End coordinator.

(* ===================================================================== *)
(** ** A concrete environment, for running the definitions *)
(* ===================================================================== *)

Module example.
Import sdk.

Definition isLetter (c : ascii) : bool :=
  let n := N_of_ascii c in
  ((65 <=? n) && (n <=? 90) || (97 <=? n) && (n <=? 122))%N.

Definition isDenomChar (c : ascii) : bool :=
  let n := N_of_ascii c in
  (isLetter c || (48 <=? n) && (n <=? 57) ||
   bool_decide (c ∈ list_ascii_of_string "/:._-"))%N.

(** The SDK's default denom pattern, [[a-zA-Z][a-zA-Z0-9/:._-]{2,127}]. *)
Definition defaultValidDenom (denom : string) : bool :=
  match list_ascii_of_string denom with
  | [] => false
  | c :: rest =>
      isLetter c && forallb isDenomChar rest &&
      bool_decide (2 <= length rest <= 127)%nat
  end.

(** The SDK's default prefixes; the hash is a stand-in that keeps the
    first twenty bytes. *)
#[export] Instance config : Config := {|
  Bech32AccountAddrPrefix := "cosmos";
  Bech32ValidatorAddrPrefix := "cosmosvaloper";
  validDenom := defaultValidDenom;
  AddressHash := take 20;
|}.

(** Key conversions that accept the two key types CometBFT ships. *)
#[export] Instance keyCodec : KeyCodec := {|
  SdkPubKey := cmttypes.PubKey;
  FromTmPubKeyInterface pk :=
    if bool_decide (cmttypes.KeyType pk ∈ ["ed25519"; "secp256k1"])
    then Ok pk
    else Error ("key type " +:+ cmttypes.KeyType pk +:+ " is not supported");
  NewAnyWithValue pk :=
    Ok (stakingtypes.mkAny
          ("/cosmos.crypto." +:+ cmttypes.KeyType pk +:+ ".PubKey")
          (cmttypes.KeyBytes pk));
|}.

(** A codec that keeps of a bank or auth genesis its params only. *)
#[export] Instance appCodec : AppCodec := {|
  MarshalJSON_proto _ msg := Ok msg;
  MarshalJSON_bank g := Ok (banktypes.Params g);
  UnmarshalJSON_bank bz := Ok (banktypes.mkGenesisState bz [] [] [] []);
  MarshalJSON_auth g := Ok (authtypes.Params g);
  UnmarshalJSON_auth bz := Ok (authtypes.mkGenesisState bz []);
|}.

#[export] Instance prefunding : Prefunding := {| InitialUnits := 1 |}.

Definition addr1 : AccAddress := repeat Byte.x01 20.
Definition addr2 : AccAddress := repeat Byte.x02 20.

Definition val1 : cmttypes.Validator :=
  cmttypes.mkValidator (repeat Byte.xaa 20)
    (cmttypes.mkPubKey "ed25519" (repeat Byte.x07 32)) 1.

Definition val2 : cmttypes.Validator :=
  cmttypes.mkValidator (repeat Byte.xbb 20)
    (cmttypes.mkPubKey "secp256k1" (repeat Byte.x09 33)) 1.

(** Two denoms of different precision. *)
Definition denoms0 : gmap string evmtypes.Decimals :=
  {[ "uosmo" := 18; "aatom" := 6 ]}.

(** An override of the evm genesis and an ill-typed override of the bank
    genesis. *)
Definition customGen0 : gmap string GoValue :=
  <[ "evm" := VProtoGenesis EvmGenesis "{}" ]> {[ "bank" := VOther "int" ]}.

(** A genesis map holding a bank entry, stored at location 0. *)
Definition heap0 : Heap := {[ 0%nat := {[ "bank" := "{}" ]} ]}.

(** A harness in which a coordinator is its clock, in seconds, and a
    chain is known by its identifier and the time it was made at; making
    a chain commits a block, which takes five seconds. *)
#[export] Instance ibcTesting : IBCTesting := {|
  TestChain := string * Z;
  Coordinator := Z;
  Network := string;
  NewTestChain coord chainID := Returns ((chainID, coord), coord + 5);
  GetChainID n := n;
  GetIBCChain n coord := Returns ((n, coord), coord);
|}.

Definition globals0 : sdkglobals.Globals :=
  sdkglobals.mkGlobals false "evmos" "evmospub" "evmosvaloper"
    "evmosvaloperpub" "evmosvalcons" "evmosvalconspub" true.

(** A validator whose key type the conversions reject. *)
Definition val3 : cmttypes.Validator :=
  cmttypes.mkValidator (repeat Byte.xcc 20)
    (cmttypes.mkPubKey "sr25519" (repeat Byte.x0b 32)) 1.

(** The genesis map after an override of the evm genesis. *)
Definition heap1 : Heap :=
  {[ 0%nat := <[ "evm" := "{}" ]> {[ "bank" := "{}" ]} ]}.

(** The bank and auth genesis the codec reads from [heap0]. *)
Definition bankGen0 : banktypes.GenesisState :=
  banktypes.mkGenesisState "{}" [] [] [] [].

Definition authGen0 : authtypes.GenesisState :=
  authtypes.mkGenesisState "" [].

(** A bank override with one balance, and one whose two balances hold
    the same two denoms. *)
Definition bankOverride1 : banktypes.GenesisState :=
  banktypes.mkGenesisState "p"
    [banktypes.mkBalance "a" [mkCoin "aatom" 5; mkCoin "uosmo" 3]]
    [] [] [].

Definition bankOverride2 : banktypes.GenesisState :=
  banktypes.mkGenesisState "p"
    [banktypes.mkBalance "a" [mkCoin "aatom" 5; mkCoin "uosmo" 3];
     banktypes.mkBalance "b" [mkCoin "aatom" 1; mkCoin "uosmo" 2]]
    [] [] [].

(** An auth override with one account. *)
Definition authOverride1 : authtypes.GenesisState :=
  authtypes.mkGenesisState "p"
    [stakingtypes.mkAny "/cosmos.auth.v1beta1.BaseAccount" []].

(** Overrides of the evm and the gov genesis, and the genesis map after
    both. *)
Definition customGen1 : gmap string GoValue :=
  <[ "evm" := VProtoGenesis EvmGenesis "{}" ]>
    {[ "gov" := VProtoGenesis GovV1Genesis "{g}" ]}.

Definition heap2 : Heap :=
  {[ 0%nat := <[ "gov" := "{g}" ]>
                (<[ "evm" := "{}" ]> {[ "bank" := "{}" ]}) ]}.

(** Consensus addresses: the first twenty bytes of the encoded key,
    printed with the SDK's consensus prefix; a record without a key has
    none. *)
#[export] Instance consAddrCodec : ConsAddrCodec := {|
  GetConsAddr v :=
    match stakingtypes.ConsensusPubkey v with
    | None => Error "empty validator public key"
    | Some pkAny => Ok (take 20 (stakingtypes.Value pkAny))
    end;
  ConsBytesToString bz :=
    Ok (bech32.ConvertAndEncode sdkglobals.Bech32PrefixConsAddr bz);
|}.

(** A staking validator with a key. *)
Definition sval1 : stakingtypes.Validator :=
  stakingtypes.mkValidator "cosmosvaloper1"
    (Some (stakingtypes.mkAny "/cosmos.crypto.ed25519.PubKey"
             (repeat Byte.x07 32)))
    false stakingtypes.Bonded 7 LegacyOneDec
    (stakingtypes.mkDescription "" "" "" "" "")
    0 (time_Unix 0 0)
    (stakingtypes.NewCommission (5 * 10 ^ 16) (2 * 10 ^ 17) (5 * 10 ^ 16))
    0.

Definition consAddr1 : string :=
  bech32.ConvertAndEncode sdkglobals.Bech32PrefixConsAddr
    (repeat Byte.x07 20).

(** Two chain maps: at 0 the chains a and b, at 1 another chain b. *)
Definition chainMaps0 : gmap nat (gmap string (string * Z)) :=
  <[ 0%nat := <[ "a" := ("a", 0) ]> {[ "b" := ("b", 0) ]} ]>
    {[ 1%nat := {[ "b" := ("b2", 5) ]} ]}.

(** An application on a six-decimals chain, with encodings that keep of
    each genesis state a word or two. *)
#[export] Instance genesisDefaults : GenesisDefaults := {|
  DefaultGenesis := <[ "evm" := "{}" ]> {[ "gov" := "{}" ]};
  ChainID := "cosmos_262144-1";
  GetEVMCoinDecimals := evmtypes.SixDecimals;
  auth_DefaultParams := "auth-params";
  PackAccounts accs :=
    Ok (map (fun a =>
               stakingtypes.mkAny "/cosmos.auth.v1beta1.BaseAccount"
                 (list_byte_of_string (authtypes.Address a))) accs);
  staking_DefaultParams :=
    stakingtypes.mkParams 1814400000000000 100 7 10000 "stake" 0;
  bank_DefaultParams := "bank-params";
  updateBankGenesisStateForChainID g := g;
  gov_DefaultGenesisState :=
    govtypesv1.mkGenesisState 1
      (govtypesv1.mkParams [mkCoin "stake" 10000000]
         [mkCoin "stake" 50000000] "gov-params");
  feemarket_DefaultGenesisState :=
    feemarkettypes.mkGenesisState
      (feemarkettypes.mkParams 1000000000 "feemarket-params") 0;
  slashing_DefaultGenesisState :=
    slashingtypes.mkGenesisState "slashing-params" [] [];
  mint_DefaultGenesisState :=
    minttypes.mkGenesisState "minter"
      (minttypes.mkParams "stake" 0 0 0 0 6311520);
  Erc20GenesisState := list string;
  NewErc20GenesisState := ["wevmos"];
  updateErc20GenesisStateForChainID _ g := g;
  MarshalJSON_staking g :=
    Ok ("staking/" +:+ stakingtypes.BondDenom (stakingtypes.GenesisParams g));
  MarshalJSON_gov g :=
    Ok ("gov/" +:+
        String.concat ","
          (map Coin_String
             (govtypesv1.MinDeposit (govtypesv1.GenesisParams g))));
  MarshalJSON_feemarket _ := Ok "feemarket";
  MarshalJSON_slashing _ := Ok "slashing";
  MarshalJSON_mint g :=
    Ok ("mint/" +:+ minttypes.MintDenom (minttypes.GenesisParams g));
  MarshalJSON_erc20 _ := Ok "erc20";
|}.

(** The parameters of a default genesis without accounts or validators. *)
Definition params0 : network.defaultGenesisParams :=
  network.mkDefaultGenesisParams []
    (network.mkStakingCustomGenesisState "aatom" [] [])
    (network.mkSlashingCustomGenesisState [] [])
    (network.mkBankCustomGenesisState [] [])
    (network.mkGovCustomGenesisState "aatom")
    (network.mkMintCustomGenesisState "aatom" 0 0)
    (network.mkFeeMarketCustomGenesisState 0).

(** Balances with sorted coin lists. *)
Definition balances0 : list banktypes.Balance :=
  [banktypes.mkBalance "a" [mkCoin "aatom" 5; mkCoin "uosmo" 3];
   banktypes.mkBalance "b" [mkCoin "uosmo" 2]].

End example.

(* ===================================================================== *)
(** ** Vocabulary of the statements *)
(* ===================================================================== *)

Section Vocabulary.
Import sdk network.
Context `{cfg : Config} `{kc : KeyCodec} `{pf : Prefunding}.

(** The record [createStakingValidator] builds around an operator
    address and an encoded key. *)
Definition defaultValidator (opAddr : string) (pkAny : stakingtypes.Any)
    (bondedAmt : Z) : stakingtypes.Validator :=
  stakingtypes.mkValidator opAddr (Some pkAny) false stakingtypes.Bonded
    bondedAmt LegacyOneDec (stakingtypes.mkDescription "" "" "" "" "")
    0 (time_Unix 0 0)
    (stakingtypes.NewCommission (5 * 10 ^ 16) (2 * 10 ^ 17) (5 * 10 ^ 16))
    0.

(** The consensus key of [val] passes both conversions. *)
Definition keyConverts (val : cmttypes.Validator) : Prop :=
  ∃ pk pkAny, FromTmPubKeyInterface (cmttypes.PubKey_ val) = Ok pk ∧
              NewAnyWithValue pk = Ok pkAny.

(** What [createStakingValidator] answers on [val]. *)
Inductive builtFrom (val : cmttypes.Validator) (bondedAmt : Z)
    (operatorAddr : option AccAddress) : stakingtypes.Validator -> Prop :=
| builtFrom_intro pk pkAny :
    FromTmPubKeyInterface (cmttypes.PubKey_ val) = Ok pk ->
    NewAnyWithValue pk = Ok pkAny ->
    builtFrom val bondedAmt operatorAddr
      (defaultValidator
         (ValAddress_String
            (default (cmttypes.Address val) operatorAddr))
         pkAny bondedAmt).

(** The defaults of a freshly built record. *)
Definition hasDefaults (v : stakingtypes.Validator) : Prop :=
  stakingtypes.Status v = stakingtypes.Bonded ∧
  stakingtypes.UnbondingHeight v = 0 ∧
  stakingtypes.UnbondingTime v = time_Unix 0 0 ∧
  let rates := stakingtypes.Rates (stakingtypes.Commission_ v) in
  Dec_is (stakingtypes.Rate rates) 5 100 ∧
  Dec_is (stakingtypes.MaxRate rates) 20 100 ∧
  Dec_is (stakingtypes.MaxChangeRate rates) 5 100.

(** The sum of the amounts of a coin list. *)
Definition totalAmount (coins : Coins) : Z :=
  foldr (fun c acc => Amount c + acc) 0 coins.

(** The shape [Add] leaves its result in: sorted, one coin per denom,
    no zero amount. *)
Definition canonical (coins : Coins) : Prop :=
  isSorted coins = true ∧ NoDup (map Denom coins) ∧
  Forall (fun c => Amount c ≠ 0) coins.

(** Starting from [start], every partial sum met while the amounts of
    [coins] are added one by one fits an [Int]. *)
Fixpoint partialsFit (start : Z) (coins : Coins) : Prop :=
  match coins with
  | [] => True
  | c :: rest =>
      fitsInt (start + Amount c) ∧ partialsFit (start + Amount c) rest
  end.

(** The coin a group of coins of [denom] adds up to, if not zero. *)
Definition combined (entry : string * Coins) : option Coin :=
  if decide (totalAmount entry.2 = 0) then None
  else Some (mkCoin entry.1 (totalAmount entry.2)).

(** The magnitudes of the amounts of [denom] in a coin list, summed up:
    a bound on every partial sum of these amounts. *)
Definition magnitudeOf (denom : string) (coins : Coins) : Z :=
  foldr (fun c acc =>
           if decide (Denom c = denom) then Z.abs (Amount c) + acc else acc)
    0 coins.

(** The same over all balances. *)
Definition sumMagnitudes (denom : string) (balances : list Balance) : Z :=
  foldr (fun b acc => magnitudeOf denom (banktypes.Coins b) + acc) 0 balances.

(** No denom has amounts that, taken together, leave the range of an
    [Int]. *)
Definition amountsFit (balances : list Balance) : Prop :=
  ∀ denom, sumMagnitudes denom balances < 2 ^ MaxBitLen.

(** The amount of [denom] over all balances: the sum of what each
    account holds. *)
Definition sumAmounts (denom : string) (balances : list Balance) : Z :=
  foldr (fun b acc => amountOf denom (banktypes.Coins b) + acc) 0 balances.

(** Every coin list among the balances is sorted by denom. *)
Definition coinsSorted (balances : list Balance) : Prop :=
  Forall (fun b => isSorted (banktypes.Coins b) = true) balances.

(** The coin [createBalances] makes for [denom]. *)
Definition coinFor (denomDecimals : gmap string evmtypes.Decimals)
    (denom : string) : Coin :=
  mkCoin denom (GetInitialAmount (default 0 (denomDecimals !! denom))).

(** The module names that have a setter. *)
Definition registeredModules : list string :=
  [ModuleName.evm; ModuleName.erc20; ModuleName.gov; ModuleName.feemarket;
   ModuleName.distribution; ModuleName.mint; ModuleName.bank;
   ModuleName.auth; ModuleName.consensus; ModuleName.capability].

End Vocabulary.

Section SlashingVocabulary.
Context `{cc : ConsAddrCodec}.

(** [consAddr] is the printed consensus address of [val]. *)
Definition consAddrOf (val : stakingtypes.Validator) (consAddr : string)
  : Prop :=
  ∃ bz, GetConsAddr val = Ok bz ∧ ConsBytesToString bz = Ok consAddr.

(** Deriving or printing the consensus address of [val] fails with [e]. *)
Definition consAddrFails (val : stakingtypes.Validator) (e : string) : Prop :=
  GetConsAddr val = Error e ∨
  ∃ bz, GetConsAddr val = Ok bz ∧ ConsBytesToString bz = Error e.

(** The two records [getValidatorsSlashingGen] makes for one address. *)
Definition signingInfoFor (consAddr : string) : slashingtypes.SigningInfo :=
  slashingtypes.mkSigningInfo consAddr
    (slashingtypes.mkValidatorSigningInfo consAddr 0 0
       stakingtypes.zeroTime false 0).

Definition missedBlocksFor (consAddr : string)
  : slashingtypes.ValidatorMissedBlocks :=
  slashingtypes.mkValidatorMissedBlocks consAddr [].

End SlashingVocabulary.

(** The identifier of the [i]-th dummy chain. *)
Definition dummyChainID (i : Z) : string := "dummychain-" +:+ fmt_d i.

(** The SDK's own prefixes, with the address cache switched off. *)
Definition cosmosDefaults (sealed : bool) : sdkglobals.Globals :=
  sdkglobals.mkGlobals sealed "cosmos" "cosmospub" "cosmosvaloper"
    "cosmosvaloperpub" "cosmosvalcons" "cosmosvalconspub" false.

Section DefaultsVocabulary.
Import sdk network.
Context `{cfg : Config} `{gd : GenesisDefaults} `{codec : AppCodec}.

(** The genesis states the default setters encode. *)
Definition defaultAuthGenesis (packed : list stakingtypes.Any)
  : authtypes.GenesisState :=
  authtypes.mkGenesisState auth_DefaultParams packed.

Definition defaultStakingGenesis (p : StakingCustomGenesisState)
  : stakingtypes.GenesisState :=
  stakingtypes.mkGenesisState
    (stakingtypes.mkParams
       (stakingtypes.UnbondingTimeNs staking_DefaultParams)
       (stakingtypes.MaxValidators staking_DefaultParams)
       (stakingtypes.MaxEntries staking_DefaultParams)
       (stakingtypes.HistoricalEntries staking_DefaultParams)
       (staking_denom p)
       (stakingtypes.MinCommissionRate staking_DefaultParams))
    (validators p) (delegations p).

Definition defaultBankGenesis (p : BankCustomGenesisState)
  : banktypes.GenesisState :=
  updateBankGenesisStateForChainID
    (banktypes.mkGenesisState bank_DefaultParams (balances p) (totalSupply p)
       [] []).

(** One whole token of the EVM coin, in its own precision. *)
Definition govMinDeposit : Z :=
  Z.quot (10 ^ 18) (evmtypes.ConversionFactor GetEVMCoinDecimals).

Definition defaultGovGenesis (p : GovCustomGenesisState)
  : govtypesv1.GenesisState :=
  govtypesv1.mkGenesisState
    (govtypesv1.StartingProposalId gov_DefaultGenesisState)
    (govtypesv1.mkParams
       [mkCoin (gov_denom p) govMinDeposit]
       [mkCoin (gov_denom p) govMinDeposit]
       (govtypesv1.OtherParams
          (govtypesv1.GenesisParams gov_DefaultGenesisState))).

Definition defaultFeeMarketGenesis (p : FeeMarketCustomGenesisState)
  : feemarkettypes.GenesisState :=
  feemarkettypes.mkGenesisState
    (feemarkettypes.mkParams (baseFee p)
       (feemarkettypes.OtherParams
          (feemarkettypes.GenesisParams feemarket_DefaultGenesisState)))
    (feemarkettypes.BlockGas feemarket_DefaultGenesisState).

Definition defaultSlashingGenesis (p : SlashingCustomGenesisState)
  : slashingtypes.GenesisState :=
  slashingtypes.mkGenesisState
    (slashingtypes.Params slashing_DefaultGenesisState)
    (signingInfo p) (missedBlocks p).

Definition defaultMintGenesis (p : MintCustomGenesisState)
  : minttypes.GenesisState :=
  minttypes.mkGenesisState (minttypes.Minter mint_DefaultGenesisState)
    (minttypes.mkParams (mint_denom p)
       (minttypes.InflationRateChange
          (minttypes.GenesisParams mint_DefaultGenesisState))
       (inflationMax p) (inflationMin p)
       (minttypes.GoalBonded
          (minttypes.GenesisParams mint_DefaultGenesisState))
       (minttypes.BlocksPerYear
          (minttypes.GenesisParams mint_DefaultGenesisState))).

Definition defaultErc20Genesis : Erc20GenesisState :=
  updateErc20GenesisStateForChainID ChainID NewErc20GenesisState.

(** The modules [newDefaultGenesisState] sets. *)
Definition defaultModules : list string :=
  [ModuleName.auth; ModuleName.staking; ModuleName.bank; ModuleName.gov;
   ModuleName.feemarket; ModuleName.slashing; ModuleName.mint;
   ModuleName.erc20].

End DefaultsVocabulary.

Section MoreVocabulary.
Import sdk network.
Context `{cfg : Config} `{kc : KeyCodec} `{pf : Prefunding}.

(** One of the two conversions of the consensus key of [val] fails, with
    the message [e]. *)
Definition keyFails (val : cmttypes.Validator) (e : string) : Prop :=
  FromTmPubKeyInterface (cmttypes.PubKey_ val) = Error e ∨
  ∃ pk, FromTmPubKeyInterface (cmttypes.PubKey_ val) = Ok pk ∧
        NewAnyWithValue pk = Error e.

(** The operator list is one [createStakingValidators] works with: empty,
    or as long as the validator list. *)
Definition operatorsFit (tmValidators : list (option cmttypes.Validator))
    (operatorsAddresses : list AccAddress) : Prop :=
  operatorsAddresses = [] ∨
  length operatorsAddresses = length tmValidators.

(** The loop over [tmValidators] comes to a nil pointer: there is one,
    and the keys of the validators before it convert. *)
Definition nilReached (tmValidators : list (option cmttypes.Validator))
  : Prop :=
  ∃ pre post, tmValidators = map Some pre ++ None :: post
              ∧ Forall keyConverts pre.

(** The module under which the generic setter for [t] is registered. *)
Definition protoModule (t : ProtoGenesis) : string :=
  match t with
  | EvmGenesis => ModuleName.evm
  | Erc20Genesis => ModuleName.erc20
  | GovV1Genesis => ModuleName.gov
  | FeeMarketGenesis => ModuleName.feemarket
  | DistrGenesis => ModuleName.distribution
  | MintGenesis => ModuleName.mint
  | CapabilityGenesis => ModuleName.capability
  end.

(** The override value has the type the setter of [mod_] asserts; the
    consensus setter asserts none. *)
Definition accepts (mod_ : string) (v : GoValue) : Prop :=
  mod_ = ModuleName.consensus ∨
  match v with
  | VBankGenesis _ => mod_ = ModuleName.bank
  | VAuthGenesis _ => mod_ = ModuleName.auth
  | VProtoGenesis t _ => mod_ = protoModule t
  | _ => False
  end.

(** All the coins of a list of balances, balance after balance. *)
Definition allCoins (balances : list Balance) : Coins :=
  concat (map banktypes.Coins balances).

(** The bank genesis a bank override leaves: the custom params, and the
    custom balances, metadata and send-enabled entries after the prior
    ones. *)
Definition bankAfterOverride (bankGen customGen : banktypes.GenesisState)
    (supply : Coins) : banktypes.GenesisState :=
  banktypes.mkGenesisState (banktypes.Params customGen)
    (banktypes.Balances bankGen ++ banktypes.Balances customGen)
    supply
    (banktypes.DenomMetadata bankGen ++ banktypes.DenomMetadata customGen)
    (banktypes.SendEnabled bankGen ++ banktypes.SendEnabled customGen).

(** The auth genesis an auth override leaves. *)
Definition authAfterOverride (authGen customGen : authtypes.GenesisState)
  : authtypes.GenesisState :=
  authtypes.mkGenesisState (authtypes.Params customGen)
    (authtypes.Accounts authGen ++ authtypes.Accounts customGen).

End MoreVocabulary.

(* ===================================================================== *)
(** ** Properties of the decimal registry *)
(* ===================================================================== *)

Section DecimalsFacts.
Import evmtypes.

Lemma Validate_supported d :
  Validate d = None <-> d = SixDecimals \/ d = EighteenDecimals.
Proof.
  unfold Validate. repeat case_decide; split; intros Hd; try done; auto.
  destruct Hd; contradiction.
Qed.

(** C9.  [Validate] returns [nil] exactly on 6 and 18; on every other
    [uint8] it returns the unsupported-decimals error, whose text
    carries the rejected value itself. *)
Theorem Validate_exactly_supported (d : Decimals) :
  is_uint8 d ->
  (Validate d = None <-> d = 6 \/ d = 18) /\
  (d <> 6 -> d <> 18 ->
     Validate d = Some ("received unsupported decimals: " +:+ fmt_d d)).
Proof.
  intros _. split; [apply Validate_supported|].
  intros H6 H18. unfold Validate, SixDecimals, EighteenDecimals.
  by repeat case_decide.
Qed.

Lemma Validate_exactly_supported_witness :
  ((Validate 6 = None <-> 6 = 6 \/ 6 = 18) /\
   (6 <> 6 -> 6 <> 18 ->
      Validate 6 = Some ("received unsupported decimals: " +:+ fmt_d 6)))
  /\ Validate 8 = Some "received unsupported decimals: 8".
Proof.
  split.
  - apply (Validate_exactly_supported 6). unfold is_uint8. lia.
  - apply (proj2 (Validate_exactly_supported 8 ltac:(unfold is_uint8; lia)));
      discriminate.
Defined.

(** C4.  [ConversionFactor] is total (it never reports an error): it is
    1 at 18, 10^12 at 6, and 1 at every other [uint8]. *)
Theorem ConversionFactor_values (d : Decimals) :
  is_uint8 d ->
  ConversionFactor EighteenDecimals = 1 /\
  ConversionFactor SixDecimals = 10 ^ 12 /\
  (d <> 6 -> d <> 18 -> ConversionFactor d = 1 /\ Validate d <> None).
Proof.
  intros _. split; [done|]. split; [done|]. intros H6 H18. split.
  - unfold ConversionFactor, SixDecimals. by case_decide.
  - rewrite Validate_supported.
    unfold SixDecimals, EighteenDecimals. tauto.
Qed.

Lemma ConversionFactor_values_witness :
  ConversionFactor 18 = 1 /\ ConversionFactor 6 = 10 ^ 12 /\
  ConversionFactor 0 = 1 /\ ConversionFactor 255 = 1.
Proof.
  destruct (ConversionFactor_values 0 ltac:(unfold is_uint8; lia))
    as (H18 & H6 & H0).
  destruct (ConversionFactor_values 255 ltac:(unfold is_uint8; lia))
    as (_ & _ & H255).
  split; [exact H18|]. split; [exact H6|]. split.
  - apply H0; discriminate.
  - apply H255; discriminate.
Defined.

End DecimalsFacts.

(* ===================================================================== *)
(** ** Properties of the staking-validator builder *)
(* ===================================================================== *)

Section StakingFacts.
Import sdk network.
Context `{cfg : Config} `{kc : KeyCodec}.

Lemma createStakingValidator_cases
    (val : cmttypes.Validator) bondedAmt operatorAddr :
  (∃ v, createStakingValidator (Some val) bondedAmt operatorAddr
        = Returns (v, None)
        ∧ builtFrom val bondedAmt operatorAddr v) ∨
  (∃ e, createStakingValidator (Some val) bondedAmt operatorAddr
          = Returns (stakingtypes.zeroValidator, Some e)
        ∧ ¬ keyConverts val).
Proof.
  unfold createStakingValidator.
  destruct (FromTmPubKeyInterface (cmttypes.PubKey_ val)) as [pk|e] eqn:Hpk.
  - destruct (NewAnyWithValue pk) as [pkAny|e] eqn:Hany.
    + left.
      exists (defaultValidator
                (ValAddress_String
                   (default (cmttypes.Address val) operatorAddr))
                pkAny bondedAmt).
      split; [by destruct operatorAddr | by econstructor].
    + right. exists e. split; [done|].
      intros (pk' & pkAny' & Hpk' & Hany'). congruence.
  - right. exists e. split; [done|].
    intros (pk' & pkAny' & Hpk' & Hany'). congruence.
Qed.

Lemma createStakingValidator_converts
    (val : cmttypes.Validator) bondedAmt operatorAddr :
  keyConverts val ->
  ∃ v, createStakingValidator (Some val) bondedAmt operatorAddr
       = Returns (v, None)
       ∧ builtFrom val bondedAmt operatorAddr v.
Proof.
  intros Hk.
  destruct (createStakingValidator_cases val bondedAmt operatorAddr)
    as [Hv|(e & _ & Hn)]; [done | contradiction].
Qed.

Lemma randomOperatorLoop_converts
    (vals : list cmttypes.Validator) bondedAmt acc :
  Forall keyConverts vals ->
  ∃ vs, randomOperatorLoop (map Some vals) bondedAmt acc
        = Returns (acc ++ vs, None)
        ∧ Forall2 (fun val v => builtFrom val bondedAmt None v) vals vs.
Proof.
  intros Hall. revert acc.
  induction Hall as [|val vals Hval _ IH]; intros acc;
    cbn [map randomOperatorLoop].
  - exists []. by rewrite app_nil_r.
  - destruct (createStakingValidator_converts val bondedAmt None Hval)
      as (v & -> & Hv). cbn [mbind outcome_bind].
    destruct (IH (acc ++ [v])) as (vs & -> & Hvs).
    exists (v :: vs). rewrite <- app_assoc. split; [done|].
    by constructor.
Qed.

(** Every record the loops hand back was built by
    [createStakingValidator], whichever way the operator was chosen. *)
Lemma randomOperatorLoop_built vals bondedAmt acc vs err :
  randomOperatorLoop vals bondedAmt acc = Returns (vs, err) ->
  Forall (fun v => ∃ val op, builtFrom val bondedAmt op v) acc ->
  Forall (fun v => ∃ val op, builtFrom val bondedAmt op v) vs.
Proof.
  revert acc. induction vals as [|[val|] vals IH]; intros acc;
    cbn [randomOperatorLoop].
  - intros [= <- <-]. done.
  - destruct (createStakingValidator_cases val bondedAmt None)
      as [(v & -> & Hv)|(e & -> & _)]; cbn [mbind outcome_bind].
    + intros Hrun Hacc. apply (IH _ Hrun).
      apply Forall_app. split; [done|]. constructor; eauto.
    + intros [= <- <-]. constructor.
  - done.
Qed.

Lemma specificOperatorLoop_built i vals bondedAmt ops acc vs err :
  specificOperatorLoop i vals bondedAmt ops acc = Returns (vs, err) ->
  Forall (fun v => ∃ val op, builtFrom val bondedAmt op v) acc ->
  Forall (fun v => ∃ val op, builtFrom val bondedAmt op v) vs.
Proof.
  revert i acc. induction vals as [|[val|] vals IH]; intros i acc;
    cbn [specificOperatorLoop].
  - intros [= <- <-]. done.
  - destruct (ops !! i) as [addr|]; [|done].
    destruct (createStakingValidator_cases val bondedAmt (Some addr))
      as [(v & -> & Hv)|(e & -> & _)]; cbn [mbind outcome_bind].
    + intros Hrun Hacc. apply (IH _ _ Hrun).
      apply Forall_app. split; [done|]. constructor; eauto.
    + intros [= <- <-]. constructor.
  - by destruct (ops !! i).
Qed.

Lemma createStakingValidators_built vals bondedAmt ops vs err :
  createStakingValidators vals bondedAmt ops = Returns (vs, err) ->
  Forall (fun v => ∃ val op, builtFrom val bondedAmt op v) vs.
Proof.
  unfold createStakingValidators, createStakingValidatorsWithRandomOperator,
    createStakingValidatorsWithSpecificOperator.
  repeat case_decide; try done.
  - intros Hrun. by eapply randomOperatorLoop_built.
  - intros Hrun. by eapply specificOperatorLoop_built.
Qed.

Lemma builtFrom_hasDefaults val bondedAmt op v :
  builtFrom val bondedAmt op v -> hasDefaults v.
Proof. intros [pk pkAny _ _]. by repeat split. Qed.

(** C6, as the code has it.  With no operator addresses given, and the
    consensus key of every validator passing the SDK's key conversions,
    [createStakingValidators], handed pointers to the validators,
    returns without error one record per consensus validator, in order;
    each is self-operated, [Bonded], with unbonding height 0, unbonding
    time the epoch, and commission 5% / 20% / 5%. *)
Theorem createStakingValidators_default
    (tmValidators : list cmttypes.Validator) (bondedAmt : Z) :
  Forall keyConverts tmValidators ->
  ∃ vs, createStakingValidators (map Some tmValidators) bondedAmt []
        = Returns (vs, None)
        ∧ length vs = length tmValidators
        ∧ Forall2
            (fun val v =>
               stakingtypes.OperatorAddress v
                 = ValAddress_String (cmttypes.Address val)
               ∧ stakingtypes.Tokens v = bondedAmt ∧ hasDefaults v)
            tmValidators vs.
Proof.
  intros Hall.
  destruct (randomOperatorLoop_converts tmValidators bondedAmt [] Hall)
    as (vs & Hrun & Hvs).
  exists vs. split; [exact Hrun|]. split.
  - symmetry. by eapply Forall2_length.
  - eapply Forall2_impl; [exact Hvs|].
    intros val v Hb. split_and!.
    + by destruct Hb.
    + by destruct Hb.
    + eapply builtFrom_hasDefaults, Hb.
Qed.

(** C7.  A non-empty operator list whose length differs from the number
    of consensus validators makes [createStakingValidators] panic, with
    the two counts in the message: nothing is returned, neither records
    nor an error. *)
Theorem createStakingValidators_mismatch_panics
    (tmValidators : list (option cmttypes.Validator)) (bondedAmt : Z)
    (operatorsAddresses : list AccAddress) :
  operatorsAddresses ≠ [] ->
  length operatorsAddresses ≠ length tmValidators ->
  createStakingValidators tmValidators bondedAmt operatorsAddresses
  = Panics ("provided " +:+ fmt_d (Z.of_nat (length operatorsAddresses)) +:+
            " validator operator keys but need " +:+
            fmt_d (Z.of_nat (length tmValidators)) +:+ "!").
Proof.
  intros Hne Hlen.
  unfold createStakingValidators,
    createStakingValidatorsWithSpecificOperator.
  case_decide as Hz.
  - by destruct operatorsAddresses.
  - by case_decide.
Qed.

(** C3, as the code has it.  Every record [createStakingValidators]
    returns, for a non-negative bonded amount, has tokens >= 0, and its
    commission satisfies rate <= max-rate and max-change-rate <= max-rate. *)
Theorem createStakingValidators_commission_bounds
    (tmValidators : list (option cmttypes.Validator)) (bondedAmt : Z)
    (operatorsAddresses : list AccAddress)
    (vs : list stakingtypes.Validator) (err : error) :
  0 <= bondedAmt ->
  createStakingValidators tmValidators bondedAmt operatorsAddresses
    = Returns (vs, err) ->
  Forall
    (fun v =>
       let rates := stakingtypes.Rates (stakingtypes.Commission_ v) in
       0 <= stakingtypes.Tokens v ∧
       Dec_LTE (stakingtypes.Rate rates) (stakingtypes.MaxRate rates) ∧
       Dec_LTE (stakingtypes.MaxChangeRate rates) (stakingtypes.MaxRate rates))
    vs.
Proof.
  intros Hamt Hrun.
  eapply Forall_impl; [by eapply createStakingValidators_built|].
  intros v (val & op & [pk pkAny _ _]). simpl. unfold Dec_LTE. lia.
Qed.

End StakingFacts.

(* ===================================================================== *)
(** ** Properties of coin addition and of the supply computation *)
(* ===================================================================== *)

Section CoinFacts.
Import sdk.

Lemma amountOf_app d (a b : Coins) :
  amountOf d (a ++ b) = amountOf d a + amountOf d b.
Proof.
  induction a as [|c a IH]; simpl; [done|]. case_decide; lia.
Qed.

Global Instance amountOf_Permutation d : Proper ((≡ₚ) ==> (=)) (amountOf d).
Proof.
  intros a b Hp. induction Hp; simpl; repeat case_decide; lia.
Qed.

Lemma amountOf_filter d (coins : Coins) :
  totalAmount (filter (fun c => Denom c = d) coins) = amountOf d coins.
Proof.
  induction coins as [|c coins IH]; [done|].
  rewrite filter_cons. simpl. case_decide; simpl; lia.
Qed.

Lemma totalAmount_app (a b : Coins) : totalAmount (a ++ b) = totalAmount a + totalAmount b.
Proof. induction a; simpl; lia. Qed.

(** *** The [uniqCoins] table *)

Lemma uniqStep_fold_lookup coins (m : gmap string Coins) d :
  default [] (fold_left uniqStep coins m !! d)
  = default [] (m !! d) ++ filter (fun c => Denom c = d) coins.
Proof.
  revert m. induction coins as [|c coins IH]; intros m; simpl.
  - by rewrite app_nil_r.
  - rewrite IH, filter_cons. unfold uniqStep.
    destruct (decide (Denom c = d)) as [->|Hne].
    + rewrite lookup_insert_eq. simpl. by rewrite <- app_assoc.
    + by rewrite lookup_insert_ne.
Qed.

Lemma uniqCoins_lookup coins d :
  default [] (uniqCoins coins !! d) = filter (fun c => Denom c = d) coins.
Proof.
  unfold uniqCoins. by rewrite uniqStep_fold_lookup, lookup_empty.
Qed.

(** *** One coin per denom *)

Global Instance partialsFit_dec start coins : Decision (partialsFit start coins).
Proof.
  revert start. induction coins as [|c coins IH]; intros start; simpl;
    apply _.
Defined.

Lemma sumCoins_fits coins c0 :
  partialsFit (Amount c0) coins ->
  sumCoins coins c0
  = Returns (mkCoin (Denom c0) (Amount c0 + totalAmount coins)).
Proof.
  revert c0. induction coins as [|c coins IH]; intros c0; simpl.
  - intros _. destruct c0; simpl. do 2 f_equal. lia.
  - intros [Hfit Hrest]. unfold Coin_Add, Int_Add.
    rewrite decide_True by done. cbn [mbind outcome_bind].
    rewrite IH by done. cbn [Denom Amount]. do 2 f_equal. lia.
Qed.

Lemma sumCoins_overflow coins c0 :
  ¬ partialsFit (Amount c0) coins ->
  sumCoins coins c0 = Panics ErrIntOverflow.
Proof.
  revert c0. induction coins as [|c coins IH]; intros c0; simpl.
  - intros Hn. by destruct Hn.
  - intros Hn. unfold Coin_Add, Int_Add.
    destruct (decide (fitsInt (Amount c0 + Amount c))) as [Hfit|Hfit];
      [|done].
    cbn [mbind outcome_bind]. apply IH. cbn [Amount]. tauto.
Qed.

Lemma comboCoin_fits denom coins :
  partialsFit 0 coins ->
  comboCoin (denom, coins) = Returns (combined (denom, coins)).
Proof.
  intros Hfit. unfold comboCoin, combined, Coin_IsZero.
  cbn [fst snd]. rewrite sumCoins_fits by done.
  cbn [mbind outcome_bind Denom Amount]. rewrite Z.add_0_l.
  destruct (Z.eqb_spec (totalAmount coins) 0); by case_decide.
Qed.

Lemma comboCoin_overflow denom coins :
  ¬ partialsFit 0 coins ->
  comboCoin (denom, coins) = Panics ErrIntOverflow.
Proof.
  intros Hn. unfold comboCoin. cbn [fst snd].
  by rewrite sumCoins_overflow.
Qed.

Lemma coalesce_fits (entries : list (string * Coins)) :
  Forall (fun entry => partialsFit 0 entry.2) entries ->
  coalesce entries = Returns (omap combined entries).
Proof.
  induction 1 as [|[denom coins] entries Hfit _ IH]; [done|].
  cbn [coalesce]. rewrite comboCoin_fits by done. rewrite IH.
  cbn [mbind outcome_bind]. unfold omap. simpl.
  by destruct (combined (denom, coins)).
Qed.

Lemma coalesce_overflow (entries : list (string * Coins)) :
  ¬ Forall (fun entry => partialsFit 0 entry.2) entries ->
  coalesce entries = Panics ErrIntOverflow.
Proof.
  induction entries as [|[denom coins] entries IH]; intros Hn.
  - destruct Hn. constructor.
  - cbn [coalesce].
    destruct (decide (partialsFit 0 coins)) as [Hfit|Hfit].
    + rewrite comboCoin_fits by done. cbn [mbind outcome_bind].
      rewrite IH; [done|]. intros Hall. apply Hn. by constructor.
    + by rewrite comboCoin_overflow.
Qed.

(** [safeAdd] walks its table in no particular order: whether the walk
    panics, and with what, does not depend on the order, and neither do
    the coins it gathers. *)
Lemma coalesce_any_order (l1 l2 : list (string * Coins)) :
  l1 ≡ₚ l2 ->
  match coalesce l1, coalesce l2 with
  | Returns c1, Returns c2 => c1 ≡ₚ c2
  | Panics msg1, Panics msg2 => msg1 = msg2
  | _, _ => False
  end.
Proof.
  intros Hp.
  destruct (decide (Forall (fun entry => partialsFit 0 entry.2) l1))
    as [Hfit|Hfit].
  - rewrite (coalesce_fits l1) by done.
    rewrite (coalesce_fits l2) by (by rewrite <- Hp).
    unfold omap. by apply omap_Permutation.
  - rewrite (coalesce_overflow l1) by done.
    rewrite (coalesce_overflow l2); [done|]. by rewrite <- Hp.
Qed.

Lemma amountOf_combos d (m : gmap string Coins) :
  amountOf d (omap combined (map_to_list m)) = totalAmount (default [] (m !! d)).
Proof.
  induction m as [|k coins m Hk Hfirst IH] using map_first_key_ind.
  - by rewrite map_to_list_empty.
  - rewrite map_to_list_insert_first_key by done.
    unfold omap in *. simpl.
    unfold combined at 1. cbn [fst snd].
    destruct (decide (k = d)) as [->|Hne].
    + rewrite lookup_insert_eq. rewrite Hk in IH. simpl in *.
      case_decide as Hz; simpl.
      * lia.
      * rewrite decide_True by done. lia.
    + rewrite lookup_insert_ne by done.
      case_decide; simpl; [done|]. by rewrite decide_False.
Qed.

Lemma combos_denoms (m : gmap string Coins) :
  map Denom (omap combined (map_to_list m)) `sublist_of`
    map fst (map_to_list m).
Proof.
  induction (map_to_list m) as [|[k coins] l IH]; simpl; [done|].
  unfold combined at 1. cbn [fst snd]. case_decide; simpl.
  - by apply sublist_cons.
  - by apply sublist_skip.
Qed.

Lemma combos_nonzero (m : gmap string Coins) :
  Forall (fun c => Amount c ≠ 0) (omap combined (map_to_list m)).
Proof.
  induction (map_to_list m) as [|[k coins] l IH]; simpl; [done|].
  unfold combined at 1. cbn [fst snd]. case_decide; simpl; [done|].
  by constructor.
Qed.

(** *** Magnitudes *)

Lemma magnitudeOf_app d (a b : Coins) :
  magnitudeOf d (a ++ b) = magnitudeOf d a + magnitudeOf d b.
Proof.
  induction a as [|c a IH]; simpl; [done|]. case_decide; lia.
Qed.

Lemma magnitudeOf_nonneg d (coins : Coins) : 0 <= magnitudeOf d coins.
Proof. induction coins as [|c coins IH]; simpl; [done|]. case_decide; lia. Qed.

Lemma abs_amountOf_le d (coins : Coins) :
  Z.abs (amountOf d coins) <= magnitudeOf d coins.
Proof.
  induction coins as [|c coins IH]; simpl; [done|]. case_decide; lia.
Qed.

Lemma magnitudeOf_amounts_nonneg d (coins : Coins) :
  Forall (fun c => 0 <= Amount c) coins ->
  magnitudeOf d coins = amountOf d coins.
Proof.
  induction 1 as [|c coins Hc _ IH]; simpl; [done|]. case_decide; lia.
Qed.

Lemma totalMagnitude_filter d (coins : Coins) :
  magnitudeOf d (filter (fun c => Denom c = d) coins) = magnitudeOf d coins.
Proof.
  induction coins as [|c coins IH]; [done|].
  rewrite filter_cons. simpl. case_decide; simpl; [|done].
  rewrite decide_True by done. lia.
Qed.

Lemma partialsFit_bound d start (coins : Coins) :
  Forall (fun c => Denom c = d) coins ->
  Z.abs start + magnitudeOf d coins < 2 ^ MaxBitLen ->
  partialsFit start coins.
Proof.
  intros Hall. revert start.
  induction Hall as [|c coins Hc _ IH]; intros start; simpl; [done|].
  rewrite decide_True by done. intros Hb. split.
  - unfold fitsInt. pose proof (magnitudeOf_nonneg d coins). lia.
  - apply IH. lia.
Qed.

Lemma uniqCoins_fit (coins : Coins) :
  (∀ d, magnitudeOf d coins < 2 ^ MaxBitLen) ->
  Forall (fun entry => partialsFit 0 entry.2) (map_to_list (uniqCoins coins)).
Proof.
  intros Hb. apply Forall_forall. intros [d cs] Hin.
  apply elem_of_map_to_list in Hin. cbn [snd].
  pose proof (uniqCoins_lookup coins d) as Hl. rewrite Hin in Hl.
  cbn [default from_option id] in Hl. subst cs.
  apply (partialsFit_bound d).
  - apply Forall_forall. intros c Hc.
    by apply list_elem_of_filter in Hc as [? _].
  - rewrite totalMagnitude_filter. specialize (Hb d). simpl. lia.
Qed.

(** *** Sortedness, as Go checks it and as a predicate *)

Global Instance Coin_le_trans : Transitive Coin_le.
Proof. intros a b c. unfold Coin_le. apply transitivity. Qed.

Global Instance Coin_le_total : Total Coin_le.
Proof. intros a b. unfold Coin_le. apply total, _. Qed.

Lemma not_ltb_le (s1 s2 : string) :
  negb (String.ltb s2 s1) = true <-> String.le s1 s2.
Proof.
  unfold String.ltb, String.le, String.leb.
  rewrite (String.compare_antisym s1 s2).
  destruct (String.compare s2 s1); simpl; naive_solver.
Qed.

Lemma isSorted_Sorted (coins : Coins) :
  isSorted coins = true <-> Sorted Coin_le coins.
Proof.
  induction coins as [|c [|c' rest] IH].
  - split; [constructor | done].
  - split; [by repeat constructor | done].
  - change (isSorted (c :: c' :: rest))
      with (negb (String.ltb (Denom c') (Denom c)) && isSorted (c' :: rest)).
    rewrite andb_true_iff, not_ltb_le, IH. split.
    + intros [Hle Hs]. constructor; [done|]. by constructor.
    + intros Hs. inversion Hs as [|?? Hs' Hhd]; subst.
      inversion Hhd; subst. done.
Qed.

Lemma isSorted_Sort (coins : Coins) : isSorted (Sort coins) = true.
Proof. apply isSorted_Sorted. apply Sorted_merge_sort, _. Qed.

Lemma NoDup_Denom_inj (l : Coins) (c1 c2 : Coin) :
  NoDup (map Denom l) -> c1 ∈ l -> c2 ∈ l -> Denom c1 = Denom c2 -> c1 = c2.
Proof.
  induction l as [|c l IH]; simpl; intros Hnd H1 H2 Heq.
  - by apply elem_of_nil in H1.
  - apply NoDup_cons in Hnd as [Hc Hnd].
    apply elem_of_cons in H1 as [->|H1]; apply elem_of_cons in H2 as [->|H2].
    + done.
    + destruct Hc. rewrite Heq. apply list_elem_of_In, in_map.
      by apply list_elem_of_In.
    + destruct Hc. rewrite <- Heq. apply list_elem_of_In, in_map.
      by apply list_elem_of_In.
    + by apply IH.
Qed.

(** [safeAdd] walks its table in no particular order before sorting; the
    sorted list does not depend on that order. *)
Lemma Sort_any_order (l1 l2 : Coins) :
  l1 ≡ₚ l2 -> NoDup (map Denom l1) -> Sort l1 = Sort l2.
Proof.
  intros Hp Hnd. unfold Sort. apply (Sorted_unique_strong Coin_le).
  - intros c1 c2 H1 H2 H12 H21.
    rewrite merge_sort_Permutation in H1.
    rewrite merge_sort_Permutation, <- Hp in H2.
    apply (NoDup_Denom_inj l1); [done..|].
    by apply (anti_symm String.le).
  - apply Sorted_merge_sort, _.
  - apply Sorted_merge_sort, _.
  - by rewrite !merge_sort_Permutation.
Qed.

Lemma Add_spec (coins coinsB : Coins) :
  isSorted coins = true -> isSorted coinsB = true ->
  (∀ d, magnitudeOf d (coins ++ coinsB) < 2 ^ MaxBitLen) ->
  ∃ sum, Add coins coinsB = Returns sum ∧ canonical sum ∧
         ∀ d, amountOf d sum = amountOf d coins + amountOf d coinsB.
Proof.
  intros Ha Hb Hfit. unfold Add. rewrite Ha, Hb. simpl.
  rewrite coalesce_fits by (by apply uniqCoins_fit).
  cbn [mbind outcome_bind].
  eexists. split; [done|]. split; [split_and!|].
  - apply isSorted_Sort.
  - unfold Sort. rewrite merge_sort_Permutation.
    eapply sublist_NoDup; [|apply combos_denoms].
    apply NoDup_fst_map_to_list.
  - unfold Sort. rewrite merge_sort_Permutation. apply combos_nonzero.
  - intros d. unfold Sort. rewrite merge_sort_Permutation.
    by rewrite amountOf_combos, uniqCoins_lookup, amountOf_filter,
      amountOf_app.
Qed.

Lemma Add_returns_sorted (coins coinsB sum : Coins) :
  Add coins coinsB = Returns sum ->
  isSorted coins = true ∧ isSorted coinsB = true.
Proof.
  unfold Add. destruct (isSorted coins); [|done].
  by destruct (isSorted coinsB).
Qed.

Lemma absent_denom d (coins : Coins) :
  d ∉ map Denom coins -> amountOf d coins = 0 ∧ magnitudeOf d coins = 0.
Proof.
  induction coins as [|c coins IH]; simpl; [done|].
  rewrite not_elem_of_cons. intros [Hne Hnin].
  rewrite !decide_False by done. by apply IH.
Qed.

Lemma magnitudeOf_NoDup d (coins : Coins) :
  NoDup (map Denom coins) -> magnitudeOf d coins = Z.abs (amountOf d coins).
Proof.
  induction coins as [|c coins IH]; simpl; [done|].
  rewrite NoDup_cons. intros [Hnin Hnd]. case_decide as Hd.
  - rewrite Hd in Hnin. destruct (absent_denom d coins Hnin) as [-> ->]. lia.
  - by apply IH.
Qed.

End CoinFacts.

Section SupplyFacts.
Import sdk network.
Context `{cfg : Config}.

Lemma sumAmounts_app denom (l1 l2 : list Balance) :
  sumAmounts denom (l1 ++ l2) = sumAmounts denom l1 + sumAmounts denom l2.
Proof. induction l1; simpl; lia. Qed.

Lemma sumMagnitudes_app denom (l1 l2 : list Balance) :
  sumMagnitudes denom (l1 ++ l2)
  = sumMagnitudes denom l1 + sumMagnitudes denom l2.
Proof. induction l1; simpl; lia. Qed.

Lemma sumMagnitudes_nonneg denom (balances : list Balance) :
  0 <= sumMagnitudes denom balances.
Proof.
  induction balances as [|b balances IH]; simpl; [done|].
  pose proof (magnitudeOf_nonneg denom (banktypes.Coins b)). lia.
Qed.

(** One step of the supply loop within the range of an [Int]. *)
Lemma Add_step (acc coins : Coins) (bound : string -> Z) :
  isSorted acc = true -> isSorted coins = true ->
  (∀ d, magnitudeOf d acc + magnitudeOf d coins + bound d < 2 ^ MaxBitLen) ->
  (∀ d, 0 <= bound d) ->
  ∃ acc', Add acc coins = Returns acc' ∧ canonical acc'
          ∧ (∀ d, amountOf d acc' = amountOf d acc + amountOf d coins)
          ∧ ∀ d, magnitudeOf d acc' + bound d < 2 ^ MaxBitLen.
Proof.
  intros Hacc Hcoins Hfit Hpos.
  destruct (Add_spec acc coins Hacc Hcoins) as (acc' & Hrun & Hcan & Hamt).
  { intros d. rewrite magnitudeOf_app. specialize (Hfit d).
    specialize (Hpos d). lia. }
  exists acc'. split_and!; [done..|]. intros d.
  rewrite (magnitudeOf_NoDup d acc') by apply Hcan. rewrite Hamt.
  pose proof (abs_amountOf_le d acc). pose proof (abs_amountOf_le d coins).
  specialize (Hfit d). lia.
Qed.

Lemma sumBalances_spec (balances : list Balance) (acc : Coins) :
  isSorted acc = true -> coinsSorted balances ->
  (∀ d, magnitudeOf d acc + sumMagnitudes d balances < 2 ^ MaxBitLen) ->
  ∃ supply, sumBalances balances acc = Returns supply
            ∧ isSorted supply = true
            ∧ (balances ≠ [] -> canonical supply)
            ∧ ∀ denom, amountOf denom supply
                       = amountOf denom acc + sumAmounts denom balances.
Proof.
  intros Hacc Hall. revert acc Hacc.
  induction Hall as [|b balances Hb _ IH]; intros acc Hacc Hfit; simpl.
  - exists acc. split_and!; [done..|]. intros. lia.
  - destruct (Add_step acc (banktypes.Coins b)
                (fun d => sumMagnitudes d balances) Hacc Hb)
      as (acc' & -> & Hcan & Hamt & Hfit').
    { intros d. specialize (Hfit d). simpl in Hfit. lia. }
    { intros d. apply sumMagnitudes_nonneg. }
    simpl.
    destruct (IH acc' (proj1 Hcan) Hfit') as (supply & Hrun & Hs & Hc & Hsum).
    exists supply. split_and!; [done..| |].
    + intros _. destruct balances as [|b' balances'].
      * simpl in Hrun. by injection Hrun as <-.
      * by apply Hc.
    + intros denom. rewrite Hsum, Hamt. lia.
Qed.

(** C1, as the code has it.  Over balances whose coin lists are sorted
    by denom (what [Coins.Add] demands of its operands) and whose
    amounts, with the bonded amount, stay within the range of an [Int]
    denom by denom, the supply computed after the bonded-pool balance has
    been appended is returned, is in canonical form, and holds of every
    denom exactly the sum of the account balances plus, for the bond
    denom, the bonded amount. *)
Theorem totalSupply_with_bonded_pool
    (fundedAccountsBalances : list Balance) (totalBonded : Coin) :
  coinsSorted fundedAccountsBalances ->
  amountsFit
    (addBondedModuleAccountToFundedBalances fundedAccountsBalances
       totalBonded) ->
  ∃ supply,
    calculateTotalSupply
      (addBondedModuleAccountToFundedBalances fundedAccountsBalances
         totalBonded) = Returns supply
    ∧ canonical supply
    ∧ ∀ denom,
        amountOf denom supply
        = sumAmounts denom fundedAccountsBalances
          + (if decide (Denom totalBonded = denom)
             then Amount totalBonded else 0).
Proof.
  intros Hall Hfit.
  unfold calculateTotalSupply, addBondedModuleAccountToFundedBalances in *.
  edestruct (sumBalances_spec
               (fundedAccountsBalances ++
                  [banktypes.mkBalance
                     (AccAddress_String
                        (NewModuleAddress stakingtypes.BondedPoolName))
                     [totalBonded]]) NewCoins)
    as (supply & Hrun & _ & Hcan & Hsum); [done| | |].
  - apply Forall_app. split; [done|]. by constructor.
  - intros d. specialize (Hfit d). simpl. lia.
  - exists supply. split; [exact Hrun|]. split.
    + apply Hcan. by destruct fundedAccountsBalances.
    + intros denom. rewrite Hsum, sumAmounts_app. simpl.
      case_decide; lia.
Qed.

End SupplyFacts.

(* ===================================================================== *)
(** ** Properties of the balance builder *)
(* ===================================================================== *)

Section BalanceFacts.
Import sdk network.
Context `{cfg : Config} `{pf : Prefunding}.

Lemma fold_left_snoc {A B} (f : A -> B) (l : list A) (acc : list B) :
  fold_left (fun acc x => acc ++ [f x]) l acc = acc ++ map f l.
Proof.
  revert acc. induction l as [|x l IH]; intros acc; simpl.
  - by rewrite app_nil_r.
  - by rewrite IH, <- app_assoc.
Qed.

Lemma getAccAddrsFromBalances_map (balances : list Balance) :
  getAccAddrsFromBalances balances
  = map (fun b => AccAddress_of_string (banktypes.Address b)) balances.
Proof. unfold getAccAddrsFromBalances. by rewrite fold_left_snoc. Qed.

(** *** The sorted keys of a map *)

Lemma sortedKeys_Sorted {V} (m : gmap string V) :
  Sorted String.le (sortedKeys m).
Proof. apply Sorted_merge_sort, _. Qed.

Lemma sortedKeys_NoDup {V} (m : gmap string V) : NoDup (sortedKeys m).
Proof.
  unfold sortedKeys. rewrite merge_sort_Permutation.
  apply NoDup_fst_map_to_list.
Qed.

Lemma elem_of_sortedKeys {V} (m : gmap string V) (k : string) :
  k ∈ sortedKeys m <-> is_Some (m !! k).
Proof.
  unfold sortedKeys. rewrite merge_sort_Permutation.
  change (map fst (map_to_list m)) with ((map_to_list m).*1).
  rewrite list_elem_of_fmap. split.
  - intros ([k' v] & -> & Hin). apply elem_of_map_to_list in Hin. eauto.
  - intros [v Hv]. exists (k, v). split; [done|].
    by apply elem_of_map_to_list.
Qed.

(** Whatever order the keys are listed in, sorting yields the same list. *)
Lemma sortedKeys_any_order {V} (m : gmap string V) (keys : list string) :
  keys ≡ₚ map fst (map_to_list m) ->
  merge_sort String.le keys = sortedKeys m.
Proof.
  intros Hp. apply (Sorted_unique String.le).
  - apply Sorted_merge_sort, _.
  - apply sortedKeys_Sorted.
  - unfold sortedKeys. by rewrite !merge_sort_Permutation.
Qed.

(** *** Filling the coin slice *)

Lemma ConversionFactor_pos d : 0 < evmtypes.ConversionFactor d.
Proof. unfold evmtypes.ConversionFactor. case_decide; lia. Qed.

Lemma NewCoin_initial denomDecimals denom :
  validDenom denom = true -> 0 <= InitialUnits ->
  NewCoin denom (GetInitialAmount (default 0 (denomDecimals !! denom)))
  = Returns (coinFor denomDecimals denom).
Proof.
  intros Hv Hu. unfold NewCoin. rewrite Hv. simpl.
  rewrite decide_False; [done|].
  unfold GetInitialAmount.
  pose proof (ConversionFactor_pos (default 0 (denomDecimals !! denom))).
  nia.
Qed.

Lemma fillCoins_spec denomDecimals denoms (filled rest : Coins) :
  length rest = length denoms ->
  Forall (fun denom => validDenom denom = true) denoms ->
  0 <= InitialUnits ->
  fillCoins denomDecimals (length filled) denoms (filled ++ rest)
  = Returns (filled ++ map (coinFor denomDecimals) denoms).
Proof.
  intros Hlen Hall Hu. revert filled rest Hlen.
  induction Hall as [|denom denoms Hv _ IH]; intros filled rest Hlen.
  - destruct rest; [done | discriminate].
  - destruct rest as [|z rest]; [discriminate|]. simpl in Hlen.
    cbn [fillCoins]. rewrite NewCoin_initial by done. simpl.
    rewrite insert_app_r_alt, Nat.sub_diag by done. simpl.
    replace (S (length filled)) with (length (filled ++ [coinFor denomDecimals denom]))
      by (rewrite length_app; simpl; lia).
    rewrite (cons_middle _ filled rest), app_assoc.
    rewrite IH by lia. by rewrite <- app_assoc.
Qed.

(** Whenever [createBalances] returns, every account got the same coin
    list, under its printed address. *)
Lemma createBalances_shape accounts denomDecimals balances :
  createBalances accounts denomDecimals = Returns balances ->
  ∃ coins, balances
           = map (fun acc => banktypes.mkBalance (AccAddress_String acc) coins)
               accounts.
Proof.
  unfold createBalances.
  destruct (fillCoins _ _ _ _) as [coins|msg]; simpl; [|done].
  intros [= <-]. exists coins. by rewrite fold_left_snoc.
Qed.

(** C5.  When every denom of the mapping is a valid denom (and the
    token count is not negative), [createBalances] returns one balance
    per account, all carrying one coin list; that list is sorted by
    denom, has no denom twice, has a coin for exactly the denoms of the
    mapping, and each coin's amount is the token count times the
    conversion factor of its own denom. *)
Theorem createBalances_coin_lists
    (accounts : list AccAddress)
    (denomDecimals : gmap string evmtypes.Decimals) :
  (∀ denom, is_Some (denomDecimals !! denom) -> validDenom denom = true) ->
  0 <= InitialUnits ->
  ∃ coins,
    createBalances accounts denomDecimals
    = Returns (map (fun acc =>
                      banktypes.mkBalance (AccAddress_String acc) coins)
                 accounts)
    ∧ Sorted String.le (map Denom coins)
    ∧ NoDup (map Denom coins)
    ∧ (∀ denom, denom ∈ map Denom coins <-> is_Some (denomDecimals !! denom))
    ∧ (∀ c, c ∈ coins ->
         ∃ d, denomDecimals !! Denom c = Some d
              ∧ Amount c = InitialUnits * evmtypes.ConversionFactor d).
Proof.
  intros Hvalid Hu.
  exists (map (coinFor denomDecimals) (sortedKeys denomDecimals)).
  assert (map Denom (map (coinFor denomDecimals) (sortedKeys denomDecimals))
          = sortedKeys denomDecimals) as Hdenoms.
  { rewrite map_map. simpl. apply map_id. }
  rewrite Hdenoms. split_and!.
  - unfold createBalances.
    pose proof (fillCoins_spec denomDecimals (sortedKeys denomDecimals) []
                  (replicate (length (sortedKeys denomDecimals))
                     (mkCoin "" 0))) as Hfill.
    simpl in Hfill. rewrite Hfill.
    + simpl. by rewrite fold_left_snoc.
    + apply length_replicate.
    + apply Forall_forall. intros denom Hin.
      apply Hvalid. by apply elem_of_sortedKeys.
    + done.
  - apply sortedKeys_Sorted.
  - apply sortedKeys_NoDup.
  - intros denom. apply elem_of_sortedKeys.
  - intros c Hin.
    apply list_elem_of_In in Hin. apply in_map_iff in Hin.
    destruct Hin as (denom & <- & Hin).
    apply list_elem_of_In in Hin. apply elem_of_sortedKeys in Hin.
    destruct Hin as [d Hd].
    exists d. unfold coinFor, GetInitialAmount. cbn [Denom Amount].
    rewrite Hd. split; reflexivity.
Qed.

End BalanceFacts.

(* ===================================================================== *)
(** ** Printed addresses are longer than the addresses they print *)
(* ===================================================================== *)

Section Bech32Facts.
Import bech32.

Lemma drain_spec fuel acc bits out :
  (bits <= fuel)%nat ->
  (5 * length (drain fuel acc bits out).2 + (drain fuel acc bits out).1
   = 5 * length out + bits)%nat
  ∧ ((drain fuel acc bits out).1 < 5)%nat.
Proof.
  revert bits out. induction fuel as [|fuel IH]; intros bits out Hle; simpl.
  - lia.
  - case_decide as H5; simpl; [|lia].
    destruct (IH (bits - 5)%nat
                (out ++ [Z.land (Z.shiftr acc (Z.of_nat (bits - 5))) 31]))
      as [Hlen Hlt]; [lia|].
    rewrite length_app in Hlen. simpl in Hlen. lia.
Qed.

Lemma convert_loop_spec data acc bits out :
  (bits < 5)%nat ->
  (5 * length (convert_loop data acc bits out).2
   + (convert_loop data acc bits out).1.2
   = 5 * length out + bits + 8 * length data)%nat
  ∧ ((convert_loop data acc bits out).1.2 < 5)%nat.
Proof.
  revert acc bits out.
  induction data as [|v data IH]; intros acc bits out Hlt; simpl.
  - lia.
  - set (acc' := Z.land _ 4095).
    pose proof (drain_spec (bits + 8) acc' (bits + 8) out (le_n _))
      as [Hlen Hb].
    destruct (drain (bits + 8) acc' (bits + 8) out) as [bits' out'].
    simpl in Hlen, Hb.
    destruct (IH acc' bits' out' Hb) as [Hlen' Hb']. lia.
Qed.

Lemma length_ConvertBits data :
  (length data <= length (ConvertBits data))%nat.
Proof.
  unfold ConvertBits.
  pose proof (convert_loop_spec data 0 0%nat [] ltac:(lia)) as [Hlen Hb].
  destruct (convert_loop data 0 0%nat []) as [[acc bits] out].
  simpl in Hlen, Hb. case_decide.
  - rewrite length_app. simpl. lia.
  - lia.
Qed.

Lemma append_cons a (s1 s2 : string) :
  String a s1 +:+ s2 = String a (s1 +:+ s2).
Proof. reflexivity. Qed.

Lemma length_string_app (s1 s2 : string) :
  String.length (s1 +:+ s2) = (String.length s1 + String.length s2)%nat.
Proof.
  induction s1 as [|a s1 IH]; [done|].
  rewrite append_cons. simpl. by rewrite IH.
Qed.

Lemma length_string_of_list_ascii (l : list ascii) :
  String.length (string_of_list_ascii l) = length l.
Proof. induction l as [|a l IH]; simpl; [done|]. by rewrite IH. Qed.

Lemma length_list_byte_of_string (s : string) :
  length (list_byte_of_string s) = String.length s.
Proof.
  unfold list_byte_of_string. rewrite length_map.
  induction s as [|a s IH]; simpl; [done|]. by rewrite IH.
Qed.

Lemma length_ConvertAndEncode hrp data :
  (length data < String.length (ConvertAndEncode hrp data))%nat.
Proof.
  unfold ConvertAndEncode, Encode.
  rewrite !length_string_app, length_string_of_list_ascii, length_map,
    length_app.
  pose proof (length_ConvertBits data). simpl. lia.
Qed.

End Bech32Facts.

Section RoundTripFacts.
Import sdk network.
Context `{cfg : Config} `{pf : Prefunding}.

(** A non-empty address never equals the bytes of its printed form. *)
Lemma AccAddress_String_bytes_differ (aa : AccAddress) :
  aa ≠ [] -> AccAddress_of_string (AccAddress_String aa) ≠ aa.
Proof.
  intros Hne Heq. apply (f_equal length) in Heq.
  unfold AccAddress_of_string in Heq.
  rewrite length_list_byte_of_string in Heq.
  destruct aa as [|b aa]; [done|]. unfold AccAddress_String in Heq.
  pose proof (length_ConvertAndEncode Bech32AccountAddrPrefix (b :: aa)).
  lia.
Qed.

(** C10, as the code has it.  [getAccAddrsFromBalances] turns each
    balance's address string into its bytes.  Applied to the balances
    [createBalances] made for [accounts], it therefore returns the bytes
    of each printed address; every non-empty address comes back changed,
    so as soon as one of the accounts has a non-empty address the result
    is not [accounts]. *)
Theorem getAccAddrs_of_createBalances
    (accounts : list AccAddress)
    (denomDecimals : gmap string evmtypes.Decimals)
    (balances : list Balance) :
  createBalances accounts denomDecimals = Returns balances ->
  Exists (fun aa => aa ≠ []) accounts ->
  (∀ bs : list Balance,
     getAccAddrsFromBalances bs
     = map (fun b => list_byte_of_string (banktypes.Address b)) bs)
  ∧ getAccAddrsFromBalances balances
    = map (fun aa => list_byte_of_string (AccAddress_String aa)) accounts
  ∧ Forall2 (fun aa back => aa ≠ [] -> back ≠ aa)
      accounts (getAccAddrsFromBalances balances)
  ∧ getAccAddrsFromBalances balances ≠ accounts.
Proof.
  intros Hrun Hex.
  apply createBalances_shape in Hrun as [coins ->].
  assert (getAccAddrsFromBalances
            (map (fun acc => banktypes.mkBalance (AccAddress_String acc) coins)
               accounts)
          = map (fun aa => list_byte_of_string (AccAddress_String aa)) accounts)
    as Hback.
  { rewrite getAccAddrsFromBalances_map, map_map. done. }
  split_and!.
  - intros bs. apply getAccAddrsFromBalances_map.
  - exact Hback.
  - rewrite Hback. clear. induction accounts as [|aa accounts IH]; simpl.
    + constructor.
    + constructor; [|exact IH].
      apply AccAddress_String_bytes_differ.
  - rewrite Hback. clear -Hex. intros Heq.
    induction Hex as [aa accounts Hne|aa accounts _ IH];
      simpl in Heq; injection Heq as Hhd Htl.
    + by apply (AccAddress_String_bytes_differ aa).
    + by apply IH.
Qed.

End RoundTripFacts.

(* ===================================================================== *)
(** ** Properties of override application *)
(* ===================================================================== *)

Section GenesisFacts.
Import sdk network.
Context `{codec : AppCodec}.

Lemma genesisSetupFunctions_registered (mod_ : string) :
  is_Some (genesisSetupFunctions !! mod_) <-> mod_ ∈ registeredModules.
Proof.
  unfold genesisSetupFunctions, registeredModules.
  rewrite <- elem_of_dom, dom_list_to_map_L, elem_of_list_to_set. simpl.
  done.
Qed.

Lemma mapAssign_frame h m k v h' k' :
  mapAssign h m k v = Returns h' -> k' ≠ k ->
  mapLookup h' m k' = mapLookup h m k'.
Proof.
  unfold mapAssign, mapLookup. destruct m as [l|]; [|done].
  intros [= <-] Hne. rewrite lookup_insert_eq.
  cbn [default from_option id]. by rewrite lookup_insert_ne.
Qed.

(** A setter that succeeds hands back the map it was given, and has
    written to no entry but its own module's. *)
Lemma genStateSetter_frame T moduleName gs v h gs' h' k :
  genStateSetter T moduleName gs v h = Returns (gs', None, h') ->
  k ≠ moduleName ->
  gs' = gs ∧ mapLookup h' gs k = mapLookup h gs k.
Proof.
  unfold genStateSetter. destruct v as [| | |t msg|]; try done.
  case_decide; [|done].
  destruct (MarshalJSON_proto T msg) as [bz|]; simpl; [|done].
  destruct (mapAssign h gs moduleName bz) as [h2|] eqn:Hassign; simpl;
    [|done].
  intros [= <- <-] Hne. split; [done|]. by eapply mapAssign_frame.
Qed.

Lemma setBankGenesisState_frame gs v h gs' h' k :
  setBankGenesisState gs v h = Returns (gs', None, h') ->
  k ≠ ModuleName.bank ->
  gs' = gs ∧ mapLookup h' gs k = mapLookup h gs k.
Proof.
  unfold setBankGenesisState. destruct v as [|customGen| | |]; try done.
  destruct (UnmarshalJSON_bank _) as [bankGen|]; simpl; [|done].
  match goal with
  | |- context [mbind _ ?m] => destruct m as [[balances supply]|]
  end; simpl; [|done].
  destruct (MarshalJSON_bank _) as [bz|]; simpl; [|done].
  destruct (mapAssign h gs ModuleName.bank bz) as [h2|] eqn:Hassign; simpl;
    [|done].
  intros [= <- <-] Hne. split; [done|]. by eapply mapAssign_frame.
Qed.

Lemma setAuthGenesisState_frame gs v h gs' h' k :
  setAuthGenesisState gs v h = Returns (gs', None, h') ->
  k ≠ ModuleName.auth ->
  gs' = gs ∧ mapLookup h' gs k = mapLookup h gs k.
Proof.
  unfold setAuthGenesisState. destruct v as [| |customGen| |]; try done.
  destruct (UnmarshalJSON_auth _) as [authGen|]; simpl; [|done].
  destruct (MarshalJSON_auth _) as [bz|]; simpl; [|done].
  destruct (mapAssign h gs ModuleName.auth bz) as [h2|] eqn:Hassign; simpl;
    [|done].
  intros [= <- <-] Hne. split; [done|]. by eapply mapAssign_frame.
Qed.

Lemma setter_frame mod_ fn gs v h gs' h' k :
  genesisSetupFunctions !! mod_ = Some fn ->
  fn gs v h = Returns (gs', None, h') ->
  k ≠ mod_ ->
  gs' = gs ∧ mapLookup h' gs k = mapLookup h gs k.
Proof.
  intros Hfn. apply elem_of_list_to_map_2 in Hfn.
  repeat (apply elem_of_cons in Hfn as [[= -> ->]|Hfn]).
  all: try (by apply elem_of_nil in Hfn).
  all: try (by eauto using genStateSetter_frame, setBankGenesisState_frame,
              setAuthGenesisState_frame).
  by intros [= <- <-].
Qed.

Lemma customizeLoop_app pre rest gs err h gs1 h1 :
  customizeLoop pre gs err h = Returns (gs1, None, h1) ->
  customizeLoop (pre ++ rest) gs err h = customizeLoop rest gs1 None h1.
Proof.
  revert gs err h. induction pre as [|[mod_ v] pre IH]; intros gs err h; simpl.
  - by intros [= -> -> ->].
  - destruct (genesisSetupFunctions !! mod_) as [fn|]; [|done].
    destruct (fn gs v h) as [[[gs2 [e|]] h2]|]; simpl; [done| |done].
    apply IH.
Qed.

Lemma customizeLoop_frame pre gs err h gs1 h1 k :
  customizeLoop pre gs err h = Returns (gs1, None, h1) ->
  k ∉ pre.*1 ->
  gs1 = gs ∧ mapLookup h1 gs k = mapLookup h gs k.
Proof.
  revert gs err h. induction pre as [|[mod_ v] pre IH]; intros gs err h; simpl.
  - by intros [= -> -> ->].
  - intros Hrun Hk. apply not_elem_of_cons in Hk as [Hne Hk].
    destruct (genesisSetupFunctions !! mod_) as [fn|] eqn:Hfn; [|done].
    destruct (fn gs v h) as [[[gs2 [e|]] h2]|] eqn:Hset; simpl in Hrun;
      [done| |done].
    destruct (setter_frame _ _ _ _ _ _ _ k Hfn Hset Hne) as [-> Hk2].
    destruct (IH _ _ _ Hrun Hk) as [-> Hk1].
    split; [done|]. by rewrite Hk1.
Qed.

(** C8.  When the loop of [customizeGenesis] comes to a module name
    that has no setter (the entries before it having been applied
    without error), the call panics, naming the module: it does not
    return, with or without an error. *)
Theorem customizeGenesis_unknown_module_panics
    (pre post : list (string * GoValue)) (mod_ : string) (v : GoValue)
    (genesisState gs1 : GenesisState) (h h1 : Heap) :
  genesisSetupFunctions !! mod_ = None ->
  customizeGenesis pre genesisState h = Returns (gs1, None, h1) ->
  customizeGenesis (pre ++ (mod_, v) :: post) genesisState h
  = Panics ("module " +:+ mod_ +:+ " not found in genesis setup functions").
Proof.
  intros Hnone Hpre. unfold customizeGenesis in *.
  rewrite (customizeLoop_app _ _ _ _ _ _ _ Hpre). cbn [customizeLoop].
  by rewrite Hnone.
Qed.

Lemma rangeOrder_NoDup (customGen : CustomGenesisState) entries :
  rangeOrder customGen entries -> NoDup (entries.*1).
Proof.
  unfold rangeOrder. intros ->. apply NoDup_fst_map_to_list.
Qed.

(** An override map that names a module without a setter is never
    applied successfully, whatever the order of the visit. *)
Lemma customizeLoop_unknown_module_fails
    (entries : list (string * GoValue)) (mod_ : string)
    (genesisState gs1 : GenesisState) (err : error) (h h1 : Heap) :
  mod_ ∈ entries.*1 ->
  genesisSetupFunctions !! mod_ = None ->
  customizeLoop entries genesisState err h ≠ Returns (gs1, None, h1).
Proof.
  intros Hin Hnone. revert genesisState err h.
  induction entries as [|[m v] entries IH]; intros gs err h.
  - by apply elem_of_nil in Hin.
  - cbn [customizeLoop].
    destruct (genesisSetupFunctions !! m) as [fn|] eqn:Hfn; [|done].
    destruct (fn gs v h) as [[[gs2 [e|]] h2]|]; simpl; [done| |done].
    apply IH. rewrite fmap_cons in Hin. cbn [fst] in Hin.
    apply elem_of_cons in Hin as [->|Hin]; [congruence | done].
Qed.

(** C2, as the code has it.  When the loop of [customizeGenesis] comes
    to the entry for ["bank"] and its value is not a bank genesis state,
    the call returns the error naming the bank module and the type
    received, together with the nil map; the map the caller passed in
    still holds, under ["bank"], what it held before the call. *)
Theorem customizeGenesis_bank_type_mismatch
    (customGen : CustomGenesisState)
    (pre post : list (string * GoValue)) (v : GoValue)
    (genesisState gs1 : GenesisState) (h h1 : Heap) :
  rangeOrder customGen (pre ++ (ModuleName.bank, v) :: post) ->
  (∀ g, v ≠ VBankGenesis g) ->
  customizeGenesis pre genesisState h = Returns (gs1, None, h1) ->
  customizeGenesis (pre ++ (ModuleName.bank, v) :: post) genesisState h
  = Returns (None,
             Some ("invalid type " +:+ fmt_T v +:+
                   " for bank module genesis state"), h1)
  ∧ mapLookup h1 genesisState ModuleName.bank
    = mapLookup h genesisState ModuleName.bank.
Proof.
  intros Horder Hty Hpre. unfold customizeGenesis in *. split.
  - rewrite (customizeLoop_app _ _ _ _ _ _ _ Hpre). simpl.
    destruct v; try done. by destruct (Hty g).
  - assert (ModuleName.bank ∉ pre.*1) as Hfresh.
    { apply rangeOrder_NoDup in Horder.
      rewrite fmap_app in Horder. apply NoDup_app in Horder as (_ & Hdis & _).
      intros Hin. apply (Hdis _ Hin). simpl. apply list_elem_of_here. }
    by destruct (customizeLoop_frame _ _ _ _ _ _ _ Hpre Hfresh) as [_ ->].
Qed.

End GenesisFacts.

(* ===================================================================== *)
(** ** The statements at work on the concrete environment *)
(* ===================================================================== *)

Section Instances.
Import sdk network example.

Lemma createStakingValidators_default_witness :
  Forall keyConverts [val1; val2] ∧
  ∃ vs, createStakingValidators (map Some [val1; val2]) 7 []
        = Returns (vs, None)
        ∧ length vs = length [val1; val2]
        ∧ Forall2
            (fun val v =>
               stakingtypes.OperatorAddress v
                 = ValAddress_String (cmttypes.Address val)
               ∧ stakingtypes.Tokens v = 7 ∧ hasDefaults v)
            [val1; val2] vs.
Proof.
  assert (Forall keyConverts [val1; val2]) as Hk.
  { repeat constructor; eexists _, _; split; reflexivity. }
  split; [exact Hk|].
  exact (createStakingValidators_default [val1; val2] 7 Hk).
Defined.

Lemma createStakingValidators_mismatch_panics_witness :
  [addr1] ≠ [] ∧ length [addr1] ≠ length [Some val1; Some val2] ∧
  createStakingValidators [Some val1; Some val2] 7 [addr1]
  = Panics "provided 1 validator operator keys but need 2!".
Proof.
  assert ([addr1] ≠ []) as Hne by discriminate.
  assert (length [addr1] ≠ length [Some val1; Some val2]) as Hlen
    by discriminate.
  split; [exact Hne|]. split; [exact Hlen|].
  exact (createStakingValidators_mismatch_panics [Some val1; Some val2] 7
           [addr1] Hne Hlen).
Defined.

Lemma createStakingValidators_commission_bounds_witness :
  0 <= 7 ∧
  ∃ vs, createStakingValidators [Some val1; Some val2] 7 [addr1; addr2]
        = Returns (vs, None)
        ∧ length vs = 2%nat
        ∧ Forall
            (fun v =>
               let rates := stakingtypes.Rates (stakingtypes.Commission_ v) in
               0 <= stakingtypes.Tokens v ∧
               Dec_LTE (stakingtypes.Rate rates) (stakingtypes.MaxRate rates) ∧
               Dec_LTE (stakingtypes.MaxChangeRate rates)
                 (stakingtypes.MaxRate rates))
            vs.
Proof.
  assert (0 <= 7) as Hamt by lia.
  split; [exact Hamt|].
  destruct (createStakingValidators [Some val1; Some val2] 7 [addr1; addr2])
    as [[vs err]|msg] eqn:Hrun; [|discriminate Hrun].
  exists vs.
  pose proof (createStakingValidators_commission_bounds
                [Some val1; Some val2] 7 [addr1; addr2] vs err Hamt Hrun)
    as Hall.
  vm_compute in Hrun. injection Hrun as <- <-.
  split; [reflexivity|]. split; [reflexivity|]. exact Hall.
Defined.

(** The chain rate <= max-rate <= max-change-rate fails on the record
    built for a single validator: its max-rate is 20%, its
    max-change-rate 5%. *)
Lemma commission_chain_counterexample :
  ∃ v, createStakingValidators [Some val1] 1 [] = Returns ([v], None)
       ∧ 0 <= stakingtypes.Tokens v
       ∧ ¬ (let rates := stakingtypes.Rates (stakingtypes.Commission_ v) in
            Dec_LTE (stakingtypes.Rate rates) (stakingtypes.MaxRate rates) ∧
            Dec_LTE (stakingtypes.MaxRate rates)
              (stakingtypes.MaxChangeRate rates)).
Proof.
  eexists. split; [reflexivity|]. split.
  - vm_compute. discriminate.
  - intros [_ Hchain]. vm_compute in Hchain. by apply Hchain.
Qed.

(** Two funded accounts and a bonded pool of 7 aatom. *)
Lemma totalSupply_with_bonded_pool_witness :
  let balances :=
    [banktypes.mkBalance "a" [mkCoin "aatom" 5; mkCoin "uosmo" 3];
     banktypes.mkBalance "b" [mkCoin "uosmo" 2]] in
  coinsSorted balances ∧
  amountsFit
    (addBondedModuleAccountToFundedBalances balances (mkCoin "aatom" 7)) ∧
  ∃ supply,
    calculateTotalSupply
      (addBondedModuleAccountToFundedBalances balances (mkCoin "aatom" 7))
    = Returns supply
    ∧ canonical supply
    ∧ ∀ denom,
        amountOf denom supply
        = sumAmounts denom balances
          + (if decide (Denom (mkCoin "aatom" 7) = denom)
             then Amount (mkCoin "aatom" 7) else 0).
Proof.
  intros balances.
  assert (coinsSorted balances) as Hs.
  { repeat constructor. }
  assert (amountsFit
            (addBondedModuleAccountToFundedBalances balances
               (mkCoin "aatom" 7))) as Hfit.
  { intros denom. simpl. unfold MaxBitLen. repeat case_decide; lia. }
  split; [exact Hs|]. split; [exact Hfit|].
  exact (totalSupply_with_bonded_pool balances (mkCoin "aatom" 7) Hs Hfit).
Defined.

Example totalSupply_run :
  calculateTotalSupply
    (addBondedModuleAccountToFundedBalances
       [banktypes.mkBalance "a" [mkCoin "aatom" 5; mkCoin "uosmo" 3];
        banktypes.mkBalance "b" [mkCoin "uosmo" 2]] (mkCoin "aatom" 7))
  = Returns [mkCoin "aatom" 12; mkCoin "uosmo" 5].
Proof. vm_compute. reflexivity. Qed.

Lemma denoms0_valid denom :
  is_Some (denoms0 !! denom) -> validDenom denom = true.
Proof.
  unfold denoms0. intros [d Hd].
  apply lookup_insert_Some in Hd as [[<- _]|[_ Hd]]; [reflexivity|].
  apply lookup_singleton_Some in Hd as [<- _]. reflexivity.
Defined.

Lemma createBalances_coin_lists_witness :
  (∀ denom, is_Some (denoms0 !! denom) -> validDenom denom = true) ∧
  0 <= InitialUnits ∧
  ∃ coins,
    createBalances [addr1; addr2] denoms0
    = Returns (map (fun acc =>
                      banktypes.mkBalance (AccAddress_String acc) coins)
                 [addr1; addr2])
    ∧ Sorted String.le (map Denom coins)
    ∧ NoDup (map Denom coins)
    ∧ (∀ denom, denom ∈ map Denom coins <-> is_Some (denoms0 !! denom))
    ∧ (∀ c, c ∈ coins ->
         ∃ d, denoms0 !! Denom c = Some d
              ∧ Amount c = InitialUnits * evmtypes.ConversionFactor d).
Proof.
  assert (0 <= InitialUnits) as Hu by (vm_compute; discriminate).
  split; [exact denoms0_valid|]. split; [exact Hu|].
  exact (createBalances_coin_lists [addr1; addr2] denoms0 denoms0_valid Hu).
Defined.

Example createBalances_run :
  createBalances [addr1] denoms0
  = Returns [banktypes.mkBalance
               "cosmos1qyqszqgpqyqszqgpqyqszqgpqyqszqgpjnp7du"
               [mkCoin "aatom" 1000000000000; mkCoin "uosmo" 1]].
Proof. vm_compute. reflexivity. Qed.

Lemma getAccAddrs_of_createBalances_witness :
  ∃ balances,
    createBalances [addr1; addr2] denoms0 = Returns balances ∧
    Exists (fun aa => aa ≠ []) [addr1; addr2] ∧
    (∀ bs : list Balance,
       getAccAddrsFromBalances bs
       = map (fun b => list_byte_of_string (banktypes.Address b)) bs)
    ∧ getAccAddrsFromBalances balances
      = map (fun aa => list_byte_of_string (AccAddress_String aa))
          [addr1; addr2]
    ∧ Forall2 (fun aa back => aa ≠ [] -> back ≠ aa)
        [addr1; addr2] (getAccAddrsFromBalances balances)
    ∧ getAccAddrsFromBalances balances ≠ [addr1; addr2].
Proof.
  destruct (createBalances [addr1; addr2] denoms0) as [balances|msg] eqn:Hrun;
    [|vm_compute in Hrun; discriminate Hrun].
  exists balances.
  assert (Exists (fun aa : AccAddress => aa ≠ []) [addr1; addr2]) as Hex.
  { apply Exists_cons_hd. discriminate. }
  split; [reflexivity|]. split; [exact Hex|].
  exact (getAccAddrs_of_createBalances [addr1; addr2] denoms0 balances
           Hrun Hex).
Defined.

(** An override for the consensus module, then one for a module that
    has no setter. *)
Lemma customizeGenesis_unknown_module_panics_witness :
  genesisSetupFunctions !! "staking" = None ∧
  customizeGenesis [("consensus", VNil)] (Some 0%nat) heap0
  = Returns (Some 0%nat, None, heap0) ∧
  customizeGenesis
    ([("consensus", VNil)] ++
       ("staking", VOther "string") :: [("bank", VOther "int")])
    (Some 0%nat) heap0
  = Panics "module staking not found in genesis setup functions".
Proof.
  assert (genesisSetupFunctions !! "staking" = None) as Hnone
    by reflexivity.
  assert (customizeGenesis [("consensus", VNil)] (Some 0%nat) heap0
          = Returns (Some 0%nat, None, heap0)) as Hpre by reflexivity.
  split; [exact Hnone|]. split; [exact Hpre|].
  exact (customizeGenesis_unknown_module_panics
           [("consensus", VNil)] [("bank", VOther "int")] "staking"
           (VOther "string") (Some 0%nat) (Some 0%nat) heap0 heap0
           Hnone Hpre).
Defined.

Lemma customizeGenesis_bank_type_mismatch_witness :
  let pre := [("evm", VProtoGenesis EvmGenesis "{}")] in
  let h1 : Heap := {[ 0%nat := <[ "evm" := "{}" ]> {[ "bank" := "{}" ]} ]} in
  rangeOrder customGen0 (pre ++ (ModuleName.bank, VOther "int") :: []) ∧
  (∀ g, VOther "int" ≠ VBankGenesis g) ∧
  customizeGenesis pre (Some 0%nat) heap0 = Returns (Some 0%nat, None, h1) ∧
  customizeGenesis (pre ++ (ModuleName.bank, VOther "int") :: [])
    (Some 0%nat) heap0
  = Returns (None, Some "invalid type int for bank module genesis state", h1) ∧
  mapLookup h1 (Some 0%nat) ModuleName.bank
  = mapLookup heap0 (Some 0%nat) ModuleName.bank.
Proof.
  intros pre h1.
  assert (rangeOrder customGen0
            (pre ++ (ModuleName.bank, VOther "int") :: [])) as Horder.
  { unfold rangeOrder, customGen0. symmetry.
    rewrite map_to_list_insert by reflexivity.
    by rewrite map_to_list_singleton. }
  assert (∀ g, VOther "int" ≠ VBankGenesis g) as Hty by discriminate.
  assert (customizeGenesis pre (Some 0%nat) heap0
          = Returns (Some 0%nat, None, h1)) as Hpre by (vm_compute; reflexivity).
  split; [exact Horder|]. split; [exact Hty|]. split; [exact Hpre|].
  exact (customizeGenesis_bank_type_mismatch customGen0
           pre [] (VOther "int")
           (Some 0%nat) (Some 0%nat) heap0 h1 Horder Hty Hpre).
Defined.

(** The map [customizeGenesis] returns alongside the type-mismatch
    error is nil: it has no ["bank"] entry, while the map passed in
    had one. *)
Lemma bank_override_returned_map_counterexample :
  mapLookup heap0 (Some 0%nat) "bank" = Some "{}" ∧
  ∃ gs' err h',
    customizeGenesis [("bank", VOther "int")] (Some 0%nat) heap0
    = Returns (gs', err, h')
    ∧ mapLookup h' gs' "bank" ≠ mapLookup heap0 (Some 0%nat) "bank".
Proof.
  split; [reflexivity|].
  exists None, (Some "invalid type int for bank module genesis state"), heap0.
  split; [reflexivity|]. discriminate.
Qed.

(** No supply is yielded for a balance whose coins are not sorted by
    denom, nor when a sum takes more than 256 bits: here the one account
    holds 2^256 - 1 and the bonded pool 1. *)
Lemma totalSupply_with_bonded_pool_counterexample :
  calculateTotalSupply
    (addBondedModuleAccountToFundedBalances
       [banktypes.mkBalance "a" [mkCoin "uosmo" 3; mkCoin "aatom" 5]]
       (mkCoin "aatom" 7))
  = Panics "Wrong argument: coins must be sorted"
  ∧ fitsInt (2 ^ 256 - 1)
  ∧ ∃ msg,
      calculateTotalSupply
        (addBondedModuleAccountToFundedBalances
           [banktypes.mkBalance "a" [mkCoin "aatom" (2 ^ 256 - 1)]]
           (mkCoin "aatom" 1))
      = Panics msg.
Proof.
  split; [vm_compute; reflexivity|]. split; [vm_compute; reflexivity|].
  eexists. vm_compute. reflexivity.
Qed.

(** A consensus validator whose key the conversions reject: the call
    returns the conversion error and no record at all. *)
Lemma createStakingValidators_default_counterexample :
  ∃ vs e,
    createStakingValidators [Some val3] 7 [] = Returns (vs, Some e)
    ∧ length vs ≠ length [Some val3].
Proof.
  exists [], "key type sr25519 is not supported".
  split; [reflexivity | discriminate].
Qed.

(** The list of one empty address is not empty, and comes back as it
    was: the empty address is printed as the empty string. *)
Lemma getAccAddrs_of_createBalances_counterexample :
  [([] : AccAddress)] ≠ [] ∧
  ∃ balances,
    createBalances [[]] denoms0 = Returns balances
    ∧ getAccAddrsFromBalances balances = [[]].
Proof.
  split; [discriminate|]. eexists. split; vm_compute; reflexivity.
Qed.

End Instances.


(* ===================================================================== *)
(** ** Further properties of the decimal registry *)
(* ===================================================================== *)

Section MoreDecimalsFacts.
Import evmtypes.

(** X27.  On a [uint8], the conversion factor turns one whole token of
    [d] decimals into one whole token of 18 decimals exactly when [Validate]
    accepts [d]: the fallback factor 1 is right for 18 only. *)
Theorem ConversionFactor_whole_token (d : Decimals) :
  is_uint8 d ->
  (10 ^ d * ConversionFactor d = 10 ^ 18 <-> Validate d = None).
Proof.
  intros [Hlo Hhi]. rewrite Validate_supported.
  unfold ConversionFactor, SixDecimals, EighteenDecimals. split.
  - case_decide as H6; [by left|]. rewrite Z.mul_1_r. intros Hpow.
    right. by apply (Z.pow_inj_r 10) in Hpow; [|lia..].
  - intros [-> | ->]; reflexivity.
Qed.

Lemma ConversionFactor_whole_token_witness :
  is_uint8 6 ∧ (10 ^ 6 * ConversionFactor 6 = 10 ^ 18 <-> Validate 6 = None).
Proof.
  assert (is_uint8 6) as Hu by (unfold is_uint8; lia).
  split; [exact Hu|]. exact (ConversionFactor_whole_token 6 Hu).
Defined.

End MoreDecimalsFacts.

(* ===================================================================== *)
(** ** Further properties of the staking-validator builder *)
(* ===================================================================== *)

Section MoreStakingFacts.
Import sdk network.
Context `{cfg : Config} `{kc : KeyCodec}.

Lemma createStakingValidator_outcome
    (val : cmttypes.Validator) bondedAmt operatorAddr :
  (∃ v, createStakingValidator (Some val) bondedAmt operatorAddr
        = Returns (v, None)
        ∧ builtFrom val bondedAmt operatorAddr v) ∨
  (∃ e, createStakingValidator (Some val) bondedAmt operatorAddr
          = Returns (stakingtypes.zeroValidator, Some e)
        ∧ keyFails val e).
Proof.
  unfold createStakingValidator, keyFails.
  destruct (FromTmPubKeyInterface (cmttypes.PubKey_ val)) as [pk|e] eqn:Hpk.
  - destruct (NewAnyWithValue pk) as [pkAny|e] eqn:Hany.
    + left.
      exists (defaultValidator
                (ValAddress_String
                   (default (cmttypes.Address val) operatorAddr))
                pkAny bondedAmt).
      split; [by destruct operatorAddr | by econstructor].
    + right. exists e. split; [done|]. right. by exists pk.
  - right. exists e. split; [done|]. by left.
Qed.

Lemma keyFails_not_converts val e : keyFails val e -> ¬ keyConverts val.
Proof.
  intros [Hf|(pk & Hpk & Hany)] (pk' & pkAny & Hpk' & Hany'); congruence.
Qed.

Lemma specificOperatorLoop_converts
    i (vals : list cmttypes.Validator) bondedAmt ops acc :
  Forall keyConverts vals ->
  length (drop i ops) = length vals ->
  ∃ vs, specificOperatorLoop i (map Some vals) bondedAmt ops acc
        = Returns (acc ++ vs, None)
        ∧ Forall2 (fun p v => builtFrom p.1 bondedAmt (Some p.2) v)
            (zip vals (drop i ops)) vs.
Proof.
  intros Hall. revert i acc.
  induction Hall as [|val vals Hval _ IH]; intros i acc Hlen;
    cbn [map specificOperatorLoop].
  - exists []. rewrite app_nil_r. split; [done|]. constructor.
  - assert (is_Some (ops !! i)) as [addr Haddr].
    { apply lookup_lt_is_Some. rewrite length_drop in Hlen. simpl in Hlen.
      lia. }
    rewrite Haddr. rewrite (drop_S _ _ _ Haddr) in Hlen |- *.
    destruct (createStakingValidator_converts val bondedAmt (Some addr) Hval)
      as (v & -> & Hv). cbn [mbind outcome_bind].
    destruct (IH (S i) (acc ++ [v])) as (vs & -> & Hvs).
    { simpl in Hlen. lia. }
    exists (v :: vs). rewrite <- app_assoc. split; [done|].
    by constructor.
Qed.

(** X1.  With as many operator addresses as consensus validators, and
    every consensus key passing the key conversions,
    [createStakingValidators], handed pointers to the validators,
    returns without error one record per validator; the record at each
    position carries the operator address given at that position, the
    bonded amount and the default fields. *)
Theorem createStakingValidators_specific
    (tmValidators : list cmttypes.Validator) (bondedAmt : Z)
    (operatorsAddresses : list AccAddress) :
  operatorsAddresses ≠ [] ->
  length operatorsAddresses = length tmValidators ->
  Forall keyConverts tmValidators ->
  ∃ vs, createStakingValidators (map Some tmValidators) bondedAmt
          operatorsAddresses
        = Returns (vs, None)
        ∧ length vs = length tmValidators
        ∧ ∀ i addr, operatorsAddresses !! i = Some addr ->
            ∃ v, vs !! i = Some v
                 ∧ stakingtypes.OperatorAddress v = ValAddress_String addr
                 ∧ stakingtypes.Tokens v = bondedAmt
                 ∧ hasDefaults v.
Proof.
  intros Hne Hlen Hall.
  unfold createStakingValidators, createStakingValidatorsWithSpecificOperator.
  rewrite decide_False by (by destruct operatorsAddresses).
  rewrite length_map.
  rewrite decide_False by (intros Hn; by apply Hn).
  destruct (specificOperatorLoop_converts 0 tmValidators bondedAmt
              operatorsAddresses [] Hall) as (vs & Hrun & Hvs); [done|].
  simpl in Hrun. rewrite drop_0 in Hvs. exists vs. split; [exact Hrun|].
  pose proof (Forall2_length _ _ _ Hvs) as Hl.
  rewrite length_zip_with in Hl. split; [lia|].
  intros i addr Haddr.
  assert (is_Some (tmValidators !! i)) as [val Hval].
  { apply lookup_lt_is_Some. apply lookup_lt_Some in Haddr. lia. }
  destruct (Forall2_lookup_l _ _ _ i (val, addr) Hvs) as (v & Hv & Hb).
  { apply lookup_zip_with_Some. by exists val, addr. }
  exists v. split; [exact Hv|]. simpl in Hb.
  split_and!; [by destruct Hb | by destruct Hb |].
  eapply builtFrom_hasDefaults, Hb.
Qed.

Lemma createStakingValidator_fails
    (val : cmttypes.Validator) bondedAmt operatorAddr e :
  keyFails val e ->
  createStakingValidator (Some val) bondedAmt operatorAddr
  = Returns (stakingtypes.zeroValidator, Some e).
Proof.
  intros Hfail.
  destruct (createStakingValidator_outcome val bondedAmt operatorAddr)
    as [(v & _ & Hv)|(e' & -> & He')].
  - destruct (keyFails_not_converts _ _ Hfail).
    destruct Hv as [pk pkAny Hpk Hany]. by exists pk, pkAny.
  - destruct Hfail as [Hf|(pk & Hpk & Hany)],
      He' as [Hf'|(pk' & Hpk' & Hany')]; congruence.
Qed.

Lemma randomOperatorLoop_first_failure
    (pre : list cmttypes.Validator) val post bondedAmt acc e :
  Forall keyConverts pre -> keyFails val e ->
  randomOperatorLoop (map Some pre ++ Some val :: post) bondedAmt acc
  = Returns ([], Some e).
Proof.
  intros Hpre Hfail. revert acc.
  induction Hpre as [|val' pre Hval' _ IH]; intros acc;
    cbn [map app randomOperatorLoop].
  - by rewrite (createStakingValidator_fails _ _ _ _ Hfail).
  - destruct (createStakingValidator_converts val' bondedAmt None Hval')
      as (v & -> & _). cbn [mbind outcome_bind]. apply IH.
Qed.

Lemma specificOperatorLoop_first_failure
    i (pre : list cmttypes.Validator) val post bondedAmt ops acc e :
  Forall keyConverts pre -> keyFails val e ->
  length (drop i ops) = length (map Some pre ++ Some val :: post) ->
  specificOperatorLoop i (map Some pre ++ Some val :: post) bondedAmt ops acc
  = Returns ([], Some e).
Proof.
  intros Hpre Hfail. revert i acc.
  induction Hpre as [|val' pre Hval' _ IH]; intros i acc Hlen;
    cbn [map app specificOperatorLoop].
  - assert (is_Some (ops !! i)) as [addr ->].
    { apply lookup_lt_is_Some. rewrite length_drop in Hlen. simpl in Hlen.
      lia. }
    by rewrite (createStakingValidator_fails _ _ _ _ Hfail).
  - assert (is_Some (ops !! i)) as [addr Haddr].
    { apply lookup_lt_is_Some. rewrite length_drop in Hlen. simpl in Hlen.
      lia. }
    rewrite Haddr. rewrite (drop_S _ _ _ Haddr) in Hlen.
    destruct (createStakingValidator_converts val' bondedAmt (Some addr) Hval')
      as (v & -> & _). cbn [mbind outcome_bind]. apply IH.
    simpl in Hlen. lia.
Qed.

(** X2.  When some consensus key does not convert, the error of the
    first validator whose key fails is what [createStakingValidators]
    returns, and it returns it with the nil slice: the records built
    before the failure are dropped, and the pointers after it are not
    looked at. *)
Theorem createStakingValidators_first_failure
    (pre : list cmttypes.Validator) (val : cmttypes.Validator)
    (post : list (option cmttypes.Validator))
    (bondedAmt : Z) (operatorsAddresses : list AccAddress) (e : string) :
  operatorsFit (map Some pre ++ Some val :: post) operatorsAddresses ->
  Forall keyConverts pre ->
  keyFails val e ->
  createStakingValidators (map Some pre ++ Some val :: post) bondedAmt
    operatorsAddresses
  = Returns ([], Some e).
Proof.
  intros Hfit Hpre Hfail.
  unfold createStakingValidators, createStakingValidatorsWithRandomOperator,
    createStakingValidatorsWithSpecificOperator.
  case_decide as Hz.
  - by apply randomOperatorLoop_first_failure.
  - destruct Hfit as [->|Hlen]; [done|].
    rewrite decide_False by (intros Hn; by apply Hn).
    by apply specificOperatorLoop_first_failure.
Qed.

(** *** Where the loops panic *)

Lemma nilReached_nil : ¬ nilReached [].
Proof. intros (pre & post & Heq & _). by destruct pre. Qed.

Lemma nilReached_None rest : nilReached (None :: rest).
Proof. exists [], rest. by split. Qed.

Lemma nilReached_Some val rest :
  nilReached (Some val :: rest) <-> keyConverts val ∧ nilReached rest.
Proof.
  split.
  - intros (pre & post & Heq & Hpre). destruct pre as [|val' pre]; [done|].
    injection Heq as <- ->. apply Forall_cons in Hpre as [Hval Hpre].
    split; [done|]. by exists pre, post.
  - intros [Hval (pre & post & -> & Hpre)].
    exists (val :: pre), post. split; [done|]. by constructor.
Qed.

Lemma randomOperatorLoop_panics vals bondedAmt acc :
  (nilReached vals ∧
     randomOperatorLoop vals bondedAmt acc = Panics nilDereference)
  ∨ (¬ nilReached vals ∧
       ∃ r, randomOperatorLoop vals bondedAmt acc = Returns r).
Proof.
  revert acc. induction vals as [|[val|] vals IH]; intros acc;
    cbn [randomOperatorLoop].
  - right. split; [apply nilReached_nil | eauto].
  - rewrite nilReached_Some.
    destruct (createStakingValidator_cases val bondedAmt None)
      as [(v & -> & Hv)|(e & -> & Hne)]; cbn [mbind outcome_bind].
    + assert (keyConverts val) as Hval.
      { destruct Hv as [pk pkAny Hpk Hany]. by exists pk, pkAny. }
      destruct (IH (acc ++ [v])) as [[Hn Hp]|[Hn Hr]]; [by left|].
      right. split; [|done]. by intros [_ ?].
    + right. split; [by intros [? _] | eauto].
  - left. split; [apply nilReached_None | done].
Qed.

Lemma specificOperatorLoop_panics i vals bondedAmt ops acc :
  length (drop i ops) = length vals ->
  (nilReached vals ∧
     specificOperatorLoop i vals bondedAmt ops acc = Panics nilDereference)
  ∨ (¬ nilReached vals ∧
       ∃ r, specificOperatorLoop i vals bondedAmt ops acc = Returns r).
Proof.
  revert i acc. induction vals as [|val vals IH]; intros i acc Hlen;
    cbn [specificOperatorLoop].
  { right. split; [apply nilReached_nil | eauto]. }
  assert (is_Some (ops !! i)) as [addr Haddr].
  { apply lookup_lt_is_Some. rewrite length_drop in Hlen. simpl in Hlen. lia. }
  rewrite Haddr. rewrite (drop_S _ _ _ Haddr) in Hlen.
  assert (length (drop (S i) ops) = length vals) as Hlen'
    by (simpl in Hlen; lia).
  destruct val as [val|].
  - rewrite nilReached_Some.
    destruct (createStakingValidator_cases val bondedAmt (Some addr))
      as [(v & -> & Hv)|(e & -> & Hne)]; cbn [mbind outcome_bind].
    + assert (keyConverts val) as Hval.
      { destruct Hv as [pk pkAny Hpk Hany]. by exists pk, pkAny. }
      destruct (IH (S i) (acc ++ [v]) Hlen') as [[Hn Hp]|[Hn Hr]];
        [by left|].
      right. split; [|done]. by intros [_ ?].
    + right. split; [by intros [? _] | eauto].
  - left. split; [apply nilReached_None | done].
Qed.

(** X3.  [createStakingValidators] panics in two situations only: on a
    non-empty operator list whose length is not the number of
    validators, and when its loop comes to a nil pointer, that is, when
    there is one and the keys of the validators before it convert.  In
    the second situation, with an operator list that fits, the panic is
    the nil dereference of the runtime.  In every other case the call
    returns. *)
Theorem createStakingValidators_panics_iff
    (tmValidators : list (option cmttypes.Validator)) (bondedAmt : Z)
    (operatorsAddresses : list AccAddress) :
  ((∃ msg, createStakingValidators tmValidators bondedAmt operatorsAddresses
           = Panics msg)
   <-> (operatorsAddresses ≠ [] ∧
        length operatorsAddresses ≠ length tmValidators)
       ∨ nilReached tmValidators)
  ∧ (operatorsFit tmValidators operatorsAddresses ->
     nilReached tmValidators ->
     createStakingValidators tmValidators bondedAmt operatorsAddresses
     = Panics nilDereference).
Proof.
  unfold createStakingValidators, createStakingValidatorsWithRandomOperator,
    createStakingValidatorsWithSpecificOperator, operatorsFit.
  case_decide as Hz.
  - assert (operatorsAddresses = []) as ->
      by (by destruct operatorsAddresses).
    destruct (randomOperatorLoop_panics tmValidators bondedAmt [])
      as [[Hn Hp]|[Hn [r Hr]]].
    + rewrite Hp. split; [|done]. split; [by right | eauto].
    + rewrite Hr. split; [|done]. split; [by intros [? ?]|].
      by intros [[? _]|?].
  - assert (operatorsAddresses ≠ []) as Hne by (by intros ->).
    case_decide as Hlen.
    + split; [|by intros [->|?]]. split; [by left | eauto].
    + assert (length operatorsAddresses = length tmValidators) as Hlen'
        by (destruct (decide (length operatorsAddresses
                              = length tmValidators)); [done|contradiction]).
      destruct (specificOperatorLoop_panics 0 tmValidators bondedAmt
                  operatorsAddresses [])
        as [[Hn Hp]|[Hn [r Hr]]]; [by rewrite drop_0| |].
      * rewrite Hp. split; [|done]. split; [by right | eauto].
      * rewrite Hr. split; [|done]. split; [by intros [? ?]|].
        by intros [[_ ?]|?].
Qed.

End MoreStakingFacts.


(* ===================================================================== *)
(** ** Further properties of the supply computation *)
(* ===================================================================== *)

Section MoreSupplyFacts.
Import sdk network.
Context `{cfg : Config} `{pf : Prefunding}.

Lemma sumBalances_unsorted (balances : list Balance) (acc : Coins) :
  isSorted acc = true -> ¬ coinsSorted balances ->
  (∀ d, magnitudeOf d acc + sumMagnitudes d balances < 2 ^ MaxBitLen) ->
  sumBalances balances acc = Panics "Wrong argument: coins must be sorted".
Proof.
  revert acc. induction balances as [|b balances IH]; intros acc Hacc Hns Hfit.
  - destruct Hns. constructor.
  - simpl. destruct (isSorted (banktypes.Coins b)) eqn:Hb.
    + destruct (Add_step acc (banktypes.Coins b)
                  (fun d => sumMagnitudes d balances) Hacc Hb)
        as (acc' & -> & Hcan & _ & Hfit').
      { intros d. specialize (Hfit d). simpl in Hfit. lia. }
      { intros d. apply sumMagnitudes_nonneg. }
      simpl. apply IH; [apply Hcan| |done].
      intros Hrest. apply Hns. by constructor.
    + unfold Add. by rewrite Hacc, Hb.
Qed.

Lemma sumBalances_returns_sorted (balances : list Balance) (acc supply : Coins) :
  sumBalances balances acc = Returns supply -> coinsSorted balances.
Proof.
  revert acc. induction balances as [|b balances IH]; intros acc; simpl.
  - intros _. constructor.
  - destruct (Add acc (banktypes.Coins b)) as [acc'|msg] eqn:Hadd; [|done].
    simpl. intros Hrun. constructor.
    + by apply Add_returns_sorted in Hadd as [_ ?].
    + by eapply IH.
Qed.

(** X4.  On balances whose amounts stay, denom by denom, within the
    range of an [Int], [calculateTotalSupply] returns exactly when every
    balance's coin list is sorted by denom, and panics with the message
    of [Coins.Add] about its argument exactly when one is not. *)
Theorem calculateTotalSupply_returns_iff
    (fundedAccountsBalances : list Balance) :
  amountsFit fundedAccountsBalances ->
  ((∃ supply, calculateTotalSupply fundedAccountsBalances = Returns supply)
   <-> coinsSorted fundedAccountsBalances)
  ∧ (calculateTotalSupply fundedAccountsBalances
     = Panics "Wrong argument: coins must be sorted"
     <-> ¬ coinsSorted fundedAccountsBalances).
Proof.
  intros Hfit. unfold calculateTotalSupply.
  assert (∀ d, magnitudeOf d NewCoins
               + sumMagnitudes d fundedAccountsBalances < 2 ^ MaxBitLen)
    as Hfit' by (intros d; specialize (Hfit d); simpl; lia).
  destruct (decide (coinsSorted fundedAccountsBalances)) as [Hs|Hns].
  - destruct (sumBalances_spec fundedAccountsBalances NewCoins eq_refl Hs
                Hfit') as (supply & Hrun & _).
    rewrite Hrun. split; split; try done; eauto.
  - rewrite (sumBalances_unsorted _ NewCoins eq_refl Hns Hfit').
    split; split; try done. by intros [supply Hrun].
Qed.

Lemma sumMagnitudes_same_coins denom (coins : Coins) (addrs : list string) :
  sumMagnitudes denom (map (fun a => banktypes.mkBalance a coins) addrs)
  = Z.of_nat (length addrs) * magnitudeOf denom coins.
Proof. induction addrs as [|a addrs IH]; simpl; [lia|]. rewrite IH. lia. Qed.

Lemma sumAmounts_same_coins denom (coins : Coins) (addrs : list string) :
  sumAmounts denom (map (fun a => banktypes.mkBalance a coins) addrs)
  = Z.of_nat (length addrs) * amountOf denom coins.
Proof. induction addrs as [|a addrs IH]; simpl; [lia|]. rewrite IH. lia. Qed.

Lemma amountOf_coinFor denomDecimals (keys : list string) denom :
  NoDup keys ->
  amountOf denom (map (coinFor denomDecimals) keys)
  = if decide (denom ∈ keys)
    then GetInitialAmount (default 0 (denomDecimals !! denom)) else 0.
Proof.
  induction 1 as [|k keys Hk Hnd IH]; [done|].
  change (map (coinFor denomDecimals) (k :: keys))
    with ([coinFor denomDecimals k] ++ map (coinFor denomDecimals) keys).
  rewrite amountOf_app, IH. unfold amountOf, coinFor at 1.
  cbn [foldr Denom Amount].
  destruct (decide (k = denom)) as [->|Hne].
  - rewrite (decide_True (P := denom ∈ denom :: keys))
      by apply list_elem_of_here.
    rewrite (decide_False (P := denom ∈ keys)) by done. lia.
  - destruct (decide (denom ∈ keys)) as [Hin|Hnin].
    + by rewrite (decide_True (P := denom ∈ k :: keys))
        by (by apply list_elem_of_further).
    + by rewrite (decide_False (P := denom ∈ k :: keys))
        by (by apply not_elem_of_cons).
Qed.

Lemma createBalances_returns accounts denomDecimals :
  (∀ denom, is_Some (denomDecimals !! denom) -> validDenom denom = true) ->
  0 <= InitialUnits ->
  createBalances accounts denomDecimals
  = Returns (map (fun acc =>
                    banktypes.mkBalance (AccAddress_String acc)
                      (map (coinFor denomDecimals) (sortedKeys denomDecimals)))
               accounts).
Proof.
  intros Hvalid Hu. unfold createBalances.
  pose proof (fillCoins_spec denomDecimals (sortedKeys denomDecimals) []
                (replicate (length (sortedKeys denomDecimals))
                   (mkCoin "" 0))) as Hfill.
  simpl in Hfill. rewrite Hfill.
  - simpl. by rewrite fold_left_snoc.
  - apply length_replicate.
  - apply Forall_forall. intros denom Hin.
    apply Hvalid. by apply elem_of_sortedKeys.
  - done.
Qed.

Lemma coinFor_sorted denomDecimals :
  isSorted (map (coinFor denomDecimals) (sortedKeys denomDecimals)) = true.
Proof.
  apply isSorted_Sorted.
  apply (Sorted_fmap _ String.le Coin_le); [done|].
  apply sortedKeys_Sorted.
Qed.

(** X5.  With valid denoms, a non-negative token count, and accounts
    few enough for the amounts of each denom to stay, taken together,
    within the range of an [Int], the balances [createBalances] makes are
    fit for [calculateTotalSupply]: the supply is returned, and it holds
    of each denom of the mapping the per-account amount times the number
    of accounts, and nothing of any other denom. *)
Theorem createBalances_total_supply
    (accounts : list AccAddress)
    (denomDecimals : gmap string evmtypes.Decimals) :
  (∀ denom, is_Some (denomDecimals !! denom) -> validDenom denom = true) ->
  0 <= InitialUnits ->
  (∀ denom d, denomDecimals !! denom = Some d ->
     Z.of_nat (length accounts)
     * (InitialUnits * evmtypes.ConversionFactor d) < 2 ^ MaxBitLen) ->
  ∃ balances supply,
    createBalances accounts denomDecimals = Returns balances
    ∧ calculateTotalSupply balances = Returns supply
    ∧ ∀ denom,
        amountOf denom supply
        = match denomDecimals !! denom with
          | Some d => Z.of_nat (length accounts)
                      * (InitialUnits * evmtypes.ConversionFactor d)
          | None => 0
          end.
Proof.
  intros Hvalid Hu Hbound. eexists.
  rewrite (createBalances_returns _ _ Hvalid Hu).
  set (coins := map (coinFor denomDecimals) (sortedKeys denomDecimals)).
  unfold calculateTotalSupply.
  edestruct (sumBalances_spec
               (map (fun acc => banktypes.mkBalance (AccAddress_String acc) coins)
                  accounts) NewCoins) as (supply & Hrun & _ & _ & Hsum);
    [done| | |].
  - unfold coinsSorted. apply Forall_forall. intros b Hb.
    apply list_elem_of_In, in_map_iff in Hb as (a & <- & _).
    apply coinFor_sorted.
  - intros denom. simpl.
    rewrite <- (map_map AccAddress_String
                  (fun a => banktypes.mkBalance a coins)).
    rewrite sumMagnitudes_same_coins, length_map.
    rewrite magnitudeOf_amounts_nonneg.
    2:{ apply Forall_forall. intros c Hc. unfold coins in Hc.
        apply list_elem_of_In, in_map_iff in Hc as (k & <- & _).
        unfold coinFor, GetInitialAmount, evmtypes.ConversionFactor.
        cbn [Amount]. case_decide; lia. }
    unfold coins. rewrite amountOf_coinFor by apply sortedKeys_NoDup.
    destruct (denomDecimals !! denom) as [d|] eqn:Hd.
    + rewrite decide_True by (apply elem_of_sortedKeys; by rewrite Hd).
      unfold GetInitialAmount. simpl. by apply (Hbound denom).
    + rewrite decide_False
        by (rewrite elem_of_sortedKeys, Hd; by intros [? ?]).
      unfold MaxBitLen. lia.
  - exists supply. split; [done|]. split; [exact Hrun|].
    intros denom. rewrite Hsum. simpl.
    rewrite <- (map_map AccAddress_String
                  (fun a => banktypes.mkBalance a coins)).
    rewrite sumAmounts_same_coins, length_map.
    unfold coins. rewrite amountOf_coinFor by apply sortedKeys_NoDup.
    destruct (denomDecimals !! denom) as [d|] eqn:Hd.
    + rewrite decide_True by (apply elem_of_sortedKeys; by rewrite Hd).
      unfold GetInitialAmount. done.
    + rewrite decide_False; [lia|].
      rewrite elem_of_sortedKeys, Hd. by intros [? ?].
Qed.

End MoreSupplyFacts.


(* ===================================================================== *)
(** ** Further properties of override application *)
(* ===================================================================== *)

Section MoreGenesisFacts.
Import sdk network.
Context `{codec : AppCodec}.

Lemma genesisSetupFunctions_proto (t : ProtoGenesis) :
  genesisSetupFunctions !! protoModule t
  = Some (genStateSetter t (protoModule t)).
Proof. by destruct t. Qed.

(** X6.  Every setter but the consensus one answers a value of another
    type than its own in the same way: it returns the error naming the
    type received and the module, together with the nil map, and leaves
    the heap as it was.  It does not panic. *)
Theorem setter_type_mismatch
    (mod_ : string) (fn : genSetupFn)
    (genesisState : GenesisState) (v : GoValue) (h : Heap) :
  genesisSetupFunctions !! mod_ = Some fn ->
  ¬ accepts mod_ v ->
  fn genesisState v h
  = Returns (None,
             Some ("invalid type " +:+ fmt_T v +:+ " for " +:+ mod_ +:+
                   " module genesis state"), h).
Proof.
  intros Hfn Hacc. apply elem_of_list_to_map_2 in Hfn.
  unfold accepts in Hacc.
  repeat (apply elem_of_cons in Hfn as [[= -> ->]|Hfn]).
  all: try (by apply elem_of_nil in Hfn).
  all: try (by destruct Hacc; left).
  all: unfold genStateSetter, setBankGenesisState, setAuthGenesisState.
  all: destruct v as [|g|g|t msg|name]; try reflexivity.
  all: try (by destruct Hacc; right).
  all: case_decide as Ht; [|reflexivity].
  all: subst t; by destruct Hacc; right.
Qed.

Lemma setter_same_map mod_ fn gs v h gs' h' :
  genesisSetupFunctions !! mod_ = Some fn ->
  fn gs v h = Returns (gs', None, h') -> gs' = gs.
Proof.
  intros Hfn Hrun.
  assert (mod_ +:+ "x" ≠ mod_) as Hne.
  { intros Heq. apply (f_equal String.length) in Heq.
    rewrite length_string_app in Heq. simpl in Heq. lia. }
  by destruct (setter_frame _ _ _ _ _ _ _ _ Hfn Hrun Hne).
Qed.

Lemma customizeLoop_same_map entries gs err h gs1 h1 :
  customizeLoop entries gs err h = Returns (gs1, None, h1) -> gs1 = gs.
Proof.
  revert gs err h. induction entries as [|[mod_ v] entries IH];
    intros gs err h; simpl.
  - by intros [= -> _ _].
  - destruct (genesisSetupFunctions !! mod_) as [fn|] eqn:Hfn; [|done].
    destruct (fn gs v h) as [[[gs2 [e|]] h2]|] eqn:Hset; simpl; [done| |done].
    intros Hrun. apply IH in Hrun as ->. by eapply setter_same_map.
Qed.

(** X7.  A call of [customizeGenesis] that returns without error returns
    the map it was given, and has left untouched every entry of that map
    whose module the override does not name. *)
Theorem customizeGenesis_success_frame
    (entries : list (string * GoValue))
    (genesisState gs1 : GenesisState) (h h1 : Heap) :
  customizeGenesis entries genesisState h = Returns (gs1, None, h1) ->
  gs1 = genesisState
  ∧ ∀ k, k ∉ entries.*1 ->
      mapLookup h1 genesisState k = mapLookup h genesisState k.
Proof.
  intros Hrun. unfold customizeGenesis in Hrun. split.
  - by eapply customizeLoop_same_map.
  - intros k Hk. by destruct (customizeLoop_frame _ _ _ _ _ _ k Hrun Hk).
Qed.

(** X8.  An override map that names a module without a setter is never
    applied successfully: in whatever order [range] yields its entries,
    [customizeGenesis] does not return without error. *)
Theorem customizeGenesis_unknown_module_never_succeeds
    (customGen : CustomGenesisState) (entries : list (string * GoValue))
    (mod_ : string) (genesisState gs1 : GenesisState) (h h1 : Heap) :
  rangeOrder customGen entries ->
  is_Some (customGen !! mod_) ->
  genesisSetupFunctions !! mod_ = None ->
  customizeGenesis entries genesisState h ≠ Returns (gs1, None, h1).
Proof.
  intros Horder [v Hv] Hnone. apply customizeLoop_unknown_module_fails
    with (mod_ := mod_); [|done].
  unfold rangeOrder in Horder. rewrite Horder.
  apply list_elem_of_fmap. exists (mod_, v). split; [done|].
  by apply elem_of_map_to_list.
Qed.

End MoreGenesisFacts.


Section SetterFacts.
Import sdk network.
Context `{codec : AppCodec}.

Lemma mapAssign_lookup h l k v :
  ∃ h', mapAssign h (Some l) k v = Returns h'
        ∧ mapLookup h' (Some l) k = Some v
        ∧ ∀ k', k' ≠ k -> mapLookup h' (Some l) k' = mapLookup h (Some l) k'.
Proof.
  eexists. split; [reflexivity|]. unfold mapLookup. split.
  - rewrite lookup_insert_eq. cbn [default from_option id].
    by rewrite lookup_insert_eq.
  - intros k' Hne. rewrite lookup_insert_eq. cbn [default from_option id].
    by rewrite lookup_insert_ne.
Qed.

(** X9.  An override of the right type for one of the generically set
    modules stores the marshalled override under the module's name, in
    the map that was passed in, and touches no other entry; on the nil
    map the same override panics. *)
Theorem customizeGenesis_stores_override
    (t : ProtoGenesis) (msg : string) (bz : RawMessage)
    (l : nat) (h : Heap) :
  MarshalJSON_proto t msg = Ok bz ->
  (∃ h', customizeGenesis [(protoModule t, VProtoGenesis t msg)] (Some l) h
         = Returns (Some l, None, h')
         ∧ mapLookup h' (Some l) (protoModule t) = Some bz
         ∧ ∀ k, k ≠ protoModule t ->
             mapLookup h' (Some l) k = mapLookup h (Some l) k)
  ∧ customizeGenesis [(protoModule t, VProtoGenesis t msg)] None h
    = Panics "assignment to entry in nil map".
Proof.
  intros Hbz. unfold customizeGenesis. cbn [customizeLoop].
  rewrite genesisSetupFunctions_proto. unfold genStateSetter.
  rewrite Hbz. split.
  - rewrite decide_True by done.
    destruct (mapAssign_lookup h l (protoModule t) bz)
      as (h' & Hassign & Hget & Hframe).
    exists h'. cbn [Must mbind outcome_bind]. rewrite Hassign. simpl.
    done.
  - by rewrite decide_True by done.
Qed.

Lemma fold_left_coins (balances : list Balance) (acc : Coins) :
  fold_left (fun coins b => coins ++ banktypes.Coins b) balances acc
  = acc ++ allCoins balances.
Proof.
  revert acc. induction balances as [|b balances IH]; intros acc; simpl.
  - by rewrite app_nil_r.
  - rewrite IH. unfold allCoins. simpl. by rewrite app_assoc.
Qed.

Lemma amountOf_allCoins denom (balances : list Balance) :
  amountOf denom (allCoins balances) = sumAmounts denom balances.
Proof.
  induction balances as [|b balances IH]; [done|].
  unfold allCoins in *. simpl. by rewrite amountOf_app, IH.
Qed.

(** X10.  A bank override on a map whose bank entry decodes: the entry
    is replaced by the encoding of the prior state with the custom params
    in place of the prior ones, and the custom balances, denom metadata
    and send-enabled entries appended; the supply grows, denom by denom,
    by the coins of the custom balances.  As soon as there is a custom
    balance, the coins of the custom balances, taken together, and the
    prior supply have to be sorted, and their amounts have to stay, denom
    by denom, within the range of an [Int]. *)
Theorem setBankGenesisState_appends
    (l : nat) (h : Heap) (bankGen customGen : banktypes.GenesisState) :
  UnmarshalJSON_bank (mapIndex h (Some l) ModuleName.bank) = Ok bankGen ->
  (banktypes.Balances customGen ≠ [] ->
     isSorted (banktypes.Supply bankGen) = true ∧
     isSorted (allCoins (banktypes.Balances customGen)) = true ∧
     ∀ denom,
       magnitudeOf denom
         (banktypes.Supply bankGen ++
            allCoins (banktypes.Balances customGen)) < 2 ^ MaxBitLen) ->
  (∀ g, ∃ bz, MarshalJSON_bank g = Ok bz) ->
  ∃ supply bz h',
    setBankGenesisState (Some l) (VBankGenesis customGen) h
    = Returns (Some l, None, h')
    ∧ MarshalJSON_bank (bankAfterOverride bankGen customGen supply) = Ok bz
    ∧ mapLookup h' (Some l) ModuleName.bank = Some bz
    ∧ (∀ denom, amountOf denom supply
                = amountOf denom (banktypes.Supply bankGen)
                  + sumAmounts denom (banktypes.Balances customGen))
    ∧ ∀ k, k ≠ ModuleName.bank ->
        mapLookup h' (Some l) k = mapLookup h (Some l) k.
Proof.
  intros Hdec Hsorted Hmarshal. unfold setBankGenesisState. rewrite Hdec.
  cbn [Must mbind outcome_bind].
  assert (∃ supply,
            (if decide (0 < length (banktypes.Balances customGen))%nat
             then
               supply ← Add (banktypes.Supply bankGen)
                          (fold_left (fun coins b => coins ++ banktypes.Coins b)
                             (banktypes.Balances customGen) NewCoins);
               Returns (banktypes.Balances bankGen ++
                          banktypes.Balances customGen, supply)
             else Returns (banktypes.Balances bankGen,
                           banktypes.Supply bankGen))
            = Returns (banktypes.Balances bankGen ++
                         banktypes.Balances customGen, supply)
            ∧ ∀ denom, amountOf denom supply
                       = amountOf denom (banktypes.Supply bankGen)
                         + sumAmounts denom (banktypes.Balances customGen))
    as (supply & -> & Hsupply).
  { case_decide as Hlen.
    - destruct Hsorted as (Hs & Hc & Hfit).
      { intros Hnil. rewrite Hnil in Hlen. simpl in Hlen. lia. }
      rewrite fold_left_coins. simpl.
      destruct (Add_spec _ _ Hs Hc Hfit) as (supply & -> & _ & Hamt).
      exists supply. split; [done|]. intros denom.
      by rewrite Hamt, amountOf_allCoins.
    - destruct (banktypes.Balances customGen) as [|b bs] eqn:Hb;
        [|simpl in Hlen; lia].
      exists (banktypes.Supply bankGen). rewrite app_nil_r.
      split; [done|]. intros denom. simpl. lia. }
  cbn [mbind outcome_bind].
  set (after := banktypes.mkGenesisState _ _ _ _ _).
  assert (after = bankAfterOverride bankGen customGen supply) as ->.
  { unfold after, bankAfterOverride. f_equal.
    - case_decide as Hlen; [done|].
      destruct (banktypes.DenomMetadata customGen);
        [by rewrite app_nil_r | simpl in Hlen; lia].
    - case_decide as Hlen; [done|].
      destruct (banktypes.SendEnabled customGen);
        [by rewrite app_nil_r | simpl in Hlen; lia]. }
  destruct (Hmarshal (bankAfterOverride bankGen customGen supply))
    as [bz Hbz].
  destruct (mapAssign_lookup h l ModuleName.bank bz)
    as (h' & Hassign & Hget & Hframe).
  exists supply, bz, h'. rewrite Hbz. cbn [Must mbind outcome_bind].
  rewrite Hassign. done.
Qed.

(** X11.  A bank override with custom balances panics when their coins,
    taken together in the order of the balances, are not sorted by denom
    -- as they are not, for one, when two balances hold the same two
    denoms. *)
Theorem setBankGenesisState_unsorted_panics
    (genesisState : GenesisState) (h : Heap)
    (bankGen customGen : banktypes.GenesisState) :
  UnmarshalJSON_bank (mapIndex h genesisState ModuleName.bank) = Ok bankGen ->
  banktypes.Balances customGen ≠ [] ->
  isSorted (banktypes.Supply bankGen) = true ->
  isSorted (allCoins (banktypes.Balances customGen)) = false ->
  setBankGenesisState genesisState (VBankGenesis customGen) h
  = Panics "Wrong argument: coins must be sorted".
Proof.
  intros Hdec Hne Hs Hc. unfold setBankGenesisState. rewrite Hdec.
  cbn [Must mbind outcome_bind].
  assert (0 < length (banktypes.Balances customGen))%nat as Hlen.
  { destruct (banktypes.Balances customGen); [done | simpl; lia]. }
  rewrite (decide_True
             (P := (0 < length (banktypes.Balances customGen))%nat))
    by exact Hlen.
  rewrite fold_left_coins. simpl. unfold Add. by rewrite Hs, Hc.
Qed.

(** X12.  An auth override on a map whose auth entry decodes: the entry
    is replaced by the encoding of the prior state with the custom params
    and the custom accounts appended; no other entry changes. *)
Theorem setAuthGenesisState_appends
    (l : nat) (h : Heap) (authGen customGen : authtypes.GenesisState)
    (bz : RawMessage) :
  UnmarshalJSON_auth (mapIndex h (Some l) ModuleName.auth) = Ok authGen ->
  MarshalJSON_auth (authAfterOverride authGen customGen) = Ok bz ->
  ∃ h',
    setAuthGenesisState (Some l) (VAuthGenesis customGen) h
    = Returns (Some l, None, h')
    ∧ mapLookup h' (Some l) ModuleName.auth = Some bz
    ∧ ∀ k, k ≠ ModuleName.auth ->
        mapLookup h' (Some l) k = mapLookup h (Some l) k.
Proof.
  intros Hdec Hbz. unfold setAuthGenesisState. rewrite Hdec.
  cbn [Must mbind outcome_bind].
  set (after := authtypes.mkGenesisState _ _).
  assert (after = authAfterOverride authGen customGen) as ->.
  { unfold after, authAfterOverride. f_equal.
    case_decide as Hlen; [done|].
    destruct (authtypes.Accounts customGen);
      [by rewrite app_nil_r | simpl in Hlen; lia]. }
  rewrite Hbz. cbn [Must mbind outcome_bind].
  destruct (mapAssign_lookup h l ModuleName.auth bz)
    as (h' & Hassign & Hget & Hframe).
  exists h'. rewrite Hassign. done.
Qed.

End SetterFacts.

Section OrderFacts.
Import sdk network.
Context `{codec : AppCodec}.

Lemma mapIndex_mapLookup h gs k :
  mapIndex h gs k = default "" (mapLookup h gs k).
Proof. by destruct gs. Qed.

Lemma mapAssign_local h h2 gs k bz h' :
  mapAssign h gs k bz = Returns h' ->
  ∃ h2', mapAssign h2 gs k bz = Returns h2'
         ∧ mapLookup h2' gs k = mapLookup h' gs k.
Proof.
  destruct gs as [l|]; [|done]. intros Hassign.
  destruct (mapAssign_lookup h l k bz) as (h0 & Hh0 & Hget & _).
  destruct (mapAssign_lookup h2 l k bz) as (h2' & Hh2 & Hget2 & _).
  exists h2'. split; [done|]. rewrite Hh0 in Hassign.
  injection Hassign as <-. by rewrite Hget, Hget2.
Qed.

Lemma genStateSetter_local T moduleName gs v h h' h2 :
  genStateSetter T moduleName gs v h = Returns (gs, None, h') ->
  ∃ h2', genStateSetter T moduleName gs v h2 = Returns (gs, None, h2')
         ∧ mapLookup h2' gs moduleName = mapLookup h' gs moduleName.
Proof.
  unfold genStateSetter. destruct v as [| | |t msg|]; try done.
  case_decide; [|done].
  destruct (MarshalJSON_proto T msg) as [bz|]; simpl; [|done].
  destruct (mapAssign h gs moduleName bz) as [h1|] eqn:Hassign; simpl;
    [|done].
  intros [= <-].
  destruct (mapAssign_local _ h2 _ _ _ _ Hassign) as (h2' & -> & Hget).
  by exists h2'.
Qed.

Lemma setBankGenesisState_local gs v h h' h2 :
  mapLookup h2 gs ModuleName.bank = mapLookup h gs ModuleName.bank ->
  setBankGenesisState gs v h = Returns (gs, None, h') ->
  ∃ h2', setBankGenesisState gs v h2 = Returns (gs, None, h2')
         ∧ mapLookup h2' gs ModuleName.bank = mapLookup h' gs ModuleName.bank.
Proof.
  intros Heq. unfold setBankGenesisState.
  destruct v as [|customGen| | |]; try done.
  rewrite (mapIndex_mapLookup h2), Heq, <- mapIndex_mapLookup.
  destruct (UnmarshalJSON_bank _) as [bankGen|]; simpl; [|done].
  match goal with
  | |- context [mbind _ ?m] => destruct m as [[balances supply]|]
  end; simpl; [|done].
  destruct (MarshalJSON_bank _) as [bz|]; simpl; [|done].
  destruct (mapAssign h gs ModuleName.bank bz) as [h1|] eqn:Hassign; simpl;
    [|done].
  intros [= <-].
  destruct (mapAssign_local _ h2 _ _ _ _ Hassign) as (h2' & -> & Hget).
  by exists h2'.
Qed.

Lemma setAuthGenesisState_local gs v h h' h2 :
  mapLookup h2 gs ModuleName.auth = mapLookup h gs ModuleName.auth ->
  setAuthGenesisState gs v h = Returns (gs, None, h') ->
  ∃ h2', setAuthGenesisState gs v h2 = Returns (gs, None, h2')
         ∧ mapLookup h2' gs ModuleName.auth = mapLookup h' gs ModuleName.auth.
Proof.
  intros Heq. unfold setAuthGenesisState.
  destruct v as [| |customGen| |]; try done.
  rewrite (mapIndex_mapLookup h2), Heq, <- mapIndex_mapLookup.
  destruct (UnmarshalJSON_auth _) as [authGen|]; simpl; [|done].
  destruct (MarshalJSON_auth _) as [bz|]; simpl; [|done].
  destruct (mapAssign h gs ModuleName.auth bz) as [h1|] eqn:Hassign; simpl;
    [|done].
  intros [= <-].
  destruct (mapAssign_local _ h2 _ _ _ _ Hassign) as (h2' & -> & Hget).
  by exists h2'.
Qed.

(** What a setter does depends on the heap through its own module's
    entry only. *)
Lemma setter_local mod_ fn gs v h h' h2 :
  genesisSetupFunctions !! mod_ = Some fn ->
  mapLookup h2 gs mod_ = mapLookup h gs mod_ ->
  fn gs v h = Returns (gs, None, h') ->
  ∃ h2', fn gs v h2 = Returns (gs, None, h2')
         ∧ mapLookup h2' gs mod_ = mapLookup h' gs mod_.
Proof.
  intros Hfn Heq. apply elem_of_list_to_map_2 in Hfn.
  repeat (apply elem_of_cons in Hfn as [[= -> ->]|Hfn]).
  all: try (by apply elem_of_nil in Hfn).
  all: try (by apply genStateSetter_local).
  - by apply setBankGenesisState_local.
  - by apply setAuthGenesisState_local.
  - intros [= <-]. by exists h2.
Qed.

Lemma customizeLoop_each entries gs err h h1 :
  customizeLoop entries gs err h = Returns (gs, None, h1) ->
  NoDup (entries.*1) ->
  ∀ mod_ v, (mod_, v) ∈ entries ->
    ∃ fn hm, genesisSetupFunctions !! mod_ = Some fn
             ∧ fn gs v h = Returns (gs, None, hm)
             ∧ mapLookup h1 gs mod_ = mapLookup hm gs mod_.
Proof.
  revert err h. induction entries as [|[m v0] entries IH]; intros err h.
  - intros _ _ mod_ v Hin. by apply elem_of_nil in Hin.
  - cbn [customizeLoop]. rewrite fmap_cons. cbn [fst].
    intros Hrun [Hm Hnd]%NoDup_cons mod_ v Hin.
    destruct (genesisSetupFunctions !! m) as [fn0|] eqn:Hfn0; [|done].
    destruct (fn0 gs v0 h) as [[[gs2 [e|]] h2]|] eqn:Hset; simpl in Hrun;
      [done| |done].
    pose proof (setter_same_map _ _ _ _ _ _ _ Hfn0 Hset) as ->.
    apply elem_of_cons in Hin as [[= -> ->]|Hin].
    + exists fn0, h2. split; [done|]. split; [done|].
      by destruct (customizeLoop_frame _ _ _ _ _ _ m Hrun Hm).
    + destruct (IH _ _ Hrun Hnd mod_ v Hin) as (fn & hm2 & Hfn & Hfn2 & Hget).
      assert (mod_ ≠ m) as Hne.
      { intros ->. apply Hm. apply list_elem_of_fmap. by exists (m, v). }
      destruct (setter_frame _ _ _ _ _ _ _ mod_ Hfn0 Hset Hne) as [_ Hframe].
      destruct (setter_local _ _ _ _ _ _ h Hfn (eq_sym Hframe) Hfn2)
        as (hm & Hrunm & Hgetm).
      exists fn, hm. split; [done|]. split; [done|]. by rewrite Hget, Hgetm.
Qed.

Lemma customizeLoop_succeeds entries gs h :
  NoDup (entries.*1) ->
  (∀ mod_ v, (mod_, v) ∈ entries ->
     ∃ fn hm, genesisSetupFunctions !! mod_ = Some fn
              ∧ fn gs v h = Returns (gs, None, hm)) ->
  ∃ h1, customizeLoop entries gs None h = Returns (gs, None, h1).
Proof.
  revert h. induction entries as [|[m v0] entries IH]; intros h.
  - intros _ _. by exists h.
  - rewrite fmap_cons. cbn [fst customizeLoop].
    intros [Hm Hnd]%NoDup_cons Hall.
    destruct (Hall m v0) as (fn0 & h2 & Hfn0 & Hset);
      [apply list_elem_of_here|].
    rewrite Hfn0, Hset. simpl. apply (IH h2 Hnd).
    intros mod_ v Hin.
    destruct (Hall mod_ v) as (fn & hm & Hfn & Hrunm);
      [by apply list_elem_of_further|].
    assert (mod_ ≠ m) as Hne.
    { intros ->. apply Hm. apply list_elem_of_fmap. by exists (m, v). }
    destruct (setter_frame _ _ _ _ _ _ _ mod_ Hfn0 Hset Hne) as [_ Hframe].
    destruct (setter_local _ _ _ _ _ _ h2 Hfn Hframe Hrunm)
      as (hm2 & Hrun2 & _).
    by exists fn, hm2.
Qed.

(** X13.  In a successful [customizeGenesis] the overrides do not
    interfere: whatever the order of the visit, the entry each overridden
    module ends up with is the one its setter, run alone on the genesis
    as it was before the call, would have left. *)
Theorem customizeGenesis_overrides_independent
    (customGen : CustomGenesisState) (entries : list (string * GoValue))
    (genesisState gs1 : GenesisState) (h h1 : Heap)
    (mod_ : string) (v : GoValue) :
  rangeOrder customGen entries ->
  customizeGenesis entries genesisState h = Returns (gs1, None, h1) ->
  customGen !! mod_ = Some v ->
  ∃ fn hm, genesisSetupFunctions !! mod_ = Some fn
           ∧ fn genesisState v h = Returns (genesisState, None, hm)
           ∧ mapLookup h1 genesisState mod_ = mapLookup hm genesisState mod_.
Proof.
  intros Horder Hrun Hv. unfold customizeGenesis in Hrun.
  pose proof (customizeLoop_same_map _ _ _ _ _ _ Hrun) as ->.
  apply (customizeLoop_each _ _ _ _ _ Hrun).
  - by eapply rangeOrder_NoDup.
  - unfold rangeOrder in Horder. rewrite Horder.
    by apply elem_of_map_to_list.
Qed.

(** X14.  Whether and how [customizeGenesis] succeeds does not depend on
    the order in which [range] yields the override entries: if one order
    returns without error, so does every other, with the same map and the
    same entries in it. *)
Theorem customizeGenesis_order_independent
    (customGen : CustomGenesisState)
    (entries1 entries2 : list (string * GoValue))
    (genesisState gs1 : GenesisState) (h h1 : Heap) :
  rangeOrder customGen entries1 ->
  rangeOrder customGen entries2 ->
  customizeGenesis entries1 genesisState h = Returns (gs1, None, h1) ->
  ∃ h2, customizeGenesis entries2 genesisState h = Returns (gs1, None, h2)
        ∧ ∀ k, mapLookup h2 genesisState k = mapLookup h1 genesisState k.
Proof.
  intros Ho1 Ho2 Hrun. unfold customizeGenesis in *.
  pose proof (customizeLoop_same_map _ _ _ _ _ _ Hrun) as ->.
  pose proof (rangeOrder_NoDup _ _ Ho1) as Hnd1.
  pose proof (rangeOrder_NoDup _ _ Ho2) as Hnd2.
  assert (entries2 ≡ₚ entries1) as Hperm.
  { unfold rangeOrder in *. by rewrite Ho1, Ho2. }
  destruct (customizeLoop_succeeds entries2 genesisState h Hnd2)
    as [h2 Hrun2'].
  { intros mod_ v Hin. rewrite Hperm in Hin.
    destruct (customizeLoop_each _ _ _ _ _ Hrun Hnd1 mod_ v Hin)
      as (fn & hm & Hfn & Hrunm & _).
    by exists fn, hm. }
  exists h2. split; [done|]. intros k.
  destruct (decide (k ∈ entries1.*1)) as [Hin|Hnin].
  - apply list_elem_of_fmap in Hin as ([k' v] & -> & Hin). simpl.
    destruct (customizeLoop_each _ _ _ _ _ Hrun Hnd1 k' v Hin)
      as (fn & hm & Hfn & Hrunm & Hget).
    rewrite <- Hperm in Hin.
    destruct (customizeLoop_each _ _ _ _ _ Hrun2' Hnd2 k' v Hin)
      as (fn' & hm' & Hfn' & Hrunm' & Hget').
    rewrite Hget, Hget'. congruence.
  - destruct (customizeLoop_frame _ _ _ _ _ _ k Hrun Hnin) as [_ ->].
    rewrite <- Hperm in Hnin.
    by destruct (customizeLoop_frame _ _ _ _ _ _ k Hrun2' Hnin) as [_ ->].
Qed.

End OrderFacts.

(* ===================================================================== *)
(** ** Properties of the account, delegation and slashing builders *)
(* ===================================================================== *)

Section BuilderFacts.
Import sdk network.
Context `{cfg : Config} `{kc : KeyCodec} `{pf : Prefunding}
        `{cc : ConsAddrCodec}.

Lemma createGenesisAccounts_map (accounts : list AccAddress) :
  createGenesisAccounts accounts
  = map (fun acc => NewBaseAccount acc 0 0) accounts.
Proof. unfold createGenesisAccounts. by rewrite fold_left_snoc. Qed.

(** X15.  The genesis accounts and the balances made for one list of
    addresses go together position by position: the account and the
    balance at each position carry the same address string; every
    account has account number 0, sequence 0 and no public key. *)
Theorem createGenesisAccounts_match_balances
    (accounts : list AccAddress)
    (denomDecimals : gmap string evmtypes.Decimals)
    (balances : list Balance) :
  createBalances accounts denomDecimals = Returns balances ->
  Forall2
    (fun acct b =>
       authtypes.Address acct = banktypes.Address b
       ∧ authtypes.PubKey acct = None
       ∧ authtypes.AccountNumber acct = 0
       ∧ authtypes.Sequence acct = 0)
    (createGenesisAccounts accounts) balances.
Proof.
  intros Hrun. apply createBalances_shape in Hrun as [coins ->].
  rewrite createGenesisAccounts_map.
  induction accounts as [|acc accounts IH]; simpl; by constructor.
Qed.

Lemma createDelegations_map validators fromAccount :
  createDelegations validators fromAccount
  = map (fun val =>
           stakingtypes.NewDelegation (AccAddress_String fromAccount)
             (stakingtypes.OperatorAddress val) LegacyOneDec)
      validators.
Proof. unfold createDelegations. by rewrite fold_left_snoc. Qed.

(** X16.  The delegations made for the validators that
    [createStakingValidators] returned go with them position by
    position: each names its validator's operator address, is made by the
    given account, and carries exactly the delegator shares its validator
    records. *)
Theorem createDelegations_match_validators
    (tmValidators : list (option cmttypes.Validator)) (bondedAmt : Z)
    (operatorsAddresses : list AccAddress)
    (vs : list stakingtypes.Validator) (err : error)
    (fromAccount : AccAddress) :
  createStakingValidators tmValidators bondedAmt operatorsAddresses
  = Returns (vs, err) ->
  Forall2
    (fun v d =>
       stakingtypes.ValidatorAddress d = stakingtypes.OperatorAddress v
       ∧ stakingtypes.DelegatorAddress d = AccAddress_String fromAccount
       ∧ stakingtypes.Shares d = stakingtypes.DelegatorShares v)
    vs (createDelegations vs fromAccount).
Proof.
  intros Hrun. apply createStakingValidators_built in Hrun.
  rewrite createDelegations_map.
  induction Hrun as [|v vs (val & op & Hb) _ IH]; simpl; constructor;
    [|exact IH].
  by destruct Hb.
Qed.

Lemma slashingLoop_spec (vals : list stakingtypes.Validator)
    (addrs : list string)
    (doneS : list slashingtypes.SigningInfo)
    (doneM : list slashingtypes.ValidatorMissedBlocks)
    (restS : list slashingtypes.SigningInfo)
    (restM : list slashingtypes.ValidatorMissedBlocks) :
  Forall2 consAddrOf vals addrs ->
  length doneS = length doneM ->
  length restS = length vals -> length restM = length vals ->
  slashingLoop (length doneS) vals (doneS ++ restS) (doneM ++ restM)
  = (mkSlashingCustomGenesisState
       (doneS ++ map signingInfoFor addrs)
       (doneM ++ map missedBlocksFor addrs), None).
Proof.
  intros Hall. revert doneS doneM restS restM.
  induction Hall as [|val addr vals addrs (bz & Hbz & Haddr) _ IH];
    intros doneS doneM restS restM Hd HS HM.
  - destruct restS, restM; try discriminate. done.
  - destruct restS as [|zs restS], restM as [|zm restM]; try discriminate.
    cbn [slashingLoop]. rewrite Hbz, Haddr.
    rewrite insert_app_r_alt, Nat.sub_diag by done.
    rewrite (insert_app_r_alt doneM), Hd, Nat.sub_diag by lia.
    cbn [insert list_insert].
    replace (S (length doneM))
      with (length (doneS ++ [signingInfoFor addr]))
      by (rewrite length_app; simpl; lia).
    rewrite (cons_middle _ doneS restS), (cons_middle _ doneM restM),
      !app_assoc.
    change (slashingtypes.mkSigningInfo addr _) with (signingInfoFor addr).
    change (slashingtypes.mkValidatorMissedBlocks addr [])
      with (missedBlocksFor addr).
    rewrite IH.
    + simpl. by rewrite <- !app_assoc.
    + rewrite !length_app. simpl. lia.
    + simpl in HS. lia.
    + simpl in HM. lia.
Qed.

(** X17.  When the consensus address of every validator can be derived
    and printed, [getValidatorsSlashingGen] returns without error one
    signing-info record and one missed-blocks record per validator, in
    the validators' order, each carrying its validator's printed
    consensus address (the signing info in both of its address fields)
    and nothing else. *)
Theorem getValidatorsSlashingGen_records
    (validators : list stakingtypes.Validator) (addrs : list string) :
  Forall2 consAddrOf validators addrs ->
  getValidatorsSlashingGen validators
  = (mkSlashingCustomGenesisState
       (map signingInfoFor addrs) (map missedBlocksFor addrs), None).
Proof.
  intros Hall. unfold getValidatorsSlashingGen.
  apply (slashingLoop_spec validators addrs [] []); [done | done |..];
    apply length_replicate.
Qed.

Lemma slashingLoop_first_failure i pre val post e signInfo missed :
  (∀ v, v ∈ pre -> ∃ consAddr, consAddrOf v consAddr) ->
  consAddrFails val e ->
  slashingLoop i (pre ++ val :: post) signInfo missed
  = (mkSlashingCustomGenesisState [] [], Some e).
Proof.
  intros Hpre Hfail. revert i signInfo missed.
  induction pre as [|v pre IH]; intros i signInfo missed; cbn [app slashingLoop].
  - destruct Hfail as [->|(bz & -> & ->)]; done.
  - destruct (Hpre v) as (consAddr & bz & -> & ->); [apply list_elem_of_here|].
    apply IH. intros v' Hv'. apply Hpre. by apply list_elem_of_further.
Qed.

(** X18.  When the consensus address of some validator cannot be derived
    or printed, [getValidatorsSlashingGen] returns the error of the first
    such validator together with an empty state: the records filled in
    before the failure are not handed out. *)
Theorem getValidatorsSlashingGen_first_failure
    (pre post : list stakingtypes.Validator) (val : stakingtypes.Validator)
    (e : string) :
  (∀ v, v ∈ pre -> ∃ consAddr, consAddrOf v consAddr) ->
  consAddrFails val e ->
  getValidatorsSlashingGen (pre ++ val :: post)
  = (mkSlashingCustomGenesisState [] [], Some e).
Proof.
  intros Hpre Hfail. unfold getValidatorsSlashingGen.
  by apply slashingLoop_first_failure.
Qed.

End BuilderFacts.

(* ===================================================================== *)
(** ** Properties of the coordinator utilities *)
(* ===================================================================== *)

Section CoordinatorFacts.
Import sdkglobals coordinator.
Context `{ibc : IBCTesting}.

(** *** mergeMaps *)

Lemma mergeLoop_spec l1 (entries : list (string * TestChain)) (h : ChainMaps) :
  ∃ h', mergeLoop (Some l1) entries h = Returns h'
        ∧ chainsOf h' (Some l1)
          = foldl (fun m e => <[e.1 := e.2]> m) (chainsOf h (Some l1)) entries
        ∧ ∀ l, l ≠ l1 -> h' !! l = h !! l.
Proof.
  revert h. induction entries as [|[k v] entries IH]; intros h.
  - by exists h.
  - cbn [mergeLoop chainAssign mbind outcome_bind].
    destruct (IH (<[l1 := <[k := v]> (default ∅ (h !! l1))]> h))
      as (h' & Hrun & Hget & Hframe).
    exists h'. split; [exact Hrun|]. split.
    + rewrite Hget. cbn [foldl chainsOf fst snd].
      by rewrite lookup_insert_eq.
    + intros l Hne. rewrite Hframe by done. by rewrite lookup_insert_ne.
Qed.

Lemma foldl_insert_union {V} (entries : list (string * V))
    (m : gmap string V) :
  NoDup (entries.*1) ->
  foldl (fun m e => <[e.1 := e.2]> m) m entries
  = (list_to_map entries : gmap string V) ∪ m.
Proof.
  revert m. induction entries as [|[k v] entries IH]; intros m Hnd.
  - cbn [foldl list_to_map foldr]. by rewrite (left_id_L ∅ (∪)).
  - rewrite fmap_cons in Hnd. apply NoDup_cons in Hnd as [Hk Hnd].
    cbn [foldl fst snd list_to_map foldr]. rewrite IH by done.
    rewrite <- insert_union_l, <- insert_union_r; [done|].
    by apply not_elem_of_list_to_map_1.
Qed.

(** X19.  [mergeMaps] writes into its first map: after the call that
    very map holds, under every key, the chain of the second map if the
    second map has the key, and otherwise what it held before; no other
    map changes.  This is so in whatever order [range] yields the entries
    of the second map. *)
Theorem mergeMaps_second_wins
    (l1 : nat) (m2 : ChainMapRef) (entries : list (string * TestChain))
    (h : ChainMaps) :
  rangeOfMap h m2 entries ->
  ∃ h', mergeMaps (Some l1) entries h = Returns (Some l1, h')
        ∧ (∀ k, chainsOf h' (Some l1) !! k
                = match chainsOf h m2 !! k with
                  | Some chain => Some chain
                  | None => chainsOf h (Some l1) !! k
                  end)
        ∧ ∀ l, l ≠ l1 -> h' !! l = h !! l.
Proof.
  intros Horder. unfold mergeMaps.
  destruct (mergeLoop_spec l1 entries h) as (h' & -> & Hget & Hframe).
  exists h'. split; [done|]. split; [|done].
  intros k. rewrite Hget. unfold rangeOfMap in Horder.
  rewrite foldl_insert_union.
  - rewrite (list_to_map_proper entries (map_to_list (chainsOf h m2))).
    + rewrite list_to_map_to_list, lookup_union.
      by destruct (chainsOf h m2 !! k), (chainsOf h (Some l1) !! k).
    + rewrite Horder. apply NoDup_fst_map_to_list.
    + done.
  - rewrite Horder. apply NoDup_fst_map_to_list.
Qed.

(** X20.  With the nil map as its first argument, [mergeMaps] returns
    nil when the second map has no entries, and panics on the first
    write when it has any. *)
Theorem mergeMaps_into_nil
    (m2 : ChainMapRef) (entries : list (string * TestChain))
    (h : ChainMaps) :
  rangeOfMap h m2 entries ->
  (chainsOf h m2 = ∅ -> mergeMaps None entries h = Returns (None, h))
  ∧ (chainsOf h m2 ≠ ∅ ->
       mergeMaps None entries h = Panics "assignment to entry in nil map").
Proof.
  unfold rangeOfMap. intros Horder. split.
  - intros Hempty. rewrite Hempty, map_to_list_empty in Horder.
    by apply Permutation_nil_r in Horder as ->.
  - intros Hne. destruct entries as [|[k v] entries]; [|done].
    destruct Hne. apply map_to_list_empty_iff.
    symmetry. by apply Permutation_nil_l.
Qed.

(** *** generateDummyChains *)

Global Instance dummyChainID_inj : Inj (=) (=) dummyChainID.
Proof.
  intros i j Heq. unfold dummyChainID, fmt_d in Heq.
  apply (inj (String.app "dummychain-")) in Heq. by apply (inj pretty).
Qed.

Lemma dummyLoop_spec (fuel : nat) (i : Z) (coord : Coordinator)
    (ibcChains : gmap string TestChain) (filled rest : list string) :
  (∀ c id, ∃ r, NewTestChain c id = Returns r) ->
  1 <= i -> length filled = Z.to_nat (i - 1) -> length rest = fuel ->
  ∃ ibcChains' coord',
    dummyLoop fuel i coord ibcChains (filled ++ rest)
    = Returns (ibcChains',
               filled ++ map dummyChainID (seqZ i (Z.of_nat fuel)), coord')
    ∧ ∀ id, is_Some (ibcChains' !! id)
            <-> is_Some (ibcChains !! id)
                ∨ id ∈ map dummyChainID (seqZ i (Z.of_nat fuel)).
Proof.
  intros Htotal. revert i coord ibcChains filled rest.
  induction fuel as [|fuel IH]; intros i coord ibcChains filled rest Hi Hf Hr.
  - destruct rest; [|discriminate]. exists ibcChains, coord.
    split; [done|]. intros id. simpl. split; [by left|].
    intros [Hid|Hin]; [done|]. by apply elem_of_nil in Hin.
  - destruct rest as [|r rest]; [discriminate|]. cbn [dummyLoop].
    fold (dummyChainID i).
    destruct (Htotal coord (dummyChainID i)) as [[chain coord1] ->].
    cbn [mbind outcome_bind].
    rewrite insert_app_r_alt, <- Hf, Nat.sub_diag by lia.
    cbn [insert list_insert].
    rewrite (cons_middle _ filled rest), app_assoc.
    destruct (IH (i + 1) coord1 (<[dummyChainID i := chain]> ibcChains)
                (filled ++ [dummyChainID i]) rest)
      as (chains' & coord' & -> & Hdom).
    + lia.
    + rewrite length_app. simpl. lia.
    + simpl in Hr. lia.
    + exists chains', coord'.
      rewrite (seqZ_cons i (Z.of_nat (S fuel))) by lia.
      replace (Z.pred (Z.of_nat (S fuel))) with (Z.of_nat fuel) by lia.
      replace (Z.succ i) with (i + 1) by lia.
      split; [by rewrite <- app_assoc|].
      intros id. rewrite Hdom. cbn [map].
      rewrite elem_of_cons.
      destruct (decide (id = dummyChainID i)) as [->|Hne].
      * rewrite lookup_insert_eq. split; [by right; left | by left; eauto].
      * rewrite lookup_insert_ne by done. tauto.
Qed.

(** X21.  For a count [n >= 0], an unsealed config and a harness whose
    [NewTestChain] returns, [generateDummyChains] returns the identifiers
    [dummychain-1], ..., [dummychain-n] in this order, which are pairwise
    different, and a map that has a chain under each of them and under
    nothing else. *)
Theorem generateDummyChains_ids
    (coord : Coordinator) (numberOfChains : Z) (g : Globals) :
  0 <= numberOfChains ->
  sealed g = false ->
  (∀ c id, ∃ r, NewTestChain c id = Returns r) ->
  ∃ ibcChains coord' g',
    generateDummyChains coord numberOfChains g
    = Returns (ibcChains, map dummyChainID (seqZ 1 numberOfChains),
               coord', g')
    ∧ length (map dummyChainID (seqZ 1 numberOfChains))
      = Z.to_nat numberOfChains
    ∧ NoDup (map dummyChainID (seqZ 1 numberOfChains))
    ∧ ∀ id, is_Some (ibcChains !! id)
            <-> id ∈ map dummyChainID (seqZ 1 numberOfChains).
Proof.
  intros Hn Hseal Htotal. unfold generateDummyChains.
  rewrite decide_False by lia.
  unfold SetBech32PrefixForAccount, SetBech32PrefixForValidator,
    SetBech32PrefixForConsensusNode, assertNotSealed.
  cbn [sealed mbind outcome_bind]. rewrite Hseal.
  cbn [sealed mbind outcome_bind].
  destruct (dummyLoop_spec (Z.to_nat numberOfChains) 1 coord ∅ []
              (replicate (Z.to_nat numberOfChains) "") Htotal)
    as (chains & coord' & Hrun & Hdom); [lia | done | apply length_replicate|].
  cbn [app] in Hrun. rewrite Hrun. cbn [mbind outcome_bind].
  rewrite Z2Nat.id in Hdom |- * by lia.
  eexists chains, coord', _. split; [reflexivity|]. split_and!.
  - rewrite length_map, length_seqZ. lia.
  - apply (NoDup_fmap_2 dummyChainID), NoDup_seqZ.
  - intros id. rewrite Hdom, lookup_empty. split; [|by right].
    intros [[? [=]]|Hin]; done.
Qed.

(** X22.  Whenever [generateDummyChains] returns, it leaves the
    process-wide bech32 prefixes at the SDK's own ([cosmos...]) and the
    address cache switched off, whatever they were before and however
    many chains were asked for. *)
Theorem generateDummyChains_resets_prefixes
    (coord coord' : Coordinator) (numberOfChains : Z) (g g' : Globals)
    (ibcChains : gmap string TestChain) (ids : list string) :
  generateDummyChains coord numberOfChains g
  = Returns (ibcChains, ids, coord', g') ->
  g' = cosmosDefaults false.
Proof.
  unfold generateDummyChains. case_decide; [done|].
  unfold SetBech32PrefixForAccount, SetBech32PrefixForValidator,
    SetBech32PrefixForConsensusNode, assertNotSealed.
  destruct (sealed g) eqn:Hseal; cbn [sealed mbind outcome_bind]; [done|].
  destruct (dummyLoop _ _ _ _ _) as [[[chains ids1] coord1]|];
    cbn [mbind outcome_bind]; [|done].
  by intros [= _ _ _ <-].
Qed.

(** X23.  [generateDummyChains] panics on a negative count, and on a
    sealed config; in both cases before any chain is made. *)
Theorem generateDummyChains_panics
    (coord : Coordinator) (numberOfChains : Z) (g : Globals) :
  (numberOfChains < 0 ->
     generateDummyChains coord numberOfChains g
     = Panics "runtime error: makeslice: len out of range")
  ∧ (0 <= numberOfChains -> sealed g = true ->
       generateDummyChains coord numberOfChains g
       = Panics "Config is sealed").
Proof.
  unfold generateDummyChains. split.
  - intros Hn. by rewrite decide_True.
  - intros Hn Hseal. rewrite decide_False by lia.
    unfold SetBech32PrefixForAccount, assertNotSealed. by rewrite Hseal.
Qed.

(** *** getIBCChains *)

Lemma getIBCChainsLoop_spec (coord : Coordinator) (chains : list Network)
    (ibcChains : gmap string TestChain) :
  (∀ n c, ∃ r, GetIBCChain n c = Returns r) ->
  ∃ ibcChains' coord',
    getIBCChainsLoop coord chains ibcChains = Returns (ibcChains', coord')
    ∧ ∀ id, is_Some (ibcChains' !! id)
            <-> is_Some (ibcChains !! id) ∨ id ∈ map GetChainID chains.
Proof.
  intros Htotal. revert coord ibcChains.
  induction chains as [|chain chains IH]; intros coord ibcChains.
  - exists ibcChains, coord. split; [done|]. intros id. simpl.
    split; [by left|]. intros [Hid|Hin]; [done|]. by apply elem_of_nil in Hin.
  - cbn [getIBCChainsLoop].
    destruct (Htotal chain coord) as [[ibcChain coord1] ->].
    cbn [mbind outcome_bind].
    destruct (IH coord1 (<[GetChainID chain := ibcChain]> ibcChains))
      as (chains' & coord' & -> & Hdom).
    exists chains', coord'. split; [done|]. intros id. rewrite Hdom.
    cbn [map]. rewrite elem_of_cons.
    destruct (decide (id = GetChainID chain)) as [->|Hne].
    + rewrite lookup_insert_eq. split; [by right; left | by left; eauto].
    + rewrite lookup_insert_ne by done. tauto.
Qed.

(** X24.  When the networks can produce their IBC chains,
    [getIBCChains] returns a map whose keys are exactly the chain
    identifiers of the networks it was given. *)
Theorem getIBCChains_keys (coord : Coordinator) (chains : list Network) :
  (∀ n c, ∃ r, GetIBCChain n c = Returns r) ->
  ∃ ibcChains coord',
    getIBCChains coord chains = Returns (ibcChains, coord')
    ∧ ∀ id, is_Some (ibcChains !! id) <-> id ∈ map GetChainID chains.
Proof.
  intros Htotal. unfold getIBCChains.
  destruct (getIBCChainsLoop_spec coord chains ∅ Htotal)
    as (ibcChains & coord' & -> & Hdom).
  exists ibcChains, coord'. split; [done|]. intros id.
  rewrite Hdom, lookup_empty. split; [|by right].
  intros [[? [=]]|Hin]; done.
Qed.

End CoordinatorFacts.

(* ===================================================================== *)
(** ** The default genesis *)
(* ===================================================================== *)

Section DefaultGenesisFacts.
Import sdk network.
Context `{cfg : Config} `{gd : GenesisDefaults} `{codec : AppCodec}.

Lemma govMinDeposit_factor :
  govMinDeposit * evmtypes.ConversionFactor GetEVMCoinDecimals = 10 ^ 18
  ∧ 0 < govMinDeposit.
Proof.
  unfold govMinDeposit, evmtypes.ConversionFactor.
  case_decide; vm_compute; split; congruence.
Qed.

Lemma minDeposit_coins (denom : string) :
  validDenom denom = true ->
  (coin ← NewCoin denom govMinDeposit; NewCoins1 coin)
  = Returns [mkCoin denom govMinDeposit].
Proof.
  intros Hdenom. destruct govMinDeposit_factor as [_ Hpos].
  unfold NewCoin. rewrite Hdenom. cbn [negb].
  rewrite decide_False by lia. cbn [mbind outcome_bind].
  unfold NewCoins1, Coin_IsZero. cbn [Amount Denom].
  rewrite Hdenom. cbn [negb].
  destruct (Z.eqb_spec govMinDeposit 0) as [Hz|_]; [lia|].
  by rewrite decide_False by lia.
Qed.

Lemma setDefaultGovGenesisState_eq gs (p : GovCustomGenesisState) h :
  validDenom (gov_denom p) = true ->
  setDefaultGovGenesisState gs p h
  = (bz ← Must (MarshalJSON_gov (defaultGovGenesis p));
     h' ← mapAssign h gs ModuleName.gov bz;
     Returns (gs, h')).
Proof.
  intros Hdenom. unfold setDefaultGovGenesisState, Int_Quo.
  rewrite decide_False
    by (unfold evmtypes.ConversionFactor; case_decide; lia).
  cbn [mbind outcome_bind].
  change (1000000000000000000
          `quot` evmtypes.ConversionFactor GetEVMCoinDecimals)
    with govMinDeposit.
  pose proof (minDeposit_coins _ Hdenom) as Hcoins.
  destruct (NewCoin (gov_denom p) govMinDeposit) as [coin|msg];
    [|discriminate].
  cbn [mbind outcome_bind] in *. rewrite Hcoins.
  cbn [mbind outcome_bind]. reflexivity.
Qed.

(** X25.  The default gov genesis asks, as minimum and as expedited
    minimum deposit, for one whole token of the configured denom in the
    precision of the EVM coin: an amount that times the conversion factor
    of that precision is 10^18 (so 10^6 on a six-decimals chain).  With a
    valid denom the encoding of that state ends up under the gov key, no
    other entry changes, and the division never panics; with an invalid
    denom the call panics. *)
Theorem setDefaultGovGenesisState_min_deposit
    (l : nat) (h : Heap) (p : GovCustomGenesisState) (bz : RawMessage) :
  MarshalJSON_gov
    (govtypesv1.mkGenesisState
       (govtypesv1.StartingProposalId gov_DefaultGenesisState)
       (govtypesv1.mkParams
          [mkCoin (gov_denom p) govMinDeposit]
          [mkCoin (gov_denom p) govMinDeposit]
          (govtypesv1.OtherParams
             (govtypesv1.GenesisParams gov_DefaultGenesisState))))
  = Ok bz ->
  govMinDeposit * evmtypes.ConversionFactor GetEVMCoinDecimals = 10 ^ 18
  ∧ (GetEVMCoinDecimals = evmtypes.SixDecimals -> govMinDeposit = 10 ^ 6)
  ∧ (validDenom (gov_denom p) = true ->
     ∃ h', setDefaultGovGenesisState (Some l) p h = Returns (Some l, h')
           ∧ mapLookup h' (Some l) ModuleName.gov = Some bz
           ∧ ∀ k, k ≠ ModuleName.gov ->
               mapLookup h' (Some l) k = mapLookup h (Some l) k)
  ∧ (validDenom (gov_denom p) = false ->
     setDefaultGovGenesisState (Some l) p h
     = Panics ("invalid denom: " +:+ gov_denom p)).
Proof.
  intros Hbz. split; [apply govMinDeposit_factor|].
  split.
  { intros Hsix. unfold govMinDeposit. rewrite Hsix. reflexivity. }
  split.
  - intros Hdenom. rewrite setDefaultGovGenesisState_eq by done.
    fold (defaultGovGenesis p) in Hbz. rewrite Hbz.
    cbn [Must mbind outcome_bind].
    destruct (mapAssign_lookup h l ModuleName.gov bz)
      as (h' & Hassign & Hget & Hframe).
    exists h'. rewrite Hassign. done.
  - intros Hdenom. unfold setDefaultGovGenesisState, Int_Quo.
    rewrite decide_False
      by (unfold evmtypes.ConversionFactor; case_decide; lia).
    cbn [mbind outcome_bind]. unfold NewCoin. rewrite Hdenom. reflexivity.
Qed.

(** X26.  When the accounts pack, the eight states encode and the gov
    denom is valid, the default genesis is built in a map of its own: the
    application's default genesis with the entries of auth, staking,
    bank, gov, feemarket, slashing, mint and erc20 replaced, each by the
    encoding of the state its setter builds from the parameters.  No
    setter disturbs the entry of another, every other module keeps the
    application's default, and the maps that existed before are left as
    they were. *)
Theorem newDefaultGenesisState_entries
    (params : defaultGenesisParams) (h : Heap)
    (packed : list stakingtypes.Any)
    (bzAuth bzStaking bzBank bzGov bzFeeMarket bzSlashing bzMint bzErc20
       : RawMessage) :
  PackAccounts (genAccounts params) = Ok packed ->
  MarshalJSON_auth (defaultAuthGenesis packed) = Ok bzAuth ->
  MarshalJSON_staking (defaultStakingGenesis (staking params))
  = Ok bzStaking ->
  MarshalJSON_bank (defaultBankGenesis (bank params)) = Ok bzBank ->
  validDenom (gov_denom (gov params)) = true ->
  MarshalJSON_gov (defaultGovGenesis (gov params)) = Ok bzGov ->
  MarshalJSON_feemarket (defaultFeeMarketGenesis (feemarket params))
  = Ok bzFeeMarket ->
  MarshalJSON_slashing (defaultSlashingGenesis (slashing params))
  = Ok bzSlashing ->
  MarshalJSON_mint (defaultMintGenesis (mint params)) = Ok bzMint ->
  MarshalJSON_erc20 defaultErc20Genesis = Ok bzErc20 ->
  ∃ l h',
    newDefaultGenesisState params h = Returns (Some l, h')
    ∧ h !! l = None
    ∧ (∀ l', l' ≠ l -> h' !! l' = h !! l')
    ∧ mapLookup h' (Some l) ModuleName.auth = Some bzAuth
    ∧ mapLookup h' (Some l) ModuleName.staking = Some bzStaking
    ∧ mapLookup h' (Some l) ModuleName.bank = Some bzBank
    ∧ mapLookup h' (Some l) ModuleName.gov = Some bzGov
    ∧ mapLookup h' (Some l) ModuleName.feemarket = Some bzFeeMarket
    ∧ mapLookup h' (Some l) ModuleName.slashing = Some bzSlashing
    ∧ mapLookup h' (Some l) ModuleName.mint = Some bzMint
    ∧ mapLookup h' (Some l) ModuleName.erc20 = Some bzErc20
    ∧ ∀ k, k ∉ defaultModules ->
        mapLookup h' (Some l) k = DefaultGenesis !! k.
Proof.
  intros Hpack HA HS HB Hdenom HG HF HSl HM HE.
  unfold newDefaultGenesisState, newDefaultMap.
  set (l := fresh (dom h)).
  assert (h !! l = None) as Hfresh.
  { apply not_elem_of_dom. apply is_fresh. }
  unfold setDefaultAuthGenesisState. rewrite Hpack.
  cbn [Must mbind outcome_bind]. fold (defaultAuthGenesis packed).
  rewrite HA. cbn [Must mbind outcome_bind mapAssign].
  unfold setDefaultStakingGenesisState, stakingtypes.NewGenesisState.
  fold (defaultStakingGenesis (staking params)).
  rewrite HS. cbn [Must mbind outcome_bind mapAssign].
  unfold setDefaultBankGenesisState.
  fold (defaultBankGenesis (bank params)).
  rewrite HB. cbn [Must mbind outcome_bind mapAssign].
  rewrite setDefaultGovGenesisState_eq by done.
  rewrite HG. cbn [Must mbind outcome_bind mapAssign].
  unfold setDefaultFeeMarketGenesisState.
  fold (defaultFeeMarketGenesis (feemarket params)).
  rewrite HF. cbn [Must mbind outcome_bind mapAssign].
  unfold setDefaultSlashingGenesisState.
  fold (defaultSlashingGenesis (slashing params)).
  rewrite HSl. cbn [Must mbind outcome_bind mapAssign].
  unfold setDefaultMintGenesisState.
  fold (defaultMintGenesis (mint params)).
  rewrite HM. cbn [Must mbind outcome_bind mapAssign].
  unfold setDefaultErc20GenesisState. fold defaultErc20Genesis.
  rewrite HE. cbn [Must mbind outcome_bind mapAssign].
  rewrite !lookup_insert_eq. cbn [default from_option id].
  rewrite !insert_insert_eq.
  eexists l, _. split; [reflexivity|]. split; [done|].
  split. { intros l' Hne. by rewrite lookup_insert_ne. }
  unfold mapLookup. rewrite !lookup_insert_eq. cbn [default from_option id].
  repeat (split; [by simplify_map_eq|]).
  intros k Hk. unfold defaultModules in Hk.
  rewrite !not_elem_of_cons in Hk.
  destruct Hk as (? & ? & ? & ? & ? & ? & ? & ? & _).
  by rewrite !lookup_insert_ne.
Qed.

End DefaultGenesisFacts.

(* ===================================================================== *)
(** ** The further statements at work on the concrete environment *)
(* ===================================================================== *)

Section MoreInstances.
Import sdk network example.

Lemma setter_type_mismatch_witness :
  genesisSetupFunctions !! "auth"
  = Some setAuthGenesisState ∧
  ¬ accepts "auth" (VBankGenesis (banktypes.mkGenesisState "" [] [] [] [])) ∧
  setAuthGenesisState (Some 0%nat)
    (VBankGenesis (banktypes.mkGenesisState "" [] [] [] [])) heap0
  = Returns (None,
             Some "invalid type *types.GenesisState for auth module genesis state",
             heap0).
Proof.
  assert (genesisSetupFunctions !! "auth"
          = Some setAuthGenesisState) as Hfn by reflexivity.
  assert (¬ accepts "auth"
            (VBankGenesis (banktypes.mkGenesisState "" [] [] [] []))) as Hacc.
  { intros [Hc|Hb]; discriminate. }
  split; [exact Hfn|]. split; [exact Hacc|].
  exact (setter_type_mismatch "auth" setAuthGenesisState (Some 0%nat)
           (VBankGenesis (banktypes.mkGenesisState "" [] [] [] []))
           heap0 Hfn Hacc).
Defined.


Lemma createStakingValidators_specific_witness :
  [addr1; addr2] ≠ [] ∧
  length [addr1; addr2] = length [val1; val2] ∧
  Forall keyConverts [val1; val2] ∧
  ∃ vs, createStakingValidators (map Some [val1; val2]) 7 [addr1; addr2]
        = Returns (vs, None)
        ∧ length vs = length [val1; val2]
        ∧ ∀ i addr, [addr1; addr2] !! i = Some addr ->
            ∃ v, vs !! i = Some v
                 ∧ stakingtypes.OperatorAddress v = ValAddress_String addr
                 ∧ stakingtypes.Tokens v = 7
                 ∧ hasDefaults v.
Proof.
  assert ([addr1; addr2] ≠ []) as Hne by discriminate.
  assert (length [addr1; addr2] = length [val1; val2]) as Hlen
    by reflexivity.
  assert (Forall keyConverts [val1; val2]) as Hk.
  { repeat constructor; eexists _, _; split; reflexivity. }
  split; [exact Hne|]. split; [exact Hlen|]. split; [exact Hk|].
  exact (createStakingValidators_specific [val1; val2] 7 [addr1; addr2]
           Hne Hlen Hk).
Defined.

(** The second of three validators has a key the conversions reject. *)
Lemma createStakingValidators_first_failure_witness :
  operatorsFit (map Some [val1] ++ Some val3 :: [Some val2]) [] ∧
  Forall keyConverts [val1] ∧
  keyFails val3 "key type sr25519 is not supported" ∧
  createStakingValidators (map Some [val1] ++ Some val3 :: [Some val2]) 7 []
  = Returns ([], Some "key type sr25519 is not supported").
Proof.
  assert (operatorsFit (map Some [val1] ++ Some val3 :: [Some val2]) [])
    as Hfit by (left; reflexivity).
  assert (Forall keyConverts [val1]) as Hk.
  { repeat constructor; eexists _, _; split; reflexivity. }
  assert (keyFails val3 "key type sr25519 is not supported") as Hfail
    by (left; reflexivity).
  split; [exact Hfit|]. split; [exact Hk|]. split; [exact Hfail|].
  exact (createStakingValidators_first_failure [val1] val3 [Some val2] 7 []
           "key type sr25519 is not supported" Hfit Hk Hfail).
Defined.

Lemma calculateTotalSupply_returns_iff_witness :
  amountsFit balances0 ∧
  ((∃ supply, calculateTotalSupply balances0 = Returns supply)
   <-> coinsSorted balances0)
  ∧ (calculateTotalSupply balances0
     = Panics "Wrong argument: coins must be sorted"
     <-> ¬ coinsSorted balances0).
Proof.
  assert (amountsFit balances0) as Hfit.
  { intros denom. simpl. unfold MaxBitLen. repeat case_decide; lia. }
  split; [exact Hfit|].
  exact (calculateTotalSupply_returns_iff balances0 Hfit).
Defined.

Lemma createBalances_total_supply_witness :
  (∀ denom, is_Some (denoms0 !! denom) -> validDenom denom = true) ∧
  0 <= InitialUnits ∧
  (∀ denom d, denoms0 !! denom = Some d ->
     Z.of_nat (length [addr1; addr2])
     * (InitialUnits * evmtypes.ConversionFactor d) < 2 ^ MaxBitLen) ∧
  ∃ balances supply,
    createBalances [addr1; addr2] denoms0 = Returns balances
    ∧ calculateTotalSupply balances = Returns supply
    ∧ ∀ denom,
        amountOf denom supply
        = match denoms0 !! denom with
          | Some d => Z.of_nat (length [addr1; addr2])
                      * (InitialUnits * evmtypes.ConversionFactor d)
          | None => 0
          end.
Proof.
  assert (0 <= InitialUnits) as Hu by (vm_compute; discriminate).
  assert (∀ denom d, denoms0 !! denom = Some d ->
            Z.of_nat (length [addr1; addr2])
            * (InitialUnits * evmtypes.ConversionFactor d) < 2 ^ MaxBitLen)
    as Hbound.
  { intros denom d _. unfold evmtypes.ConversionFactor.
    case_decide; vm_compute; reflexivity. }
  split; [exact denoms0_valid|]. split; [exact Hu|]. split; [exact Hbound|].
  exact (createBalances_total_supply [addr1; addr2] denoms0
           denoms0_valid Hu Hbound).
Defined.

Lemma customizeGenesis_success_frame_witness :
  let entries := [("evm", VProtoGenesis EvmGenesis "{}")] in
  customizeGenesis entries (Some 0%nat) heap0
  = Returns (Some 0%nat, None, heap1)
  ∧ Some 0%nat = Some 0%nat
  ∧ ∀ k, k ∉ entries.*1 ->
      mapLookup heap1 (Some 0%nat) k = mapLookup heap0 (Some 0%nat) k.
Proof.
  intros entries.
  assert (customizeGenesis entries (Some 0%nat) heap0
          = Returns (Some 0%nat, None, heap1)) as Hrun
    by (vm_compute; reflexivity).
  split; [exact Hrun|].
  exact (customizeGenesis_success_frame entries (Some 0%nat) (Some 0%nat)
           heap0 heap1 Hrun).
Defined.

Lemma customizeGenesis_unknown_module_never_succeeds_witness :
  let customGen : CustomGenesisState := {[ "staking" := VOther "string" ]} in
  let entries := [("staking", VOther "string")] in
  rangeOrder customGen entries ∧
  is_Some (customGen !! "staking") ∧
  genesisSetupFunctions !! "staking" = None ∧
  customizeGenesis entries (Some 0%nat) heap0
  ≠ Returns (Some 0%nat, None, heap0).
Proof.
  intros customGen entries.
  assert (rangeOrder customGen entries) as Horder.
  { unfold rangeOrder, customGen, entries.
    by rewrite map_to_list_singleton. }
  assert (is_Some (customGen !! "staking")) as Hin
    by (exists (VOther "string"); reflexivity).
  assert (genesisSetupFunctions !! "staking" = None) as Hnone
    by reflexivity.
  split; [exact Horder|]. split; [exact Hin|]. split; [exact Hnone|].
  exact (customizeGenesis_unknown_module_never_succeeds customGen entries
           "staking" (Some 0%nat) (Some 0%nat) heap0 heap0
           Horder Hin Hnone).
Defined.

Lemma customizeGenesis_stores_override_witness :
  MarshalJSON_proto EvmGenesis "{}" = Ok "{}" ∧
  (∃ h', customizeGenesis
           [(protoModule EvmGenesis, VProtoGenesis EvmGenesis "{}")]
           (Some 0%nat) heap0
         = Returns (Some 0%nat, None, h')
         ∧ mapLookup h' (Some 0%nat) (protoModule EvmGenesis) = Some "{}"
         ∧ ∀ k, k ≠ protoModule EvmGenesis ->
             mapLookup h' (Some 0%nat) k = mapLookup heap0 (Some 0%nat) k)
  ∧ customizeGenesis
      [(protoModule EvmGenesis, VProtoGenesis EvmGenesis "{}")] None heap0
    = Panics "assignment to entry in nil map".
Proof.
  assert (MarshalJSON_proto EvmGenesis "{}" = Ok "{}") as Hbz
    by reflexivity.
  split; [exact Hbz|].
  exact (customizeGenesis_stores_override EvmGenesis "{}" "{}" 0%nat heap0
           Hbz).
Defined.

Lemma setBankGenesisState_appends_witness :
  UnmarshalJSON_bank (mapIndex heap0 (Some 0%nat) ModuleName.bank)
  = Ok bankGen0 ∧
  (banktypes.Balances bankOverride1 ≠ [] ->
     isSorted (banktypes.Supply bankGen0) = true ∧
     isSorted (allCoins (banktypes.Balances bankOverride1)) = true ∧
     ∀ denom,
       magnitudeOf denom
         (banktypes.Supply bankGen0 ++
            allCoins (banktypes.Balances bankOverride1)) < 2 ^ MaxBitLen) ∧
  (∀ g, ∃ bz, MarshalJSON_bank g = Ok bz) ∧
  ∃ supply bz h',
    setBankGenesisState (Some 0%nat) (VBankGenesis bankOverride1) heap0
    = Returns (Some 0%nat, None, h')
    ∧ MarshalJSON_bank (bankAfterOverride bankGen0 bankOverride1 supply)
      = Ok bz
    ∧ mapLookup h' (Some 0%nat) ModuleName.bank = Some bz
    ∧ (∀ denom, amountOf denom supply
                = amountOf denom (banktypes.Supply bankGen0)
                  + sumAmounts denom (banktypes.Balances bankOverride1))
    ∧ ∀ k, k ≠ ModuleName.bank ->
        mapLookup h' (Some 0%nat) k = mapLookup heap0 (Some 0%nat) k.
Proof.
  assert (UnmarshalJSON_bank (mapIndex heap0 (Some 0%nat) ModuleName.bank)
          = Ok bankGen0) as Hdec by reflexivity.
  assert (banktypes.Balances bankOverride1 ≠ [] ->
          isSorted (banktypes.Supply bankGen0) = true ∧
          isSorted (allCoins (banktypes.Balances bankOverride1)) = true ∧
          ∀ denom,
            magnitudeOf denom
              (banktypes.Supply bankGen0 ++
                 allCoins (banktypes.Balances bankOverride1))
            < 2 ^ MaxBitLen)
    as Hsorted.
  { intros _. split; [reflexivity|]. split; [reflexivity|].
    intros denom. simpl. unfold MaxBitLen. repeat case_decide; lia. }
  assert (∀ g, ∃ bz, MarshalJSON_bank g = Ok bz) as Hmarshal
    by (intros g; eexists; reflexivity).
  split; [exact Hdec|]. split; [exact Hsorted|]. split; [exact Hmarshal|].
  exact (setBankGenesisState_appends 0%nat heap0 bankGen0 bankOverride1
           Hdec Hsorted Hmarshal).
Defined.

Lemma setBankGenesisState_unsorted_panics_witness :
  UnmarshalJSON_bank (mapIndex heap0 (Some 0%nat) ModuleName.bank)
  = Ok bankGen0 ∧
  banktypes.Balances bankOverride2 ≠ [] ∧
  isSorted (banktypes.Supply bankGen0) = true ∧
  isSorted (allCoins (banktypes.Balances bankOverride2)) = false ∧
  setBankGenesisState (Some 0%nat) (VBankGenesis bankOverride2) heap0
  = Panics "Wrong argument: coins must be sorted".
Proof.
  assert (UnmarshalJSON_bank (mapIndex heap0 (Some 0%nat) ModuleName.bank)
          = Ok bankGen0) as Hdec by reflexivity.
  assert (banktypes.Balances bankOverride2 ≠ []) as Hne by discriminate.
  assert (isSorted (banktypes.Supply bankGen0) = true) as Hs
    by reflexivity.
  assert (isSorted (allCoins (banktypes.Balances bankOverride2)) = false)
    as Hc by reflexivity.
  split; [exact Hdec|]. split; [exact Hne|]. split; [exact Hs|].
  split; [exact Hc|].
  exact (setBankGenesisState_unsorted_panics (Some 0%nat) heap0 bankGen0
           bankOverride2 Hdec Hne Hs Hc).
Defined.

Lemma setAuthGenesisState_appends_witness :
  UnmarshalJSON_auth (mapIndex heap0 (Some 0%nat) ModuleName.auth)
  = Ok authGen0 ∧
  MarshalJSON_auth (authAfterOverride authGen0 authOverride1) = Ok "p" ∧
  ∃ h',
    setAuthGenesisState (Some 0%nat) (VAuthGenesis authOverride1) heap0
    = Returns (Some 0%nat, None, h')
    ∧ mapLookup h' (Some 0%nat) ModuleName.auth = Some "p"
    ∧ ∀ k, k ≠ ModuleName.auth ->
        mapLookup h' (Some 0%nat) k = mapLookup heap0 (Some 0%nat) k.
Proof.
  assert (UnmarshalJSON_auth (mapIndex heap0 (Some 0%nat) ModuleName.auth)
          = Ok authGen0) as Hdec by reflexivity.
  assert (MarshalJSON_auth (authAfterOverride authGen0 authOverride1)
          = Ok "p") as Hbz by reflexivity.
  split; [exact Hdec|]. split; [exact Hbz|].
  exact (setAuthGenesisState_appends 0%nat heap0 authGen0 authOverride1 "p"
           Hdec Hbz).
Defined.

Lemma customGen1_order :
  rangeOrder customGen1
    [("evm", VProtoGenesis EvmGenesis "{}");
     ("gov", VProtoGenesis GovV1Genesis "{g}")].
Proof.
  unfold rangeOrder, customGen1. symmetry.
  rewrite map_to_list_insert by reflexivity.
  by rewrite map_to_list_singleton.
Defined.

Lemma customGen1_order_swapped :
  rangeOrder customGen1
    [("gov", VProtoGenesis GovV1Genesis "{g}");
     ("evm", VProtoGenesis EvmGenesis "{}")].
Proof.
  unfold rangeOrder. rewrite <- customGen1_order. apply perm_swap.
Defined.

Lemma customizeGenesis_overrides_independent_witness :
  let entries := [("evm", VProtoGenesis EvmGenesis "{}");
                  ("gov", VProtoGenesis GovV1Genesis "{g}")] in
  rangeOrder customGen1 entries ∧
  customizeGenesis entries (Some 0%nat) heap0
  = Returns (Some 0%nat, None, heap2) ∧
  customGen1 !! "gov" = Some (VProtoGenesis GovV1Genesis "{g}") ∧
  ∃ fn hm, genesisSetupFunctions !! "gov" = Some fn
           ∧ fn (Some 0%nat) (VProtoGenesis GovV1Genesis "{g}") heap0
             = Returns (Some 0%nat, None, hm)
           ∧ mapLookup heap2 (Some 0%nat) "gov"
             = mapLookup hm (Some 0%nat) "gov".
Proof.
  intros entries.
  assert (customizeGenesis entries (Some 0%nat) heap0
          = Returns (Some 0%nat, None, heap2)) as Hrun
    by (vm_compute; reflexivity).
  assert (customGen1 !! "gov" = Some (VProtoGenesis GovV1Genesis "{g}"))
    as Hin by reflexivity.
  split; [exact customGen1_order|]. split; [exact Hrun|].
  split; [exact Hin|].
  exact (customizeGenesis_overrides_independent customGen1 entries
           (Some 0%nat) (Some 0%nat) heap0 heap2 "gov"
           (VProtoGenesis GovV1Genesis "{g}") customGen1_order Hrun Hin).
Defined.

Lemma customizeGenesis_order_independent_witness :
  let entries1 := [("evm", VProtoGenesis EvmGenesis "{}");
                   ("gov", VProtoGenesis GovV1Genesis "{g}")] in
  let entries2 := [("gov", VProtoGenesis GovV1Genesis "{g}");
                   ("evm", VProtoGenesis EvmGenesis "{}")] in
  rangeOrder customGen1 entries1 ∧
  rangeOrder customGen1 entries2 ∧
  customizeGenesis entries1 (Some 0%nat) heap0
  = Returns (Some 0%nat, None, heap2) ∧
  ∃ h2, customizeGenesis entries2 (Some 0%nat) heap0
        = Returns (Some 0%nat, None, h2)
        ∧ ∀ k, mapLookup h2 (Some 0%nat) k = mapLookup heap2 (Some 0%nat) k.
Proof.
  intros entries1 entries2.
  assert (customizeGenesis entries1 (Some 0%nat) heap0
          = Returns (Some 0%nat, None, heap2)) as Hrun
    by (vm_compute; reflexivity).
  split; [exact customGen1_order|].
  split; [exact customGen1_order_swapped|]. split; [exact Hrun|].
  exact (customizeGenesis_order_independent customGen1 entries1 entries2
           (Some 0%nat) (Some 0%nat) heap0 heap2
           customGen1_order customGen1_order_swapped Hrun).
Defined.

Lemma createGenesisAccounts_match_balances_witness :
  ∃ balances,
    createBalances [addr1; addr2] denoms0 = Returns balances ∧
    Forall2
      (fun acct b =>
         authtypes.Address acct = banktypes.Address b
         ∧ authtypes.PubKey acct = None
         ∧ authtypes.AccountNumber acct = 0
         ∧ authtypes.Sequence acct = 0)
      (createGenesisAccounts [addr1; addr2]) balances.
Proof.
  destruct (createBalances [addr1; addr2] denoms0) as [balances|msg] eqn:Hrun;
    [|vm_compute in Hrun; discriminate Hrun].
  exists balances. split; [reflexivity|].
  exact (createGenesisAccounts_match_balances [addr1; addr2] denoms0
           balances Hrun).
Defined.

Lemma createDelegations_match_validators_witness :
  ∃ vs err,
    createStakingValidators [Some val1; Some val2] 7 [] = Returns (vs, err) ∧
    Forall2
      (fun v d =>
         stakingtypes.ValidatorAddress d = stakingtypes.OperatorAddress v
         ∧ stakingtypes.DelegatorAddress d = AccAddress_String addr1
         ∧ stakingtypes.Shares d = stakingtypes.DelegatorShares v)
      vs (createDelegations vs addr1).
Proof.
  destruct (createStakingValidators [Some val1; Some val2] 7 [])
    as [[vs err]|msg] eqn:Hrun; [|vm_compute in Hrun; discriminate Hrun].
  exists vs, err. split; [reflexivity|].
  exact (createDelegations_match_validators [Some val1; Some val2] 7 [] vs
           err addr1 Hrun).
Defined.

Lemma getValidatorsSlashingGen_records_witness :
  Forall2 consAddrOf [sval1; sval1] [consAddr1; consAddr1] ∧
  getValidatorsSlashingGen [sval1; sval1]
  = (mkSlashingCustomGenesisState
       (map signingInfoFor [consAddr1; consAddr1])
       (map missedBlocksFor [consAddr1; consAddr1]), None).
Proof.
  assert (Forall2 consAddrOf [sval1; sval1] [consAddr1; consAddr1]) as Hall.
  { repeat constructor; eexists; split; reflexivity. }
  split; [exact Hall|].
  exact (getValidatorsSlashingGen_records [sval1; sval1]
           [consAddr1; consAddr1] Hall).
Defined.

(** The second of three records has no consensus key. *)
Lemma getValidatorsSlashingGen_first_failure_witness :
  (∀ v, v ∈ [sval1] -> ∃ consAddr, consAddrOf v consAddr) ∧
  consAddrFails stakingtypes.zeroValidator "empty validator public key" ∧
  getValidatorsSlashingGen ([sval1] ++ stakingtypes.zeroValidator :: [sval1])
  = (mkSlashingCustomGenesisState [] [], Some "empty validator public key").
Proof.
  assert (∀ v, v ∈ [sval1] -> ∃ consAddr, consAddrOf v consAddr) as Hpre.
  { intros v Hv. apply list_elem_of_singleton in Hv. subst v.
    exists consAddr1. eexists; split; reflexivity. }
  assert (consAddrFails stakingtypes.zeroValidator
            "empty validator public key") as Hfail by (left; reflexivity).
  split; [exact Hpre|]. split; [exact Hfail|].
  exact (getValidatorsSlashingGen_first_failure [sval1] [sval1]
           stakingtypes.zeroValidator "empty validator public key"
           Hpre Hfail).
Defined.

Lemma chainMaps0_range :
  coordinator.rangeOfMap chainMaps0 (Some 1%nat) [("b", ("b2", 5))].
Proof.
  unfold coordinator.rangeOfMap.
  assert (coordinator.chainsOf chainMaps0 (Some 1%nat)
          = {[ "b" := ("b2", 5) ]}) as -> by (vm_compute; reflexivity).
  by rewrite map_to_list_singleton.
Defined.

(** The chain b of the second map replaces the chain b of the first. *)
Lemma mergeMaps_second_wins_witness :
  coordinator.rangeOfMap chainMaps0 (Some 1%nat) [("b", ("b2", 5))] ∧
  ∃ h', coordinator.mergeMaps (Some 0%nat) [("b", ("b2", 5))] chainMaps0
        = Returns (Some 0%nat, h')
        ∧ (∀ k, coordinator.chainsOf h' (Some 0%nat) !! k
                = match coordinator.chainsOf chainMaps0 (Some 1%nat) !! k with
                  | Some chain => Some chain
                  | None => coordinator.chainsOf chainMaps0 (Some 0%nat) !! k
                  end)
        ∧ ∀ l, l ≠ 0%nat -> h' !! l = chainMaps0 !! l.
Proof.
  split; [exact chainMaps0_range|].
  exact (mergeMaps_second_wins 0%nat (Some 1%nat) [("b", ("b2", 5))]
           chainMaps0 chainMaps0_range).
Defined.

Lemma mergeMaps_into_nil_witness :
  coordinator.rangeOfMap chainMaps0 (Some 1%nat) [("b", ("b2", 5))] ∧
  (coordinator.chainsOf chainMaps0 (Some 1%nat) = ∅ ->
     coordinator.mergeMaps None [("b", ("b2", 5))] chainMaps0
     = Returns (None, chainMaps0))
  ∧ (coordinator.chainsOf chainMaps0 (Some 1%nat) ≠ ∅ ->
       coordinator.mergeMaps None [("b", ("b2", 5))] chainMaps0
       = Panics "assignment to entry in nil map").
Proof.
  split; [exact chainMaps0_range|].
  exact (mergeMaps_into_nil (Some 1%nat) [("b", ("b2", 5))] chainMaps0
           chainMaps0_range).
Defined.

Lemma generateDummyChains_ids_witness :
  0 <= 2 ∧
  sdkglobals.sealed globals0 = false ∧
  (∀ c id, ∃ r, NewTestChain c id = Returns r) ∧
  ∃ ibcChains coord' g',
    @coordinator.generateDummyChains ibcTesting 0 2 globals0
    = Returns (ibcChains, map dummyChainID (seqZ 1 2), coord', g')
    ∧ length (map dummyChainID (seqZ 1 2)) = Z.to_nat 2
    ∧ NoDup (map dummyChainID (seqZ 1 2))
    ∧ ∀ id, is_Some (ibcChains !! id)
            <-> id ∈ map dummyChainID (seqZ 1 2).
Proof.
  assert (0 <= 2) as Hn by lia.
  assert (sdkglobals.sealed globals0 = false) as Hsealed by reflexivity.
  assert (∀ c id, ∃ r, NewTestChain c id = Returns r) as Hnew
    by (intros c id; eexists; reflexivity).
  split; [exact Hn|]. split; [exact Hsealed|]. split; [exact Hnew|].
  exact (generateDummyChains_ids (ibc := ibcTesting) 0 2 globals0
           Hn Hsealed Hnew).
Defined.

Lemma generateDummyChains_resets_prefixes_witness :
  ∃ ibcChains ids coord' g',
    @coordinator.generateDummyChains ibcTesting 0 2 globals0
    = Returns (ibcChains, ids, coord', g')
    ∧ g' = cosmosDefaults false.
Proof.
  destruct (@coordinator.generateDummyChains ibcTesting 0 2 globals0)
    as [[[[ibcChains ids] coord'] g']|msg] eqn:Hrun;
    [|vm_compute in Hrun; discriminate Hrun].
  exists ibcChains, ids, coord', g'. split; [reflexivity|].
  exact (generateDummyChains_resets_prefixes (ibc := ibcTesting) 0 coord' 2
           globals0 g' ibcChains ids Hrun).
Defined.

Lemma getIBCChains_keys_witness :
  (∀ n c, ∃ r, GetIBCChain n c = Returns r) ∧
  ∃ ibcChains coord',
    @coordinator.getIBCChains ibcTesting 0 ["chain-1"; "chain-2"]
    = Returns (ibcChains, coord')
    ∧ ∀ id, is_Some (ibcChains !! id)
            <-> id ∈ map GetChainID ["chain-1"; "chain-2"].
Proof.
  assert (∀ n c, ∃ r, GetIBCChain n c = Returns r) as Hget
    by (intros n c; eexists; reflexivity).
  split; [exact Hget|].
  exact (getIBCChains_keys (ibc := ibcTesting) 0 ["chain-1"; "chain-2"] Hget).
Defined.

(** On the six-decimals chain the minimum deposit is 10^6 of the denom. *)
Lemma setDefaultGovGenesisState_min_deposit_witness :
  let p := mkGovCustomGenesisState "aatom" in
  MarshalJSON_gov
    (govtypesv1.mkGenesisState
       (govtypesv1.StartingProposalId gov_DefaultGenesisState)
       (govtypesv1.mkParams
          [mkCoin (gov_denom p) govMinDeposit]
          [mkCoin (gov_denom p) govMinDeposit]
          (govtypesv1.OtherParams
             (govtypesv1.GenesisParams gov_DefaultGenesisState))))
  = Ok "gov/1000000aatom" ∧
  govMinDeposit * evmtypes.ConversionFactor GetEVMCoinDecimals = 10 ^ 18
  ∧ (GetEVMCoinDecimals = evmtypes.SixDecimals -> govMinDeposit = 10 ^ 6)
  ∧ (validDenom (gov_denom p) = true ->
     ∃ h', setDefaultGovGenesisState (Some 0%nat) p heap0
           = Returns (Some 0%nat, h')
           ∧ mapLookup h' (Some 0%nat) ModuleName.gov
             = Some "gov/1000000aatom"
           ∧ ∀ k, k ≠ ModuleName.gov ->
               mapLookup h' (Some 0%nat) k = mapLookup heap0 (Some 0%nat) k)
  ∧ (validDenom (gov_denom p) = false ->
     setDefaultGovGenesisState (Some 0%nat) p heap0
     = Panics ("invalid denom: " +:+ gov_denom p)).
Proof.
  intros p.
  assert (MarshalJSON_gov
            (govtypesv1.mkGenesisState
               (govtypesv1.StartingProposalId gov_DefaultGenesisState)
               (govtypesv1.mkParams
                  [mkCoin (gov_denom p) govMinDeposit]
                  [mkCoin (gov_denom p) govMinDeposit]
                  (govtypesv1.OtherParams
                     (govtypesv1.GenesisParams gov_DefaultGenesisState))))
          = Ok "gov/1000000aatom") as Hbz by (vm_compute; reflexivity).
  split; [exact Hbz|].
  exact (setDefaultGovGenesisState_min_deposit 0%nat heap0 p
           "gov/1000000aatom" Hbz).
Defined.

Lemma newDefaultGenesisState_entries_witness :
  PackAccounts (genAccounts params0) = Ok [] ∧
  MarshalJSON_auth (defaultAuthGenesis []) = Ok "auth-params" ∧
  MarshalJSON_staking (defaultStakingGenesis (staking params0))
  = Ok "staking/aatom" ∧
  MarshalJSON_bank (defaultBankGenesis (bank params0)) = Ok "bank-params" ∧
  validDenom (gov_denom (gov params0)) = true ∧
  MarshalJSON_gov (defaultGovGenesis (gov params0))
  = Ok "gov/1000000aatom" ∧
  MarshalJSON_feemarket (defaultFeeMarketGenesis (feemarket params0))
  = Ok "feemarket" ∧
  MarshalJSON_slashing (defaultSlashingGenesis (slashing params0))
  = Ok "slashing" ∧
  MarshalJSON_mint (defaultMintGenesis (mint params0)) = Ok "mint/aatom" ∧
  MarshalJSON_erc20 defaultErc20Genesis = Ok "erc20" ∧
  ∃ l h',
    newDefaultGenesisState params0 heap0 = Returns (Some l, h')
    ∧ heap0 !! l = None
    ∧ (∀ l', l' ≠ l -> h' !! l' = heap0 !! l')
    ∧ mapLookup h' (Some l) ModuleName.auth = Some "auth-params"
    ∧ mapLookup h' (Some l) ModuleName.staking = Some "staking/aatom"
    ∧ mapLookup h' (Some l) ModuleName.bank = Some "bank-params"
    ∧ mapLookup h' (Some l) ModuleName.gov = Some "gov/1000000aatom"
    ∧ mapLookup h' (Some l) ModuleName.feemarket = Some "feemarket"
    ∧ mapLookup h' (Some l) ModuleName.slashing = Some "slashing"
    ∧ mapLookup h' (Some l) ModuleName.mint = Some "mint/aatom"
    ∧ mapLookup h' (Some l) ModuleName.erc20 = Some "erc20"
    ∧ ∀ k, k ∉ defaultModules ->
        mapLookup h' (Some l) k = DefaultGenesis !! k.
Proof.
  assert (PackAccounts (genAccounts params0) = Ok []) as Hpack
    by reflexivity.
  assert (MarshalJSON_auth (defaultAuthGenesis []) = Ok "auth-params")
    as HA by reflexivity.
  assert (MarshalJSON_staking (defaultStakingGenesis (staking params0))
          = Ok "staking/aatom") as HS by reflexivity.
  assert (MarshalJSON_bank (defaultBankGenesis (bank params0))
          = Ok "bank-params") as HB by reflexivity.
  assert (validDenom (gov_denom (gov params0)) = true) as Hdenom
    by reflexivity.
  assert (MarshalJSON_gov (defaultGovGenesis (gov params0))
          = Ok "gov/1000000aatom") as HG by (vm_compute; reflexivity).
  assert (MarshalJSON_feemarket
            (defaultFeeMarketGenesis (feemarket params0))
          = Ok "feemarket") as HF by reflexivity.
  assert (MarshalJSON_slashing (defaultSlashingGenesis (slashing params0))
          = Ok "slashing") as HSl by reflexivity.
  assert (MarshalJSON_mint (defaultMintGenesis (mint params0))
          = Ok "mint/aatom") as HM by reflexivity.
  assert (MarshalJSON_erc20 defaultErc20Genesis = Ok "erc20") as HE
    by reflexivity.
  split; [exact Hpack|]. split; [exact HA|]. split; [exact HS|].
  split; [exact HB|]. split; [exact Hdenom|]. split; [exact HG|].
  split; [exact HF|]. split; [exact HSl|]. split; [exact HM|].
  split; [exact HE|].
  exact (newDefaultGenesisState_entries params0 heap0 []
           "auth-params" "staking/aatom" "bank-params" "gov/1000000aatom"
           "feemarket" "slashing" "mint/aatom" "erc20"
           Hpack HA HS HB Hdenom HG HF HSl HM HE).
Defined.

End MoreInstances.
